(** * Resilience core of the conversational-messaging backend

    A shallow embedding of the message-processing core:
    the idempotent event bus ([backend/core/events/idempotency.py]),
    the hybrid state manager ([backend/core/state/hybrid_state_manager.py]),
    the saga orchestrator and the recipe-extraction saga
    ([backend/core/sagas]), the rate-limited AI gateway
    ([backend/services/ai/rate_limited_service.py]), the batch SMS sender
    ([backend/services/sms/batch_sender.py]) and the inbound-message pipeline
    ([jules-backend/src/services/conversation_service.py]).

    Conventions.
    - Python exceptions are values of [Exn]; only instances of [Exception]
      (what [except Exception] catches) are modelled.
    - A call that may raise returns an [Outcome].
    - The modules of [backend] log through [logging.getLogger(__name__)]
      and call it with keyword fields ([logger.error("saga_failed",
      saga_id=...)]); nothing in [backend] configures the loggers, so the
      level in force is the default, WARNING.  [Logger.info] is below it and
      returns before it looks at its fields.  [Logger.warning] and
      [Logger.error] pass them on to [Logger._log], which takes no such
      keywords: the call raises [TypeError], naming the first field.  The
      calls are kept in a log, in their order, whether they return or raise.
      The pipeline of [jules-backend] passes its fields in [extra=], which
      the logger accepts.
    - A saga, a batch or a pipeline is run with no other task in flight,
      except where two emitters are interleaved at their awaits.
    - Time is a reading of a clock in whole seconds, passed explicitly. *)

From stdpp Require Import gmap strings list pretty.
From Stdlib Require Import ZArith Lia.

Local Open Scope Z_scope.

(** ** Exceptions and outcomes *)

Inductive Exn := PyExc (cls : string) (msg : string).

(** [str(e)] *)
Definition str (e : Exn) : string :=
  match e with PyExc _ m => m end.

Inductive Outcome (A : Type) :=
| Return (a : A)
| Raise (e : Exn).
Arguments Return {A} a.
Arguments Raise {A} e.

(** ** Log records *)

Inductive Level := INFO | WARNING | ERROR.

Record LogRecord := { level : Level; message : string; fields : list string }.

(** What [Logger._log] raises when it is handed the keyword [field]. *)
Definition LoggerTypeError (field : string) : Exn :=
  PyExc "TypeError"
        ("Logger._log() got an unexpected keyword argument '" +:+ field +:+ "'").

(** [logger.warning(msg, field=..., ...)] and [logger.error(msg, field=...,
    ...)], [field] being the first keyword of the call. *)
Definition logger_warning (field : string) : Outcome unit :=
  Raise (LoggerTypeError field).

Definition logger_error (field : string) : Outcome unit :=
  Raise (LoggerTypeError field).

(** ** The key/value store

    One keyspace; a key holds a string or a list and may carry an expiry
    instant.  A key whose expiry instant has been reached is absent. *)

Module Redis.

Inductive Value :=
| VStr (s : string)
| VList (l : list string).

Record Entry := { value : Value; expires_at : option Z }.

Abbreviation Store := (gmap string Entry).

Definition WrongType : Exn :=
  PyExc "ResponseError"
        "WRONGTYPE Operation against a key holding the wrong kind of value".

Definition InvalidExpire : Exn :=
  PyExc "ResponseError" "invalid expire time in 'setex' command".

Definition live (now : Z) (e : Entry) : bool :=
  match expires_at e with
  | Some t => bool_decide (now < t)
  | None => true
  end.

Definition find (now : Z) (k : string) (st : Store) : option Entry :=
  match st !! k with
  | Some e => if live now e then Some e else None
  | None => None
  end.

(** EXISTS *)
Definition exists_ (now : Z) (k : string) (st : Store) : bool :=
  match find now k st with Some _ => true | None => false end.

(** GET *)
Definition get (now : Z) (k : string) (st : Store) : Outcome (option string) :=
  match find now k st with
  | None => Return None
  | Some e =>
      match value e with
      | VStr s => Return (Some s)
      | VList _ => Raise WrongType
      end
  end.

(** SETEX key seconds value *)
Definition setex (now : Z) (k : string) (seconds : Z) (v : string)
           (st : Store) : Outcome unit * Store :=
  if bool_decide (0 < seconds)
  then (Return tt,
        <[k := {| value := VStr v; expires_at := Some (now + seconds) |}]> st)
  else (Raise InvalidExpire, st).

(** DEL *)
Definition delete (k : string) (st : Store) : Store := base.delete k st.

(** LPUSH: the new element becomes the head; a key that holds a list
    keeps its expiry. *)
Definition lpush (now : Z) (k : string) (x : string)
           (st : Store) : Outcome Z * Store :=
  match find now k st with
  | None =>
      (Return 1, <[k := {| value := VList [x]; expires_at := None |}]> st)
  | Some e =>
      match value e with
      | VList l =>
          (Return (Z.of_nat (S (length l))),
           <[k := {| value := VList (x :: l); expires_at := expires_at e |}]> st)
      | VStr _ => (Raise WrongType, st)
      end
  end.

(** BRPOP on one key with a bounded wait: the tail of the list, or
    nothing once the wait is over.  A list that becomes empty is removed. *)
Definition brpop (now : Z) (k : string)
           (st : Store) : Outcome (option (string * string)) * Store :=
  match find now k st with
  | None => (Return None, st)
  | Some e =>
      match value e with
      | VStr _ => (Raise WrongType, st)
      | VList l =>
          match last l with
          | None => (Return None, st)
          | Some x =>
              match removelast l with
              | [] => (Return (Some (k, x)), base.delete k st)
              | l' =>
                  (Return (Some (k, x)),
                   <[k := {| value := VList l'; expires_at := expires_at e |}]> st)
              end
          end
      end
  end.

(** Whether [k] holds a string, on which LPUSH and BRPOP fail. *)
Definition holds_string (now : Z) (k : string) (st : Store) : bool :=
  match find now k st with
  | Some {| value := VStr _ |} => true
  | _ => false
  end.

(** The elements queued under [k], head first. *)
Definition elements_of (now : Z) (k : string) (st : Store) : list string :=
  match find now k st with
  | Some {| value := VList l |} => l
  | _ => []
  end.

End Redis.

(** ** The idempotent event bus *)

Module Idempotency.

Section Bus.

Context {Data : Type}.

Record Event := {
  event_id : string;          (* id: the idempotency key *)
  event_type : string;        (* type *)
  data : Data;
  correlation_id : option string
}.

(** [Event.json], which raises where [json.dumps] does (the [data] of an
    event may hold any value), and the decoding done by [consume]
    ([Event( **json.loads(event_json))]): the work of Python's [json]. *)
Variable Event_json : Event -> Outcome string.
Variable json_loads : string -> Outcome Event.

Record Bus := {
  redis : Redis.Store;
  ttl : Z;
  log : list LogRecord
}.

Definition with_redis (r : Redis.Store) (bus : Bus) : Bus :=
  {| redis := r; ttl := ttl bus; log := log bus |}.

Definition logged (l : Level) (msg : string) (event : Event) (bus : Bus) : Bus :=
  {| redis := redis bus; ttl := ttl bus;
     log := log bus ++
            [{| level := l; message := msg;
                fields := [event_id event; event_type event] |}] |}.

Definition idempotency_key (event : Event) : string :=
  "event:" +:+ event_id event.

Definition queue_key (event_type : string) : string :=
  "events:" +:+ event_type.

(** [IdempotentEventBus.emit] *)
Definition emit (now : Z) (event : Event) (bus : Bus) : Outcome bool * Bus :=
  if Redis.exists_ now (idempotency_key event) (redis bus) then
    match logger_warning "event_id" with
    | Raise err => (Raise err, logged WARNING "duplicate_event" event bus)
    | Return _ => (Return false, logged WARNING "duplicate_event" event bus)
    end
  else
    match Event_json event with
    | Raise e => (Raise e, bus)
    | Return text =>
        match Redis.lpush now (queue_key (event_type event)) text (redis bus) with
        | (Raise e, _) => (Raise e, bus)
        | (Return _, r1) =>
            match Redis.setex now (idempotency_key event) (ttl bus) "1" r1 with
            | (Raise e, r2) => (Raise e, with_redis r2 bus)
            | (Return _, r2) =>
                (Return true,
                 logged INFO "event_emitted" event (with_redis r2 bus))
            end
        end
    end.

(** [IdempotentEventBus.consume] *)
Definition consume (now : Z) (event_type : string)
           (bus : Bus) : Outcome (option Event) * Bus :=
  match Redis.brpop now (queue_key event_type) (redis bus) with
  | (Raise e, r) => (Raise e, with_redis r bus)
  | (Return None, r) => (Return None, with_redis r bus)
  | (Return (Some (_, event_json)), r) =>
      match json_loads event_json with
      | Return ev => (Return (Some ev), with_redis r bus)
      | Raise e => (Raise e, with_redis r bus)
      end
  end.

(** Calls of [emit], and of [consume], awaited one after the other, each
    at its instant. *)
Fixpoint emit_each (events : list (Z * Event)) (bus : Bus)
  : list (Outcome bool) * Bus :=
  match events with
  | [] => ([], bus)
  | (now, event) :: rest =>
      let '(o, bus) := emit now event bus in
      let '(os, bus) := emit_each rest bus in
      (o :: os, bus)
  end.

Fixpoint consume_each (instants : list Z) (event_type : string) (bus : Bus)
  : list (Outcome (option Event)) * Bus :=
  match instants with
  | [] => ([], bus)
  | now :: rest =>
      let '(o, bus) := consume now event_type bus in
      let '(os, bus) := consume_each rest event_type bus in
      (o :: os, bus)
  end.

(** What the store holds under the key of a queue with the elements [l],
    head first: nothing when there is none. *)
Definition queue_entry (l : list string) : option Redis.Entry :=
  match l with
  | [] => None
  | _ :: _ => Some {| Redis.value := Redis.VList l; Redis.expires_at := None |}
  end.

(** *** [emit] as a coroutine

    Every [await] of [emit] is a point where the event loop may run another
    task.  [emit_step] runs one task from one [await] to the next. *)

Inductive EmitPc :=
| AtExists                      (* before [await self.redis.exists] *)
| AtLpush                       (* before [await self.redis.lpush] *)
| AtSetex                       (* before [await self.redis.setex] *)
| Done (r : Outcome bool).

Definition emit_step (now : Z) (event : Event) (pc : EmitPc)
           (bus : Bus) : EmitPc * Bus :=
  match pc with
  | AtExists =>
      if Redis.exists_ now (idempotency_key event) (redis bus)
      then
        match logger_warning "event_id" with
        | Raise err =>
            (Done (Raise err), logged WARNING "duplicate_event" event bus)
        | Return _ =>
            (Done (Return false), logged WARNING "duplicate_event" event bus)
        end
      else (AtLpush, bus)
  | AtLpush =>
      match Event_json event with
      | Raise e => (Done (Raise e), bus)
      | Return text =>
          match Redis.lpush now (queue_key (event_type event)) text
                            (redis bus) with
          | (Raise e, _) => (Done (Raise e), bus)
          | (Return _, r1) => (AtSetex, with_redis r1 bus)
          end
      end
  | AtSetex =>
      match Redis.setex now (idempotency_key event) (ttl bus) "1" (redis bus) with
      | (Raise e, r2) => (Done (Raise e), with_redis r2 bus)
      | (Return _, r2) =>
          (Done (Return true), logged INFO "event_emitted" event (with_redis r2 bus))
      end
  | Done r => (Done r, bus)
  end.

(** Two emitters on one bus. *)
Inductive Emitter := First | Second.

Record Emitters := { pc1 : EmitPc; pc2 : EmitPc; shared : Bus }.

Definition schedule_step (e1 e2 : Event) (c : Emitters)
           (turn : Emitter * Z) : Emitters :=
  match turn with
  | (First, now) =>
      let '(pc, bus) := emit_step now e1 (pc1 c) (shared c) in
      {| pc1 := pc; pc2 := pc2 c; shared := bus |}
  | (Second, now) =>
      let '(pc, bus) := emit_step now e2 (pc2 c) (shared c) in
      {| pc1 := pc1 c; pc2 := pc; shared := bus |}
  end.

Definition run_schedule (e1 e2 : Event) (turns : list (Emitter * Z))
           (bus : Bus) : Emitters :=
  foldl (schedule_step e1 e2)
        {| pc1 := AtExists; pc2 := AtExists; shared := bus |} turns.

End Bus.

End Idempotency.

(** ** The hybrid state manager *)

Module HybridState.

Section Manager.

(** A state dict, and its coding by Python's [json]:
    [json.dumps(_, default=str)] and [json.loads]. *)
Context {State : Type}.
Variable json_dumps : State -> string.
Variable json_loads : string -> Outcome State.

(** The relational store behind the ORM session.  The mapped class
    [ConversationState] is declared outside these modules; its queries are
    taken as they are used by [_load_from_db], [_persist_to_db] and
    [_delete_from_db]. *)
Context {DB : Type}.
Variable _load_from_db : string -> option string -> DB -> Outcome (option State).
Variable _persist_to_db : string -> option string -> State -> DB -> DB.
Variable _delete_from_db : string -> option string -> DB -> DB.

Inductive Task :=
| persist (household_id : string) (member_id : option string) (state_data : State)
| delete (household_id : string) (member_id : option string).

Record Manager := {
  redis : Redis.Store;
  db : DB;
  ttl : Z;
  background_tasks : list Task;
  log : list LogRecord
}.

Definition with_redis (r : Redis.Store) (m : Manager) : Manager :=
  {| redis := r; db := db m; ttl := ttl m;
     background_tasks := background_tasks m; log := log m |}.

Definition put (t : Task) (m : Manager) : Manager :=
  {| redis := redis m; db := db m; ttl := ttl m;
     background_tasks := background_tasks m ++ [t]; log := log m |}.

Definition logged (l : Level) (msg : string) (household_id : string)
           (member_id : option string) (m : Manager) : Manager :=
  {| redis := redis m; db := db m; ttl := ttl m;
     background_tasks := background_tasks m;
     log := log m ++ [{| level := l; message := msg;
                         fields := [household_id; default "None" member_id] |}] |}.

(** [if member_id:] is false for [None] and for the empty string. *)
Definition _get_cache_key (household_id : string)
           (member_id : option string) : string :=
  match member_id with
  | Some (String a m) =>
      "state:individual:" +:+ household_id +:+ ":" +:+ String a m
  | _ => "state:group:" +:+ household_id
  end.

(** [if cached:] *)
Definition truthy (cached : option string) : option string :=
  match cached with
  | Some (String a s) => Some (String a s)
  | _ => None
  end.

(** [HybridStateManager.get_state] *)
Definition get_state (now : Z) (household_id : string)
           (member_id : option string)
           (m : Manager) : Outcome (option State) * Manager :=
  let cache_key := _get_cache_key household_id member_id in
  match Redis.get now cache_key (redis m) with
  | Raise e => (Raise e, m)
  | Return cached =>
      match truthy cached with
      | Some c =>
          let m := logged INFO "state_cache_hit" household_id member_id m in
          match json_loads c with
          | Return v => (Return (Some v), m)
          | Raise e => (Raise e, m)
          end
      | None =>
          let m := logged INFO "state_cache_miss" household_id member_id m in
          match _load_from_db household_id member_id (db m) with
          | Raise e => (Raise e, m)
          | Return None => (Return None, m)
          | Return (Some state) =>
              match Redis.setex now cache_key (ttl m) (json_dumps state)
                                (redis m) with
              | (Raise e, r) => (Raise e, with_redis r m)
              | (Return _, r) => (Return (Some state), with_redis r m)
              end
          end
      end
  end.

(** [HybridStateManager.update_state] *)
Definition update_state (now : Z) (household_id : string) (state_data : State)
           (member_id : option string) (m : Manager) : Outcome unit * Manager :=
  let cache_key := _get_cache_key household_id member_id in
  match Redis.setex now cache_key (ttl m) (json_dumps state_data) (redis m) with
  | (Raise e, r) => (Raise e, with_redis r m)
  | (Return _, r) =>
      let m := logged INFO "state_cached" household_id member_id (with_redis r m) in
      (Return tt, put (persist household_id member_id state_data) m)
  end.

(** [HybridStateManager.delete_state] *)
Definition delete_state (household_id : string) (member_id : option string)
           (m : Manager) : Outcome unit * Manager :=
  let cache_key := _get_cache_key household_id member_id in
  let m := with_redis (Redis.delete cache_key (redis m)) m in
  let m := put (delete household_id member_id) m in
  (Return tt, logged INFO "state_deleted" household_id member_id m).

(** One turn of the loop of [process_background_tasks] on a queue that is
    not empty. *)
Definition process_background_task (m : Manager) : Manager :=
  match background_tasks m with
  | [] => m
  | task :: rest =>
      let d :=
        match task with
        | persist h mem s => _persist_to_db h mem s (db m)
        | delete h mem => _delete_from_db h mem (db m)
        end in
      {| redis := redis m; db := d; ttl := ttl m;
         background_tasks := rest; log := log m |}
  end.

(** Whether an id is free of [:], which separates the parts of a cache
    key. *)
Fixpoint no_colon (s : string) : bool :=
  match s with
  | EmptyString => true
  | String a rest => negb (Ascii.eqb a (Ascii.ascii_of_nat 58)) && no_colon rest
  end.

(** What [get_state] returns on a cache hit with the text [c]. *)
Definition cache_hit (c : string) : Outcome (option State) :=
  match json_loads c with
  | Return v => Return (Some v)
  | Raise e => Raise e
  end.

End Manager.

End HybridState.

(** ** The saga orchestrator *)

Module SagaBase.

(** The calls of [logger], in their order.  Those of [logger.info] return;
    those of [logger.error] ([saga_failed], [saga_compensate_failed])
    raise. *)
Inductive Trace :=
| saga_step_start (step : string)
| saga_step_complete (step : string)
| saga_failed (step : string) (error : string)
| saga_rollback_start (steps_to_rollback : nat)
| saga_compensate (step : string)
| saga_compensate_failed (step : string) (error : string)
| saga_rollback_complete.

Section Orchestrator.

(** [W]: what the actions of the steps act on.  [Any]: the results that are
    not [None]. *)
Context {W Any : Type}.

(** An [execute] action reads the results of the completed steps
    ([context.completed_steps[i].result]). *)
Record SagaStep := {
  name : string;
  execute : list (option Any) -> W -> Outcome (option Any) * W;
  compensate : option (W -> Outcome unit * W);
  result : option Any
}.

Record SagaContext := {
  saga_id : string;
  steps : list SagaStep;
  completed_steps : list SagaStep;
  failed : bool;
  error : option Exn
}.

Definition results (context : SagaContext) : list (option Any) :=
  map result (completed_steps context).

(** [step.result = r]: the step is one object, reached from [context.steps]
    and, once appended, from [context.completed_steps]. *)
Definition set_result (r : option Any) (step : SagaStep) : SagaStep :=
  {| name := name step; execute := execute step;
     compensate := compensate step; result := r |}.

Definition complete (i : nat) (step : SagaStep)
           (context : SagaContext) : SagaContext :=
  {| saga_id := saga_id context;
     steps := <[i := step]> (steps context);
     completed_steps := completed_steps context ++ [step];
     failed := failed context;
     error := error context |}.

Definition fail (e : Exn) (context : SagaContext) : SagaContext :=
  {| saga_id := saga_id context;
     steps := steps context;
     completed_steps := completed_steps context;
     failed := true;
     error := Some e |}.

Record Run := { context : SagaContext; world : W; trace : list Trace }.

(** The body of the [for] loop of [execute], for the step at index [i];
    when the action raises, the last record is that of the [logger.error]
    with which the handler of [execute] starts. *)
Definition loop_body (i : nat) (step : SagaStep) (s : Run) : Run + (Exn * Run) :=
  let tr := trace s ++ [saga_step_start (name step)] in
  match execute step (results (context s)) (world s) with
  | (Return r, w) =>
      inl {| context := complete i (set_result r step) (context s);
             world := w;
             trace := tr ++ [saga_step_complete (name step)] |}
  | (Raise e, w) =>
      inr (e, {| context := context s; world := w;
                 trace := tr ++ [saga_failed (name step) (str e)] |})
  end.

Fixpoint for_steps (pending : list SagaStep) (i : nat) (s : Run) : Run + (Exn * Run) :=
  match pending with
  | [] => inl s
  | step :: rest =>
      match loop_body i step s with
      | inl s' => for_steps rest (S i) s'
      | inr f => inr f
      end
  end.

(** The loop of [_rollback]: the compensations of [todo], in that order.
    A compensation that raises is caught; the [logger.error] of its handler
    raises in its turn, which ends the loop and the rollback. *)
Fixpoint compensate_each (todo : list SagaStep) (w : W)
         (tr : list Trace) : Outcome unit * W * list Trace :=
  match todo with
  | [] => (Return tt, w, tr)
  | step :: rest =>
      match compensate step with
      | Some undo =>
          let tr := tr ++ [saga_compensate (name step)] in
          match undo w with
          | (Return _, w') => compensate_each rest w' tr
          | (Raise e, w') =>
              let tr := tr ++ [saga_compensate_failed (name step) (str e)] in
              match logger_error "saga_id" with
              | Raise err => (Raise err, w', tr)
              | Return _ => compensate_each rest w' tr
              end
          end
      | None => compensate_each rest w tr
      end
  end.

(** [SagaOrchestrator._rollback] *)
Definition _rollback (s : Run) : Outcome unit * Run :=
  let tr := trace s ++ [saga_rollback_start (length (completed_steps (context s)))] in
  match compensate_each (rev (completed_steps (context s))) (world s) tr with
  | (Return _, w, tr) =>
      (Return tt,
       {| context := context s; world := w;
          trace := tr ++ [saga_rollback_complete] |})
  | (Raise err, w, tr) =>
      (Raise err, {| context := context s; world := w; trace := tr |})
  end.

(** [SagaOrchestrator.execute]: the outcome, and the run, whose context the
    caller still holds when the call raises.  The handler starts with
    [logger.error("saga_failed", saga_id=...)], which raises: what follows
    it in the handler is not reached. *)
Definition execute_saga (s : Run) : Outcome SagaContext * Run :=
  match for_steps (steps (context s)) 0 s with
  | inl s' => (Return (context s'), s')
  | inr (e, s') =>
      match logger_error "saga_id" with
      | Raise err => (Raise err, s')
      | Return _ =>
          let s' := {| context := fail e (context s'); world := world s';
                       trace := trace s' |} in
          match _rollback s' with
          | (Return _, s'') => (Raise e, s'')
          | (Raise err, s'') => (Raise err, s'')
          end
      end
  end.

(** [Saga.create_context] *)
Definition create_context (saga_id : string) : SagaContext :=
  {| saga_id := saga_id; steps := []; completed_steps := [];
     failed := false; error := None |}.

(** The configurations of the loop of [execute]: the steps still to run,
    the index of the next one, and the run so far. *)
Inductive loop_reaches :
  list SagaStep -> nat -> Run -> list SagaStep -> nat -> Run -> Prop :=
| reaches_here pending i s : loop_reaches pending i s pending i s
| reaches_next step rest i s s' pending' j t :
    loop_body i step s = inl s' ->
    loop_reaches rest (S i) s' pending' j t ->
    loop_reaches (step :: rest) i s pending' j t.

(** The names of the steps whose compensation was awaited. *)
Definition compensations (tr : list Trace) : list string :=
  omap (fun ev => match ev with saga_compensate n => Some n | _ => None end) tr.

Definition has_compensate (step : SagaStep) : bool :=
  match compensate step with Some _ => true | None => false end.

(** The names of the steps of [completed] that have a compensation, last
    completed first. *)
Definition to_compensate (completed : list SagaStep) : list string :=
  map name (List.filter has_compensate (rev completed)).

(** The records of a step that runs and returns. *)
Definition step_events (step : SagaStep) : list Trace :=
  [saga_step_start (name step); saga_step_complete (name step)].

(** One step object, whatever its [result] is. *)
Definition same_step (a b : SagaStep) : Prop :=
  name a = name b /\ execute a = execute b /\ compensate a = compensate b.

(** What holds of a run [t] of the loop that is about to take the step at
    index [i], the run having started from [s0]. *)
Definition loop_inv (s0 : Run) (pending : list SagaStep) (i : nat) (t : Run) : Prop :=
  exists done_,
    steps (context t) = done_ ++ pending /\
    length done_ = i /\
    completed_steps (context t) = done_ /\
    Forall2 same_step done_ (take i (steps (context s0))) /\
    pending = drop i (steps (context s0)) /\
    trace t = trace s0 ++ flat_map step_events (take i (steps (context s0))).

End Orchestrator.

End SagaBase.

(** ** The recipe-extraction saga *)

Module RecipeExtraction.

Section Saga.

(** [X]: what the four services act on.  [RecipeData]: the dict returned by
    the extraction, with its [.get("title")]. *)
Context {X RecipeData : Type}.

Inductive Any :=
| AStr (s : string)
| ARecipe (d : RecipeData).

Variable storage_upload_file : string -> string -> X -> Outcome string * X.
Variable storage_delete_file : string -> X -> Outcome unit * X.
Variable ai_extract_recipe : option string -> X -> Outcome RecipeData * X.
Variable recipe_save_family_recipe :
  string -> option Any -> option string -> string -> X -> Outcome string * X.
Variable recipe_soft_delete_recipe : string -> X -> Outcome unit * X.
Variable notification_send_recipe_confirmation :
  string -> option string -> option string -> X -> Outcome unit * X.
Variable notification_send_recipe_failure :
  string -> string -> X -> Outcome unit * X.
Variable get_title : RecipeData -> option string.

(** The services and the two [nonlocal] cells of [execute_extraction]. *)
Record Env := {
  services : X;
  image_url : option string;
  recipe_id : option string
}.

Definition with_services (x : X) (env : Env) : Env :=
  {| services := x; image_url := image_url env; recipe_id := recipe_id env |}.

Definition IndexError : Exn := PyExc "IndexError" "list index out of range".

Definition AttributeError : Exn :=
  PyExc "AttributeError" "object has no attribute 'get'".

Section Closures.

Variables (image_data household_id member_id correlation_id saga_id : string).

Definition upload_image (_ : list (option Any)) (env : Env)
  : Outcome (option Any) * Env :=
  match storage_upload_file image_data
          ("recipes/" +:+ household_id +:+ "/" +:+ saga_id +:+ ".jpg")
          (services env) with
  | (Return url, x) =>
      (Return (Some (AStr url)),
       {| services := x; image_url := Some url; recipe_id := recipe_id env |})
  | (Raise e, x) => (Raise e, with_services x env)
  end.

Definition delete_image (env : Env) : Outcome unit * Env :=
  match image_url env with
  | Some (String a u) =>
      match storage_delete_file (String a u) (services env) with
      | (Return _, x) => (Return tt, with_services x env)
      | (Raise e, x) => (Raise e, with_services x env)
      end
  | _ => (Return tt, env)
  end.

Definition extract_recipe (_ : list (option Any)) (env : Env)
  : Outcome (option Any) * Env :=
  match ai_extract_recipe (image_url env) (services env) with
  | (Return extraction_result, x) =>
      (Return (Some (ARecipe extraction_result)), with_services x env)
  | (Raise e, x) => (Raise e, with_services x env)
  end.

Definition save_recipe (completed : list (option Any)) (env : Env)
  : Outcome (option Any) * Env :=
  match completed !! 1%nat with
  | None => (Raise IndexError, env)
  | Some recipe_data =>
      match recipe_save_family_recipe household_id recipe_data
              (image_url env) member_id (services env) with
      | (Return rid, x) =>
          (Return (Some (AStr rid)),
           {| services := x; image_url := image_url env; recipe_id := Some rid |})
      | (Raise e, x) => (Raise e, with_services x env)
      end
  end.

Definition delete_recipe (env : Env) : Outcome unit * Env :=
  match recipe_id env with
  | Some (String a r) =>
      match recipe_soft_delete_recipe (String a r) (services env) with
      | (Return _, x) => (Return tt, with_services x env)
      | (Raise e, x) => (Raise e, with_services x env)
      end
  | _ => (Return tt, env)
  end.

Definition notify_success (completed : list (option Any)) (env : Env)
  : Outcome (option Any) * Env :=
  match completed !! 1%nat with
  | None => (Raise IndexError, env)
  | Some (Some (ARecipe recipe_data)) =>
      match notification_send_recipe_confirmation member_id
              (get_title recipe_data) (recipe_id env) (services env) with
      | (Return _, x) => (Return None, with_services x env)
      | (Raise e, x) => (Raise e, with_services x env)
      end
  | Some _ => (Raise AttributeError, env)
  end.

Definition saga_steps : list (@SagaBase.SagaStep Env Any) :=
  [ {| SagaBase.name := "upload_image";
       SagaBase.execute := upload_image;
       SagaBase.compensate := Some delete_image;
       SagaBase.result := None |};
    {| SagaBase.name := "extract_recipe";
       SagaBase.execute := extract_recipe;
       SagaBase.compensate := None;
       SagaBase.result := None |};
    {| SagaBase.name := "save_recipe";
       SagaBase.execute := save_recipe;
       SagaBase.compensate := Some delete_recipe;
       SagaBase.result := None |};
    {| SagaBase.name := "notify_user";
       SagaBase.execute := notify_success;
       SagaBase.compensate := None;
       SagaBase.result := None |} ].

Inductive ResultDict :=
| Succeeded (recipe_id image_url : option string) (saga_id : string)
| NotSucceeded (error : string) (saga_id : string).

Definition success (d : ResultDict) : bool :=
  match d with Succeeded _ _ _ => true | NotSucceeded _ _ => false end.

(** The context of [execute_extraction] once the four steps are appended,
    and the run handed to the orchestrator. *)
Definition extraction_context : @SagaBase.SagaContext Env Any :=
  {| SagaBase.saga_id := saga_id;
     SagaBase.steps := saga_steps;
     SagaBase.completed_steps := [];
     SagaBase.failed := false;
     SagaBase.error := None |}.

Definition extraction_run (x : X) : @SagaBase.Run Env Any :=
  {| SagaBase.context := extraction_context;
     SagaBase.world := {| services := x; image_url := None; recipe_id := None |};
     SagaBase.trace := [] |}.

(** [RecipeExtractionSaga.execute_extraction]; [saga_id] is the value of
    [str(uuid.uuid4())].  Its handler starts with
    [logger.error("recipe_extraction_failed", correlation_id=...)], which
    raises: the failure notice and the [return] after it are not reached. *)
Definition execute_extraction (x : X) : Outcome ResultDict * X :=
  match SagaBase.execute_saga (extraction_run x) with
  | (Return _, s) =>
      let env := SagaBase.world s in
      (Return (Succeeded (recipe_id env) (image_url env) saga_id), services env)
  | (Raise e, s) =>
      let env := SagaBase.world s in
      match logger_error "correlation_id" with
      | Raise err => (Raise err, services env)
      | Return _ =>
          match notification_send_recipe_failure member_id "extraction_failed"
                  (services env) with
          | (Return _, x') => (Return (NotSucceeded (str e) saga_id), x')
          | (Raise e', x') => (Raise e', x')
          end
      end
  end.

End Closures.

End Saga.

End RecipeExtraction.

(** ** The rate-limited AI service *)

Module RateLimited.

Section Service.

(** [X]: what the AI client acts on.  [Recipe]: what [json.loads] makes of
    the answer, a dict or any other JSON value.

    The source closes the list opened by [messages=[{] in
    [_execute_extraction] with [})], which Python refuses; the module is
    read with [}])] there. *)
Context {X Recipe : Type}.

(** What [asyncio.wait_for(client.messages.create(...), timeout=30)]
    comes back with. *)
Inductive Reply :=
| Response (text : string)
| TimedOut
| Refused (e : Exn).

Variable messages_create : string -> X -> Reply * X.
Variable json_loads : string -> Outcome Recipe.

(** Whether a value is a dict, which has the [.get] that [extract_recipe]
    calls on its result. *)
Variable is_dict : Recipe -> bool.

Record Metrics := {
  total_requests : Z;
  successful : Z;
  failed : Z;
  rate_limited : Z;
  queued : Z
}.

Record Service := {
  max_concurrent : Z;
  max_retries : Z;
  semaphore : Z;                        (* the free slots *)
  retry_counts : gmap string Z;
  metrics : Metrics;
  client : X
}.

Definition with_metrics (f : Metrics -> Metrics) (s : Service) : Service :=
  {| max_concurrent := max_concurrent s; max_retries := max_retries s;
     semaphore := semaphore s; retry_counts := retry_counts s;
     metrics := f (metrics s); client := client s |}.

Definition with_semaphore (v : Z) (s : Service) : Service :=
  {| max_concurrent := max_concurrent s; max_retries := max_retries s;
     semaphore := v; retry_counts := retry_counts s;
     metrics := metrics s; client := client s |}.

Definition with_client (x : X) (s : Service) : Service :=
  {| max_concurrent := max_concurrent s; max_retries := max_retries s;
     semaphore := semaphore s; retry_counts := retry_counts s;
     metrics := metrics s; client := x |}.

Definition set_retry_count (household_id : string) (n : Z) (s : Service) : Service :=
  {| max_concurrent := max_concurrent s; max_retries := max_retries s;
     semaphore := semaphore s;
     retry_counts := <[household_id := n]> (retry_counts s);
     metrics := metrics s; client := client s |}.

Definition incr_queued (m : Metrics) : Metrics :=
  {| total_requests := total_requests m; successful := successful m;
     failed := failed m; rate_limited := rate_limited m;
     queued := queued m + 1 |}.

Definition incr_total_requests (m : Metrics) : Metrics :=
  {| total_requests := total_requests m + 1; successful := successful m;
     failed := failed m; rate_limited := rate_limited m;
     queued := queued m |}.

Definition incr_successful (m : Metrics) : Metrics :=
  {| total_requests := total_requests m; successful := successful m + 1;
     failed := failed m; rate_limited := rate_limited m;
     queued := queued m |}.

Definition incr_failed (m : Metrics) : Metrics :=
  {| total_requests := total_requests m; successful := successful m;
     failed := failed m + 1; rate_limited := rate_limited m;
     queued := queued m |}.

(** The error of [raise Exception(f"Maximum ...")], which the
    [logger.warning] before it keeps from being reached. *)
Definition Exhausted (max_retries : Z) : Exn :=
  PyExc "Exception"
        ("Maximum " +:+ pretty max_retries +:+ " extraction attempts reached").

Definition AITimeout : Exn :=
  PyExc "Exception" "AI request timed out after 30 seconds".

(** [result.get("confidence")] on a result that is no dict. *)
Definition AttributeError : Exn :=
  PyExc "AttributeError" "object has no attribute 'get'".

(** [RateLimitedAIService._execute_extraction]: each of its two handlers
    starts with a [logger.error] that raises. *)
Definition _execute_extraction (image_url correlation_id : string)
           (x : X) : Outcome Recipe * X :=
  match messages_create image_url x with
  | (Response content, x') =>
      match json_loads content with
      | Return recipe_data => (Return recipe_data, x')
      | Raise e =>
          match logger_error "correlation_id" with
          | Raise err => (Raise err, x')
          | Return _ => (Raise e, x')
          end
      end
  | (TimedOut, x') =>
      match logger_error "correlation_id" with
      | Raise err => (Raise err, x')
      | Return _ => (Raise AITimeout, x')
      end
  | (Refused e, x') =>
      match logger_error "correlation_id" with
      | Raise err => (Raise err, x')
      | Return _ => (Raise e, x')
      end
  end.

(** [RateLimitedAIService.extract_recipe], run with no other task in
    flight.  [None]: the call is suspended at [async with self.semaphore],
    there being no free slot.

    The keyword fields of [logger.info("ai_request_success", ...,
    confidence=result.get("confidence"))] are computed inside the [try],
    after the success is counted: on a result that is no dict the
    [AttributeError] takes the call to the [except] branch. *)
Definition extract_recipe (image_url household_id correlation_id : string)
           (priority : Z) (s : Service) : option (Outcome Recipe) * Service :=
  let retry_count := default 0 (retry_counts s !! household_id) in
  if bool_decide (max_retries s <= retry_count) then
    match logger_warning "correlation_id" with
    | Raise err => (Some (Raise err), s)
    | Return _ => (Some (Raise (Exhausted (max_retries s))), s)
    end
  else
    let s := with_metrics incr_queued s in
    if bool_decide (0 < semaphore s) then
      let s := with_semaphore (semaphore s - 1) s in
      let s := with_metrics incr_total_requests s in
      let except (e : Exn) (s : Service) :=
        let s := set_retry_count household_id (retry_count + 1) s in
        let s := with_metrics incr_failed s in
        match logger_error "correlation_id" with
        | Raise err => (Some (Raise err), with_semaphore (semaphore s + 1) s)
        | Return _ => (Some (Raise e), with_semaphore (semaphore s + 1) s)
        end in
      match _execute_extraction image_url correlation_id (client s) with
      | (Return result, x) =>
          let s := with_client x s in
          let s := set_retry_count household_id 0 s in
          let s := with_metrics incr_successful s in
          if is_dict result
          then (Some (Return result), with_semaphore (semaphore s + 1) s)
          else except AttributeError s
      | (Raise e, x) => except e (with_client x s)
      end
    else (None, s).

Definition retry_count (household_id : string) (s : Service) : Z :=
  default 0 (retry_counts s !! household_id).

(** The arguments of one call of [extract_recipe]. *)
Record Request := {
  req_image_url : string;
  req_household_id : string;
  req_correlation_id : string;
  req_priority : Z
}.

(** Calls of [extract_recipe] awaited one after the other by one caller,
    with the outcomes of those that came back: a call that is suspended at
    the semaphore never does, there being no other task to free a slot. *)
Fixpoint serve (requests : list Request) (s : Service)
  : list (Outcome Recipe) * Service :=
  match requests with
  | [] => ([], s)
  | r :: rest =>
      match extract_recipe (req_image_url r) (req_household_id r)
                           (req_correlation_id r) (req_priority r) s with
      | (Some o, s') => let '(os, s'') := serve rest s' in (o :: os, s'')
      | (None, s') => ([], s')
      end
  end.

(** How many of the outcomes are results. *)
Definition returned (os : list (Outcome Recipe)) : Z :=
  Z.of_nat (length (List.filter (fun o => match o with Return _ => true
                                                 | Raise _ => false end) os)).

End Service.

End RateLimited.

(** ** The batch SMS sender *)

Module BatchSender.

Record SMSMessage := {
  to : string;
  body : string;
  from_number : option string;
  media_url : option string;
  correlation_id : option string
}.

Record Stats := { sent : Z; failed_count : Z; retried : Z }.

(** What one [_send_with_retry] does, in order: its calls of the logger
    and its sleeps. *)
Inductive SendEvent :=
| sms_sent (attempt : Z)
| sms_send_failed (attempt : Z) (error : string)
| backoff (seconds : Z)
| sms_send_exhausted (attempts : Z) (error : string).

(** What [send_batch] does, in order: a window handed to
    [asyncio.gather], and the sleep between two windows. *)
Inductive BatchEvent :=
| window (sends : list (SMSMessage * list SendEvent))
| rate_limit_sleep (seconds : Z).

Record Results := {
  success : list (string * string);     (* to, message_id *)
  failed : list (string * string)       (* to, error *)
}.

(** [raise last_error] with [last_error] still [None]. *)
Definition RaiseNone : Exn :=
  PyExc "TypeError" "exceptions must derive from BaseException".

(** What is raised when the attempts are used up, and its text in the
    log. *)
Definition exhausted_with (last_error : option Exn) : Exn * string :=
  match last_error with
  | Some e => (e, str e)
  | None => (RaiseNone, "None")
  end.

(** The entries that the outcomes of a window add to [success] and to
    [failed]. *)
Definition successes (outs : list (SMSMessage * Outcome string * list SendEvent))
  : list (string * string) :=
  omap (fun p => match p.1.2 with
                 | Return message_id => Some (to p.1.1, message_id)
                 | Raise _ => None
                 end) outs.

Definition failures (outs : list (SMSMessage * Outcome string * list SendEvent))
  : list (string * string) :=
  omap (fun p => match p.1.2 with
                 | Return _ => None
                 | Raise e => Some (to p.1.1, str e)
                 end) outs.

Section Sender.

Context {X : Type}.

Variable send_message :
  string -> string -> option string -> X -> Outcome string * X.
Variable send_media_message :
  string -> string -> string -> option string -> X -> Outcome string * X.

Record Sender := {
  rate_limit : Z;
  retry_attempts : Z;
  queue : list SMSMessage;
  stats : Stats
}.

Definition with_queue (q : list SMSMessage) (s : Sender) : Sender :=
  {| rate_limit := rate_limit s; retry_attempts := retry_attempts s;
     queue := q; stats := stats s |}.

Definition with_stats (st : Stats) (s : Sender) : Sender :=
  {| rate_limit := rate_limit s; retry_attempts := retry_attempts s;
     queue := queue s; stats := st |}.

Definition incr_sent (st : Stats) : Stats :=
  {| sent := sent st + 1; failed_count := failed_count st; retried := retried st |}.

Definition incr_failed (st : Stats) : Stats :=
  {| sent := sent st; failed_count := failed_count st + 1; retried := retried st |}.

Definition incr_retried (st : Stats) : Stats :=
  {| sent := sent st; failed_count := failed_count st; retried := retried st + 1 |}.

(** The send of one attempt: [if message.media_url:] picks the call. *)
Definition provider_send (message : SMSMessage) (x : X) : Outcome string * X :=
  match media_url message with
  | Some (String a u) =>
      send_media_message (to message) (body message) (String a u)
                         (from_number message) x
  | _ => send_message (to message) (body message) (from_number message) x
  end.

(** The [for attempt in range(self.retry_attempts)] loop of
    [_send_with_retry], with [n] attempts left, and what follows it.

    The handler of a failed attempt calls [logger.warning], which raises:
    the [TypeError] leaves the loop and the function, before the backoff
    and the next attempt.  After the loop, [logger.error] raises before
    [raise last_error]. *)
Fixpoint attempts (n : nat) (attempt : Z) (retry_attempts : Z)
         (message : SMSMessage) (last_error : option Exn)
         (st : Stats) (x : X) (tr : list SendEvent)
  : Outcome string * Stats * X * list SendEvent :=
  match n with
  | O =>
      let tr := tr ++ [sms_send_exhausted retry_attempts
                                          (exhausted_with last_error).2] in
      match logger_error "correlation_id" with
      | Raise err => (Raise err, st, x, tr)
      | Return _ => (Raise (exhausted_with last_error).1, st, x, tr)
      end
  | S n' =>
      match provider_send message x with
      | (Return message_id, x') =>
          (Return message_id,
           (if bool_decide (0 < attempt) then incr_retried st else st),
           x', tr ++ [sms_sent (attempt + 1)])
      | (Raise e, x') =>
          let tr := tr ++ [sms_send_failed (attempt + 1) (str e)] in
          match logger_warning "correlation_id" with
          | Raise err => (Raise err, st, x', tr)
          | Return _ =>
              let tr := if bool_decide (attempt < retry_attempts - 1)
                        then tr ++ [backoff (2 ^ attempt)] else tr in
              attempts n' (attempt + 1) retry_attempts message (Some e) st x' tr
          end
      end
  end.

(** [BatchSMSSender._send_with_retry] *)
Definition _send_with_retry (message : SMSMessage) (s : Sender) (x : X)
  : Outcome string * Sender * X * list SendEvent :=
  let '(o, st, x, tr) :=
    attempts (Z.to_nat (retry_attempts s)) 0 (retry_attempts s) message None
             (stats s) x [] in
  (o, with_stats st s, x, tr).

(** [asyncio.gather( *[...], return_exceptions=True)]: one outcome for each
    message of the window, in the order of the window. *)
Fixpoint gather (batch : list SMSMessage) (s : Sender) (x : X)
  : list (SMSMessage * Outcome string * list SendEvent) * Sender * X :=
  match batch with
  | [] => ([], s, x)
  | msg :: rest =>
      let '(o, s, x, tr) := _send_with_retry msg s x in
      let '(os, s, x) := gather rest s x in
      ((msg, o, tr) :: os, s, x)
  end.

(** The loop over [zip(batch, batch_results)]. *)
Fixpoint collect (pairs : list (SMSMessage * Outcome string * list SendEvent))
         (results : Results) (st : Stats) : Results * Stats :=
  match pairs with
  | [] => (results, st)
  | (msg, Raise e, _) :: rest =>
      collect rest
        {| success := success results;
           failed := failed results ++ [(to msg, str e)] |}
        (incr_failed st)
  | (msg, Return message_id, _) :: rest =>
      collect rest
        {| success := success results ++ [(to msg, message_id)];
           failed := failed results |}
        (incr_sent st)
  end.

(** One turn of the [while not self.queue.empty()] loop of [send_batch]. *)
Definition turn (s : Sender) (x : X) (results : Results)
           (tr : list BatchEvent) : Results * Sender * X * list BatchEvent :=
  let n := Z.to_nat (rate_limit s) in
  let batch := take n (queue s) in
  let s := with_queue (drop n (queue s)) s in
  let '(outs, s, x) := gather batch s x in
  let '(results, st) := collect outs results (stats s) in
  let s := with_stats st s in
  let tr := tr ++ [window (map (fun p => (p.1.1, p.2)) outs)] in
  let tr := match queue s with
            | [] => tr
            | _ :: _ => tr ++ [rate_limit_sleep 1]
            end in
  (results, s, x, tr).

(** The loop; [fuel] bounds the number of turns. *)
Fixpoint drain (fuel : nat) (s : Sender) (x : X) (results : Results)
         (tr : list BatchEvent)
  : option (Results * Sender * X * list BatchEvent) :=
  match fuel with
  | O => None
  | S fuel =>
      match queue s with
      | [] => Some (results, s, x, tr)
      | _ :: _ =>
          let '(results, s, x, tr) := turn s x results tr in
          drain fuel s x results tr
      end
  end.

(** [BatchSMSSender.send_batch] *)
Definition send_batch (fuel : nat) (messages : list SMSMessage)
           (s : Sender) (x : X)
  : option (Results * Sender * X * list BatchEvent) :=
  drain fuel (with_queue (queue s ++ messages) s) x
        {| success := []; failed := [] |} [].

(** What the accounting of a batch is measured against: the provider asked
    once for each message, in the order of the batch, with the media call
    for a message that has a media url and the text call for the others. *)
Fixpoint asked_once (messages : list SMSMessage) (x : X)
  : list (SMSMessage * Outcome string) * X :=
  match messages with
  | [] => ([], x)
  | m :: rest =>
      let '(o, x) :=
        match media_url m with
        | Some (String a u) =>
            send_media_message (to m) (body m) (String a u) (from_number m) x
        | _ => send_message (to m) (body m) (from_number m) x
        end in
      let '(os, x) := asked_once rest x in
      ((m, o) :: os, x)
  end.

End Sender.

(** The results that list each message asked for once: with its message
    id, or with the text of the [TypeError] of the logger. *)
Definition reported (asked : list (SMSMessage * Outcome string)) : Results :=
  {| success :=
       omap (fun q => match q.2 with
                      | Return message_id => Some (to q.1, message_id)
                      | Raise _ => None
                      end) asked;
     failed :=
       omap (fun q => match q.2 with
                      | Return _ => None
                      | Raise _ =>
                          Some (to q.1, str (LoggerTypeError "correlation_id"))
                      end) asked |}.

(** *** Windows and the clock *)

Definition windows (tr : list BatchEvent) : list (list SMSMessage) :=
  omap (fun ev => match ev with
                  | window sends => Some (map fst sends)
                  | rate_limit_sleep _ => None
                  end) tr.

(** The instants at which the windows of [tr] start, on a clock that reads
    [now] when [tr] starts: the [i]-th event takes [took i] more than its
    sleep, whatever [took] is. *)
Fixpoint window_starts (took : nat -> nat) (i : nat) (now : Z)
         (tr : list BatchEvent) : list Z :=
  match tr with
  | [] => []
  | window _ :: rest =>
      now :: window_starts took (S i) (now + Z.of_nat (took i)) rest
  | rate_limit_sleep seconds :: rest =>
      window_starts took (S i) (now + seconds + Z.of_nat (took i)) rest
  end.

(** The windows of a queue drained [n] at a time. *)
Inductive chunked {A : Type} (n : nat) : list A -> list (list A) -> Prop :=
| chunked_nil : chunked n [] []
| chunked_cons q cs :
    q <> [] -> chunked n (drop n q) cs -> chunked n q (take n q :: cs).

(** Windows with a sleep of one second between each two of them. *)
Inductive paced : list BatchEvent -> Prop :=
| paced_nil : paced []
| paced_last sends : paced [window sends]
| paced_more sends rest :
    rest <> [] -> paced rest ->
    paced (window sends :: rate_limit_sleep 1 :: rest).

(** Every two windows in a row start at least [gap] apart. *)
Fixpoint spaced (gap : Z) (starts : list Z) : Prop :=
  match starts with
  | a :: ((b :: _) as rest) => a + gap <= b /\ spaced gap rest
  | _ => True
  end.

(** The seconds that one send spends in [asyncio.sleep] between its
    attempts. *)
Fixpoint slept (t : list SendEvent) : Z :=
  match t with
  | [] => 0
  | backoff seconds :: rest => seconds + slept rest
  | _ :: rest => slept rest
  end.

End BatchSender.

(** ** The scheduler of the weekly planning messages *)

Module SMSScheduler.

Import BatchSender.

(** The dicts of the households and of their members, with the keys that
    the scheduler reads; [household_id] is the text of [household['id']]
    in the f-string. *)
Record Member := {
  phone_number : string;
  receives_group_messages : bool
}.

Record Household := {
  household_id : string;
  household_name : string;
  members : list Member
}.

Definition quote : string := String (Ascii.ascii_of_nat 34) "".

(** [SMSScheduler._generate_planning_message]; the text is in UTF-8. *)
Definition _generate_planning_message (household : Household) : string :=
  "Good morning " +:+ household_name household +:+ " family! ðŸŒž

Time to plan meals for the week. What sounds good?

Reply with meal ideas or " +:+ quote +:+ "SUGGEST" +:+ quote
  +:+ " for AI recommendations.

Reply STOP to opt out.".

(** The messages that the two inner loops build for a batch of
    households. *)
Definition planning_messages (batch : list Household) : list SMSMessage :=
  flat_map
    (fun household =>
       map (fun member =>
              {| to := phone_number member;
                 body := _generate_planning_message household;
                 from_number := None;
                 media_url := None;
                 correlation_id := Some ("weekly_" +:+ household_id household) |})
           (List.filter receives_group_messages (members household)))
    batch.

(** What the scheduler does, in order: a batch handed to [send_batch],
    with what that call did, and the sleep between two batches. *)
Inductive ScheduleEvent :=
| batch_sent (messages : list SMSMessage) (sends : list BatchEvent)
| minute_sleep (seconds : Z).

Definition batch_size : nat := 100.

Section Scheduler.

Context {X : Type}.

Variable send_message :
  string -> string -> option string -> X -> Outcome string * X.
Variable send_media_message :
  string -> string -> string -> option string -> X -> Outcome string * X.

(** The loop [for i in range(0, total, batch_size)] with [turns] values of
    [i] left, the next being [i]; [fuel] bounds the turns of each
    [send_batch]. *)
Fixpoint schedule_loop (fuel : nat) (turns : nat) (i : nat)
         (households : list Household) (s : Sender) (x : X)
         (tr : list ScheduleEvent)
  : option (Sender * X * list ScheduleEvent) :=
  match turns with
  | O => Some (s, x, tr)
  | S turns =>
      let batch := take batch_size (drop i households) in
      let messages := planning_messages batch in
      match send_batch send_message send_media_message fuel messages s x with
      | None => None
      | Some (_, s, x, sends) =>
          let tr := tr ++ [batch_sent messages sends] in
          let tr := if bool_decide (i + batch_size < length households)%nat
                    then tr ++ [minute_sleep 60] else tr in
          schedule_loop fuel turns (i + batch_size) households s x tr
      end
  end.

(** [SMSScheduler.schedule_weekly_planning_messages]; [range(0, total,
    batch_size)] has [ceil(total / batch_size)] values. *)
Definition schedule_weekly_planning_messages (fuel : nat)
           (households : list Household) (s : Sender) (x : X)
  : option (Sender * X * list ScheduleEvent) :=
  schedule_loop fuel ((length households + (batch_size - 1)) / batch_size)%nat
                0 households s x [].

End Scheduler.

(** The batches handed to [send_batch], in order. *)
Definition sent_batches (tr : list ScheduleEvent) : list (list SMSMessage) :=
  omap (fun ev => match ev with
                  | batch_sent messages _ => Some messages
                  | minute_sleep _ => None
                  end) tr.

(** Batches with a sleep of 60 seconds between each two of them, and none
    after the last. *)
Inductive minute_paced : list ScheduleEvent -> Prop :=
| minute_paced_nil : minute_paced []
| minute_paced_last messages sends : minute_paced [batch_sent messages sends]
| minute_paced_more messages sends rest :
    rest <> [] -> minute_paced rest ->
    minute_paced (batch_sent messages sends :: minute_sleep 60 :: rest).

End SMSScheduler.

(** ** Crisis detection and the inbound-message pipeline *)

Module Conversation.

Inductive CrisisEventType := SUICIDE | SELF_HARM | VIOLENCE | ABUSE | OTHER.

(** A detected event.  [confidence] is in hundredths: 90 for [0.9]. *)
Record DetectedEvent := {
  type : CrisisEventType;
  keywords : list string;
  confidence : Z
}.

(** The dict returned by [detect_crisis]. *)
Inductive CrisisResult :=
| NotDetected
| Detected (event_type : CrisisEventType) (keywords : list string)
           (confidence : Z) (all_events : list DetectedEvent).

(** [crisis_result.get("detected")] *)
Definition detected (r : CrisisResult) : bool :=
  match r with NotDetected => false | Detected _ _ _ _ => true end.

Definition SUICIDE_KEYWORDS : list string :=
  [ "\bsuicide\b"; "\bkill myself\b"; "\bend (my|it all)\b";
    "\bwant to die\b"; "\bdon'?t want to live\b"; "\bnot worth living\b";
    "\bbetter off dead\b"; "\bsuicidal\b"; "\bending (it|my life)\b" ].

Definition SELF_HARM_KEYWORDS : list string :=
  [ "\bcut(ting)? myself\b"; "\bhurt(ing)? myself\b"; "\bself[- ]harm\b";
    "\bbur(n|ning) myself\b"; "\bpunish myself\b" ].

Definition VIOLENCE_KEYWORDS : list string :=
  [ "\bhurt (someone|others|people)\b"; "\bkill (someone|others|people|them)\b";
    "\bshoot (someone|others|people|them|up)\b";
    "\battack (someone|others|people)\b"; "\bviolent thoughts\b" ].

Definition ABUSE_KEYWORDS : list string :=
  [ "\babusing me\b"; "\bhitting me\b"; "\bhurting me\b"; "\bafraid of\b";
    "\bdom(estic)? violence\b" ].

Section Crisis.

(** Python's [re.search(pattern, text, re.IGNORECASE)], giving
    [match.group(0)], and [str.lower]. *)
Variable re_search : string -> string -> option string.
Variable lower : string -> string.

Definition _check_keywords (text : string) (keywords : list string) : bool :=
  existsb (fun pattern => bool_decide (is_Some (re_search pattern text))) keywords.

Definition _extract_matches (text : string) (keywords : list string) : list string :=
  omap (fun pattern => re_search pattern text) keywords.

(** [max(detected_events, key=lambda x: x["confidence"])]: the first of the
    events of greatest confidence. *)
Definition max_confidence (first : DetectedEvent)
           (others : list DetectedEvent) : DetectedEvent :=
  foldl (fun best ev =>
           if bool_decide (confidence best < confidence ev) then ev else best)
        first others.

Definition check_category (message_lower : string) (t : CrisisEventType)
           (patterns : list string) (c : Z) : list DetectedEvent :=
  if _check_keywords message_lower patterns
  then [ {| type := t;
            keywords := _extract_matches message_lower patterns;
            confidence := c |} ]
  else [].

(** [CrisisDetectionService.detect_crisis] *)
Definition detect_crisis (message : string) : CrisisResult :=
  let message_lower := lower message in
  let detected_events :=
    check_category message_lower SUICIDE SUICIDE_KEYWORDS 90 ++
    check_category message_lower SELF_HARM SELF_HARM_KEYWORDS 80 ++
    check_category message_lower VIOLENCE VIOLENCE_KEYWORDS 85 ++
    check_category message_lower ABUSE ABUSE_KEYWORDS 75 in
  match detected_events with
  | first :: others =>
      let primary_event := max_confidence first others in
      Detected (type primary_event) (keywords primary_event)
               (confidence primary_event) detected_events
  | [] => NotDetected
  end.

End Crisis.

Record User := { user_id : Z; opted_out : bool }.

Record ConversationRow := { conversation_id : Z }.

Inductive MessageRole := USER | ASSISTANT.
Inductive MessageDirection := INBOUND | OUTBOUND.

Record AIResponse := {
  content : string;
  model : option string;
  tokens_used : option Z;
  latency_ms : option Z
}.

(** The awaited calls on the collaborators, with what they are called on. *)
Inductive Call :=
| get_or_create_user (from_number : string)
| opt_out_user (user_id : Z)
| send_message (to_number : string) (message : string)
| select_active_conversation (user_id : Z)
| add_conversation (user_id : Z)
| check_disclosure_needed (user_id conversation_id : Z)
| log_crisis_event (user_id conversation_id : Z) (event_type : CrisisEventType)
                   (keywords : list string) (confidence : Z)
                   (hotline_provided : bool)
| add_message (conversation_id user_id : Z) (content : string)
              (role : MessageRole) (direction : MessageDirection)
              (sms_message_id : option string) (crisis_detected : bool)
| select_recent_messages (conversation_id : Z) (limit : Z)
| generate_response (messages : list (string * string)) (system_prompt : string)
| record_disclosure (user_id conversation_id : Z)
| update_last_message_time (user_id : Z)
| commit
| rollback.

(** The dict returned by [process_inbound_message]. *)
Inductive Status :=
| ignored (reason : string)
| opted_out_status
| success_status (user_id conversation_id : Z) (response_sent : bool).

(** The collaborators of the pipeline, acting on [X] (the database
    session, the SMS provider, the LLM provider), and the functions of
    Python's [re] and [str] that it uses. *)
Record Services {X : Type} := {
  re_search : string -> string -> option string;
  lower : string -> string;
  (** [message_body.strip().upper()] *)
  strip_upper : string -> string;
  user_service_get_or_create_user : string -> X -> Outcome (User * bool) * X;
  user_service_opt_out_user : User -> X -> Outcome unit * X;
  user_service_update_last_message_time : User -> X -> Outcome unit * X;
  user_service_get_decrypted_first_name : User -> option string;
  sms_send_message : string -> string -> X -> Outcome unit * X;
  db_select_active_conversation : Z -> X -> Outcome (option ConversationRow) * X;
  db_add_conversation : Z -> X -> Outcome ConversationRow * X;
  db_add_message :
    Z -> Z -> string -> MessageRole -> MessageDirection -> option string ->
    bool -> X -> Outcome unit * X;
  db_select_recent_messages : Z -> Z -> X -> Outcome (list (string * string)) * X;
  db_commit : X -> Outcome unit * X;
  db_rollback : X -> Outcome unit * X;
  compliance_check_disclosure_needed : Z -> Z -> X -> Outcome bool * X;
  compliance_record_disclosure : Z -> Z -> X -> Outcome unit * X;
  compliance_initial_disclosure : string;
  compliance_periodic_disclosure : string;
  crisis_log_crisis_event :
    Z -> Z -> CrisisEventType -> list string -> Z -> bool -> X ->
    Outcome unit * X;
  (** [self.crisis.get_crisis_response()]: the hotline message. *)
  crisis_response : string;
  llm_generate_response :
    list (string * string) -> string -> X -> Outcome AIResponse * X;
  _build_system_prompt : option string -> string
}.
Arguments Services X : clear implicits.

Section Pipeline.

Context {X : Type}.
Variable self : Services X.

(** Computations that await collaborators: they act on [X], record the
    calls, and may raise. *)
Definition M (A : Type) : Type := X -> list Call -> Outcome A * X * list Call.

Definition ret {A} (a : A) : M A := fun x tr => (Return a, x, tr).

Definition bind {A B} (m : M A) (k : A -> M B) : M B :=
  fun x tr =>
    match m x tr with
    | (Return a, x', tr') => k a x' tr'
    | (Raise e, x', tr') => (Raise e, x', tr')
    end.

Definition await {A} (c : Call) (f : X -> Outcome A * X) : M A :=
  fun x tr => let '(o, x') := f x in (o, x', tr ++ [c]).

Notation "'call' a <- m ; k" := (bind m (fun a => k))
  (at level 10, a name, m at level 100, k at level 200).
Notation "m ;; k" := (bind m (fun _ => k))
  (at level 100, k at level 200, right associativity).

Definition STOP_WORDS : list string :=
  ["STOP"; "UNSUBSCRIBE"; "CANCEL"; "END"; "QUIT"].

Definition is_stop (message_body : string) : bool :=
  bool_decide (strip_upper self message_body ∈ STOP_WORDS).

(** [ConversationService._get_or_create_conversation] *)
Definition _get_or_create_conversation (user_id : Z) : M ConversationRow :=
  call found <- await (select_active_conversation user_id)
                    (db_select_active_conversation self user_id);
  match found with
  | Some conversation => ret conversation
  | None => await (add_conversation user_id) (db_add_conversation self user_id)
  end.

(** [ConversationService._save_message] *)
Definition _save_message (conversation_id user_id : Z) (content : string)
           (role : MessageRole) (direction : MessageDirection)
           (sms_message_id : option string) (crisis_detected : bool) : M unit :=
  await (add_message conversation_id user_id content role direction
                     sms_message_id crisis_detected)
        (db_add_message self conversation_id user_id content role direction
                        sms_message_id crisis_detected).

(** [ConversationService._handle_crisis] *)
Definition _handle_crisis (user : User) (conversation : ConversationRow)
           (event_type : CrisisEventType) (keywords : list string)
           (confidence : Z) : M unit :=
  await (log_crisis_event (user_id user) (conversation_id conversation)
                          event_type keywords confidence true)
        (crisis_log_crisis_event self (user_id user) (conversation_id conversation)
                                 event_type keywords confidence true).

(** Steps 5 to 12 of [process_inbound_message]. *)
Definition from_crisis_detection (from_number message_body message_sid : string)
           (user : User) (is_new : bool) (conversation : ConversationRow)
           (disclosure_needed : bool) : M Status :=
  let crisis_result := detect_crisis (re_search self) (lower self) message_body in
  match crisis_result with
  | Detected event_type keywords confidence _ =>
      _handle_crisis user conversation event_type keywords confidence ;;
      await (send_message from_number (crisis_response self))
            (sms_send_message self from_number (crisis_response self))
  | NotDetected => ret tt
  end ;;
  _save_message (conversation_id conversation) (user_id user) message_body
                USER INBOUND (Some message_sid) (detected crisis_result) ;;
  call messages <- await (select_recent_messages (conversation_id conversation) 10)
                       (db_select_recent_messages self (conversation_id conversation) 10);
  let system_prompt :=
    _build_system_prompt self (user_service_get_decrypted_first_name self user) in
  call ai_response <- await (generate_response messages system_prompt)
                          (llm_generate_response self messages system_prompt);
  let response_text := content ai_response in
  call response_text <-
    (if disclosure_needed then
       let disclosure_text :=
         if is_new then (compliance_initial_disclosure self)
         else (compliance_periodic_disclosure self) in
       await (record_disclosure (user_id user) (conversation_id conversation))
             (compliance_record_disclosure self (user_id user)
                                           (conversation_id conversation)) ;;
       ret (disclosure_text +:+ "

" +:+ response_text)
     else ret response_text);
  await (send_message from_number response_text)
        (sms_send_message self from_number response_text) ;;
  _save_message (conversation_id conversation) (user_id user) response_text
                ASSISTANT OUTBOUND None false ;;
  await (update_last_message_time (user_id user))
        (user_service_update_last_message_time self user) ;;
  await commit (db_commit self) ;;
  ret (success_status (user_id user) (conversation_id conversation) true).

(** The body of the [try] of [process_inbound_message]. *)
Definition try_body (from_number message_body message_sid : string) : M Status :=
  call created <- await (get_or_create_user from_number)
                      (user_service_get_or_create_user self from_number);
  let '(user, is_new) := created in
  if opted_out user then ret (ignored "user_opted_out")
  else if is_stop message_body then
    await (opt_out_user (user_id user)) (user_service_opt_out_user self user) ;;
    await (send_message from_number
             "You've been unsubscribed from Jules. Reply START to resubscribe anytime.")
          (sms_send_message self from_number
             "You've been unsubscribed from Jules. Reply START to resubscribe anytime.") ;;
    ret opted_out_status
  else
    call conversation <- _get_or_create_conversation (user_id user);
    call disclosure_needed <-
      await (check_disclosure_needed (user_id user) (conversation_id conversation))
            (compliance_check_disclosure_needed self (user_id user)
                                                (conversation_id conversation));
    from_crisis_detection from_number message_body message_sid
                          user is_new conversation disclosure_needed.

(** [ConversationService.process_inbound_message] *)
Definition process_inbound_message (from_number message_body message_sid : string)
  : M Status :=
  fun x tr =>
    match try_body from_number message_body message_sid x tr with
    | (Return r, x', tr') => (Return r, x', tr')
    | (Raise e, x', tr') =>
        match await rollback (db_rollback self) x' tr' with
        | (Return _, x'', tr'') => (Raise e, x'', tr'')
        | (Raise e', x'', tr'') => (Raise e', x'', tr'')
        end
    end.

(** The message reaches crisis detection: the sender is known and has not
    opted out, the text is no STOP word, and the conversation and the
    disclosure check are there. *)
Definition reaches_crisis_detection (from_number message_body : string)
           (x : X) (user : User) (is_new : bool)
           (conversation : ConversationRow) (disclosure_needed : bool)
           (x' : X) (tr' : list Call) : Prop :=
  exists x1 tr1,
    await (get_or_create_user from_number)
          (user_service_get_or_create_user self from_number) x []
      = (Return (user, is_new), x1, tr1) /\
    opted_out user = false /\
    is_stop message_body = false /\
    (call conversation <- _get_or_create_conversation (user_id user);
     call disclosure_needed <-
       await (check_disclosure_needed (user_id user) (conversation_id conversation))
             (compliance_check_disclosure_needed self (user_id user)
                                                 (conversation_id conversation));
     ret (conversation, disclosure_needed)) x1 tr1
      = (Return (conversation, disclosure_needed), x', tr').


(** Computations that leave no rollback in the record of calls. *)
Definition no_rollback {A} (m : M A) : Prop :=
  forall x tr o x' tr',
    m x tr = (o, x', tr') -> rollback ∉ tr -> rollback ∉ tr'.

End Pipeline.

End Conversation.

(** ** Sample inputs *)

Module Samples.

(** An event whose payload is empty, coded by its id and type. *)
Definition sms_received : @Idempotency.Event unit :=
  {| Idempotency.event_id := "evt-1";
     Idempotency.event_type := "sms.received";
     Idempotency.data := tt;
     Idempotency.correlation_id := None |}.

(** The same id, sent again by a retry under another correlation id. *)
Definition sms_received_again : @Idempotency.Event unit :=
  {| Idempotency.event_id := "evt-1";
     Idempotency.event_type := "sms.received";
     Idempotency.data := tt;
     Idempotency.correlation_id := Some "retry-2" |}.

Definition event_json (e : @Idempotency.Event unit) : string :=
  Idempotency.event_id e +:+ " " +:+ Idempotency.event_type e.

(** [Event.json] on events whose data is [{}]. *)
Definition event_dumps (e : @Idempotency.Event unit) : Outcome string :=
  Return (event_json e).

(** An event whose data holds a [set] when the flag is up, which
    [json.dumps] refuses. *)
Definition not_serializable : Exn :=
  PyExc "TypeError" "Object of type set is not JSON serializable".

Definition event_with_set : @Idempotency.Event bool :=
  {| Idempotency.event_id := "evt-3";
     Idempotency.event_type := "recipe.extracted";
     Idempotency.data := true;
     Idempotency.correlation_id := None |}.

Definition flagged_dumps (e : @Idempotency.Event bool) : Outcome string :=
  if Idempotency.data e then Raise not_serializable
  else Return (Idempotency.event_id e +:+ " " +:+ Idempotency.event_type e).

Definition fresh_bus : Idempotency.Bus :=
  {| Idempotency.redis := ∅; Idempotency.ttl := 86400; Idempotency.log := [] |}.

(** A state dict that is [{}], [{"current_step": 1}] or
    [{"current_step": 2}], with its JSON text. *)
Inductive FlowState := NoStep | StepOne | StepTwo.

Definition dq : string := String (Ascii.ascii_of_nat 34) "".

Definition flow_dumps (v : FlowState) : string :=
  match v with
  | NoStep => "{}"
  | StepOne => "{" +:+ dq +:+ "current_step" +:+ dq +:+ ": 1}"
  | StepTwo => "{" +:+ dq +:+ "current_step" +:+ dq +:+ ": 2}"
  end.

Definition JSONDecodeError : Exn := PyExc "JSONDecodeError" "Expecting value".

Definition flow_loads (s : string) : Outcome FlowState :=
  if bool_decide (s = flow_dumps NoStep) then Return NoStep
  else if bool_decide (s = flow_dumps StepOne) then Return StepOne
  else if bool_decide (s = flow_dumps StepTwo) then Return StepTwo
  else Raise JSONDecodeError.

(** A durable store that holds nothing. *)
Definition no_rows (household_id : string) (member_id : option string)
           (d : unit) : Outcome (option FlowState) :=
  Return None.

Definition fresh_manager : @HybridState.Manager FlowState unit :=
  {| HybridState.redis := ∅; HybridState.db := tt; HybridState.ttl := 300;
     HybridState.background_tasks := []; HybridState.log := [] |}.

(** Two states that [json.dumps] writes as one text: the dict with the
    tuple [(1, 2)] under the key [steps], and the dict with the list
    [[1, 2]] there.  [json.loads] reads the text as the dict with the
    list; the two dicts are not equal. *)
Inductive StepsState := steps_tuple | steps_list.

Definition steps_dumps (v : StepsState) : string :=
  "{" +:+ dq +:+ "steps" +:+ dq +:+ ": [1, 2]}".

Definition steps_loads (s : string) : Outcome StepsState :=
  if bool_decide (s = steps_dumps steps_list) then Return steps_list
  else Raise JSONDecodeError.

Definition steps_no_rows (household_id : string) (member_id : option string)
           (d : unit) : Outcome (option StepsState) :=
  Return None.

Definition steps_manager : @HybridState.Manager StepsState unit :=
  {| HybridState.redis := ∅; HybridState.db := tt; HybridState.ttl := 300;
     HybridState.background_tasks := []; HybridState.log := [] |}.

(** A saga on a journal of effects.  The fourth step raises; the
    compensation of the third raises too; the second has none. *)
Definition notifier_down : Exn := PyExc "ConnectionError" "notifier down".
Definition store_down : Exn := PyExc "IOError" "store down".

Definition step_upload : @SagaBase.SagaStep (list string) string :=
  {| SagaBase.name := "upload_image";
     SagaBase.execute := fun _ w => (Return (Some "url"), w ++ ["upload"]);
     SagaBase.compensate := Some (fun w => (Return tt, w ++ ["delete image"]));
     SagaBase.result := None |}.

Definition step_extract : @SagaBase.SagaStep (list string) string :=
  {| SagaBase.name := "extract_recipe";
     SagaBase.execute := fun _ w => (Return (Some "recipe"), w ++ ["extract"]);
     SagaBase.compensate := None;
     SagaBase.result := None |}.

Definition step_save : @SagaBase.SagaStep (list string) string :=
  {| SagaBase.name := "save_recipe";
     SagaBase.execute := fun _ w => (Return (Some "id"), w ++ ["save"]);
     SagaBase.compensate :=
       Some (fun w => (Raise store_down, w ++ ["delete recipe"]));
     SagaBase.result := None |}.

Definition step_notify : @SagaBase.SagaStep (list string) string :=
  {| SagaBase.name := "notify_user";
     SagaBase.execute := fun _ w => (Raise notifier_down, w ++ ["notify"]);
     SagaBase.compensate := None;
     SagaBase.result := None |}.

Definition saga_run : @SagaBase.Run (list string) string :=
  {| SagaBase.context :=
       {| SagaBase.saga_id := "saga-1";
          SagaBase.steps := [step_upload; step_extract; step_save; step_notify];
          SagaBase.completed_steps := [];
          SagaBase.failed := false;
          SagaBase.error := None |};
     SagaBase.world := [];
     SagaBase.trace := [] |}.

(** A context that has run before: its one step is in [completed_steps]
    already. *)
Definition saga_run_again : @SagaBase.Run (list string) string :=
  {| SagaBase.context :=
       {| SagaBase.saga_id := "saga-1";
          SagaBase.steps := [step_upload];
          SagaBase.completed_steps := [step_upload];
          SagaBase.failed := false;
          SagaBase.error := None |};
     SagaBase.world := ["upload"];
     SagaBase.trace := [] |}.

(** The run when the loop is about to take the fourth step. *)
Definition saga_run_at_3 : @SagaBase.Run (list string) string :=
  match SagaBase.for_steps [step_upload; step_extract; step_save] 0 saga_run with
  | inl t => t
  | inr (_, t) => t
  end.

(** Services on a journal of calls: the storage is down, so the first
    step of the extraction raises; [notifier_up] says whether the failure
    notice can be sent. *)
Definition storage_down : Exn := PyExc "ConnectionError" "storage down".

Definition upload_fails (data path : string) (x : list string)
  : Outcome string * list string :=
  (Raise storage_down, x ++ ["upload_file"]).

Definition delete_file_ok (url : string) (x : list string)
  : Outcome unit * list string :=
  (Return tt, x ++ ["delete_file"]).

Definition extract_ok (url : option string) (x : list string)
  : Outcome unit * list string :=
  (Return tt, x ++ ["extract_recipe"]).

Definition save_ok (household_id : string)
           (recipe_data : option (@RecipeExtraction.Any unit))
           (url : option string) (member_id : string) (x : list string)
  : Outcome string * list string :=
  (Return "recipe-1", x ++ ["save_family_recipe"]).

Definition soft_delete_ok (rid : string) (x : list string)
  : Outcome unit * list string :=
  (Return tt, x ++ ["soft_delete_recipe"]).

Definition confirmation_ok (member_id : string) (title rid : option string)
           (x : list string) : Outcome unit * list string :=
  (Return tt, x ++ ["send_recipe_confirmation"]).

Definition failure_notice (notifier_up : bool) (member_id message : string)
           (x : list string) : Outcome unit * list string :=
  if notifier_up then (Return tt, x ++ ["send_recipe_failure"])
  else (Raise notifier_down, x ++ ["send_recipe_failure"]).

Definition no_title (d : unit) : option string := None.

Definition sample_extraction (notifier_up : bool) (x : list string)
  : Outcome RecipeExtraction.ResultDict * list string :=
  RecipeExtraction.execute_extraction
    upload_fails delete_file_ok extract_ok save_ok soft_delete_ok
    confirmation_ok (failure_notice notifier_up) no_title
    "jpeg-bytes" "household-1" "member-7" "saga-1" x.

(** An AI service on which owner A has used up its three attempts, and a
    client that answers. *)
Definition client_answers (image_url : string) (x : unit)
  : RateLimited.Reply * unit :=
  (RateLimited.Response "{}", tt).

Definition recipe_loads (text : string) : Outcome string := Return text.

(** The answers that are JSON objects: the sample knows [{}]. *)
Definition answer_is_dict (text : string) : bool := bool_decide (text = "{}").

(** A client whose answer is a JSON list. *)
Definition client_answers_list (image_url : string) (x : unit)
  : RateLimited.Reply * unit :=
  (RateLimited.Response "[]", tt).

Definition service_a_exhausted : @RateLimited.Service unit :=
  {| RateLimited.max_concurrent := 5;
     RateLimited.max_retries := 3;
     RateLimited.semaphore := 5;
     RateLimited.retry_counts := {[ "household-A" := 3 ]};
     RateLimited.metrics :=
       {| RateLimited.total_requests := 3; RateLimited.successful := 0;
          RateLimited.failed := 3; RateLimited.rate_limited := 0;
          RateLimited.queued := 3 |};
     RateLimited.client := tt |}.

(** A sender with the default configuration, a provider that accepts every
    message and one that refuses the number [+15550000], and batches. *)
Definition sender_80 : BatchSender.Sender :=
  {| BatchSender.rate_limit := 80;
     BatchSender.retry_attempts := 3;
     BatchSender.queue := [];
     BatchSender.stats :=
       {| BatchSender.sent := 0; BatchSender.failed_count := 0;
          BatchSender.retried := 0 |} |}.

Definition unroutable : Exn := PyExc "TwilioRestException" "unroutable number".

Definition provider_sms (to_ body : string) (from_number : option string)
           (x : unit) : Outcome string * unit :=
  if bool_decide (to_ = "+15550000") then (Raise unroutable, tt)
  else (Return "SM1", tt).

Definition provider_mms (to_ body media_url : string)
           (from_number : option string) (x : unit) : Outcome string * unit :=
  (Return "MM1", tt).

Definition sms (to_ : string) : BatchSender.SMSMessage :=
  {| BatchSender.to := to_;
     BatchSender.body := "Time to plan meals for the week.";
     BatchSender.from_number := None;
     BatchSender.media_url := None;
     BatchSender.correlation_id := None |}.

Definition messages_3 : list BatchSender.SMSMessage :=
  [sms "+15551111"; sms "+15550000"; sms "+15552222"].

Definition messages_250 : list BatchSender.SMSMessage :=
  replicate 250 (sms "+15551111").

(** Collaborators that all answer, on a text that the suicide patterns
    match. *)
Definition sample_search (pattern text : string) : option string :=
  if bool_decide (pattern = "\bkill myself\b" /\ text = "i want to kill myself")
  then Some "kill myself" else None.

Definition sample_lower (text : string) : string :=
  if bool_decide (text = "I want to kill myself")
  then "i want to kill myself" else text.

Definition sample_user : Conversation.User :=
  {| Conversation.user_id := 7; Conversation.opted_out := false |}.

Definition sample_services : Conversation.Services unit :=
  {| Conversation.re_search := sample_search;
     Conversation.lower := sample_lower;
     Conversation.strip_upper := fun text => text;
     Conversation.user_service_get_or_create_user :=
       fun _ x => (Return (sample_user, false), x);
     Conversation.user_service_opt_out_user := fun _ x => (Return tt, x);
     Conversation.user_service_update_last_message_time :=
       fun _ x => (Return tt, x);
     Conversation.user_service_get_decrypted_first_name := fun _ => None;
     Conversation.sms_send_message := fun _ _ x => (Return tt, x);
     Conversation.db_select_active_conversation :=
       fun _ x => (Return (Some {| Conversation.conversation_id := 3 |}), x);
     Conversation.db_add_conversation :=
       fun _ x => (Return {| Conversation.conversation_id := 3 |}, x);
     Conversation.db_add_message := fun _ _ _ _ _ _ _ x => (Return tt, x);
     Conversation.db_select_recent_messages :=
       fun _ _ x => (Return [("user", "I want to kill myself")], x);
     Conversation.db_commit := fun x => (Return tt, x);
     Conversation.db_rollback := fun x => (Return tt, x);
     Conversation.compliance_check_disclosure_needed :=
       fun _ _ x => (Return false, x);
     Conversation.compliance_record_disclosure := fun _ _ x => (Return tt, x);
     Conversation.compliance_initial_disclosure := "Hi! I'm Jules, an AI.";
     Conversation.compliance_periodic_disclosure := "Reminder: I'm an AI.";
     Conversation.crisis_log_crisis_event :=
       fun _ _ _ _ _ _ x => (Return tt, x);
     Conversation.crisis_response := "Crisis & Suicide Lifeline: 988";
     Conversation.llm_generate_response :=
       fun _ _ x =>
         (Return {| Conversation.content := "I'm here with you.";
                    Conversation.model := None;
                    Conversation.tokens_used := None;
                    Conversation.latency_ms := None |}, x);
     Conversation._build_system_prompt := fun _ => "You are Jules." |}.

(** The same collaborators for another sender and another provider of
    responses: a sender who has opted out, a provider that is down. *)
Definition opted_out_user : Conversation.User :=
  {| Conversation.user_id := 8; Conversation.opted_out := true |}.

Definition provider_down : Exn := PyExc "AIServiceError" "provider unavailable".

Definition sample_services_with (user : Conversation.User)
           (generate : list (string * string) -> string -> unit ->
                       Outcome Conversation.AIResponse * unit)
  : Conversation.Services unit :=
  {| Conversation.re_search := sample_search;
     Conversation.lower := sample_lower;
     Conversation.strip_upper := fun text => text;
     Conversation.user_service_get_or_create_user :=
       fun _ x => (Return (user, false), x);
     Conversation.user_service_opt_out_user := fun _ x => (Return tt, x);
     Conversation.user_service_update_last_message_time :=
       fun _ x => (Return tt, x);
     Conversation.user_service_get_decrypted_first_name := fun _ => None;
     Conversation.sms_send_message := fun _ _ x => (Return tt, x);
     Conversation.db_select_active_conversation :=
       fun _ x => (Return (Some {| Conversation.conversation_id := 3 |}), x);
     Conversation.db_add_conversation :=
       fun _ x => (Return {| Conversation.conversation_id := 3 |}, x);
     Conversation.db_add_message := fun _ _ _ _ _ _ _ x => (Return tt, x);
     Conversation.db_select_recent_messages :=
       fun _ _ x => (Return [("user", "I want to kill myself")], x);
     Conversation.db_commit := fun x => (Return tt, x);
     Conversation.db_rollback := fun x => (Return tt, x);
     Conversation.compliance_check_disclosure_needed :=
       fun _ _ x => (Return false, x);
     Conversation.compliance_record_disclosure := fun _ _ x => (Return tt, x);
     Conversation.compliance_initial_disclosure := "Hi! I'm Jules, an AI.";
     Conversation.compliance_periodic_disclosure := "Reminder: I'm an AI.";
     Conversation.crisis_log_crisis_event :=
       fun _ _ _ _ _ _ x => (Return tt, x);
     Conversation.crisis_response := "Crisis & Suicide Lifeline: 988";
     Conversation.llm_generate_response := generate;
     Conversation._build_system_prompt := fun _ => "You are Jules." |}.



Definition services_sender_opted_out : Conversation.Services unit :=
  sample_services_with opted_out_user
    (Conversation.llm_generate_response sample_services).

Definition services_provider_down : Conversation.Services unit :=
  sample_services_with sample_user (fun _ _ x => (Raise provider_down, x)).

(** Services of the extraction on a journal that keeps what they are
    called on; the recipe data is the title. *)
Definition upload_logged (data path : string) (x : list string)
  : Outcome string * list string :=
  (Return "https://cdn.example/r1.jpg", x ++ ["upload_file " +:+ path]).

Definition delete_file_logged (url : string) (x : list string)
  : Outcome unit * list string :=
  (Return tt, x ++ ["delete_file " +:+ url]).

Definition extract_logged (url : option string) (x : list string)
  : Outcome string * list string :=
  (Return "Lasagne", x ++ ["extract_recipe " +:+ default "None" url]).

Definition extract_times_out (url : option string) (x : list string)
  : Outcome string * list string :=
  (Raise (PyExc "TimeoutError" "AI request timed out"),
   x ++ ["extract_recipe " +:+ default "None" url]).

Definition save_logged (household_id : string)
           (recipe_data : option (@RecipeExtraction.Any string))
           (url : option string) (member_id : string) (x : list string)
  : Outcome string * list string :=
  (Return "recipe-1",
   x ++ ["save_family_recipe " +:+ household_id +:+ " "
           +:+ match recipe_data with
               | Some (RecipeExtraction.ARecipe d) => d
               | _ => "?"
               end
           +:+ " " +:+ default "None" url +:+ " " +:+ member_id]).

Definition soft_delete_fails (rid : string) (x : list string)
  : Outcome unit * list string :=
  (Raise store_down, x ++ ["soft_delete_recipe " +:+ rid]).

Definition confirmation_logged (member_id : string) (title rid : option string)
           (x : list string) : Outcome unit * list string :=
  (Return tt,
   x ++ ["send_recipe_confirmation " +:+ member_id +:+ " "
           +:+ default "None" title +:+ " " +:+ default "None" rid]).

Definition confirmation_fails (member_id : string) (title rid : option string)
           (x : list string) : Outcome unit * list string :=
  (Raise notifier_down, x ++ ["send_recipe_confirmation " +:+ member_id]).

Definition failure_logged (member_id message : string) (x : list string)
  : Outcome unit * list string :=
  (Return tt, x ++ ["send_recipe_failure " +:+ member_id +:+ " " +:+ message]).

Definition title_of (d : string) : option string := Some d.

(** A fresh AI service, a client that times out, one whose answer is no
    JSON, and calls for two owners. *)
Definition service_fresh : @RateLimited.Service unit :=
  {| RateLimited.max_concurrent := 5;
     RateLimited.max_retries := 3;
     RateLimited.semaphore := 5;
     RateLimited.retry_counts := ∅;
     RateLimited.metrics :=
       {| RateLimited.total_requests := 0; RateLimited.successful := 0;
          RateLimited.failed := 0; RateLimited.rate_limited := 0;
          RateLimited.queued := 0 |};
     RateLimited.client := tt |}.

Definition client_times_out (image_url : string) (x : unit)
  : RateLimited.Reply * unit :=
  (RateLimited.TimedOut, tt).

Definition client_answers_prose (image_url : string) (x : unit)
  : RateLimited.Reply * unit :=
  (RateLimited.Response "Sorry, I cannot read this image.", tt).

Definition not_json : Exn :=
  PyExc "JSONDecodeError" "Expecting value: line 1 column 1 (char 0)".

Definition strict_loads (text : string) : Outcome string :=
  if bool_decide (text = "{}") then Return text else Raise not_json.

Definition request_of (household_id : string) : RateLimited.Request :=
  {| RateLimited.req_image_url := "https://img/1.jpg";
     RateLimited.req_household_id := household_id;
     RateLimited.req_correlation_id := "corr-1";
     RateLimited.req_priority := 0 |}.

(** A sender whose window is empty. *)
Definition sender_no_window : BatchSender.Sender :=
  {| BatchSender.rate_limit := 0;
     BatchSender.retry_attempts := 3;
     BatchSender.queue := [];
     BatchSender.stats :=
       {| BatchSender.sent := 0; BatchSender.failed_count := 0;
          BatchSender.retried := 0 |} |}.

(** A sender that is allowed no attempt, and one that has sent before. *)
Definition sender_no_attempt : BatchSender.Sender :=
  {| BatchSender.rate_limit := 80;
     BatchSender.retry_attempts := 0;
     BatchSender.queue := [];
     BatchSender.stats :=
       {| BatchSender.sent := 0; BatchSender.failed_count := 0;
          BatchSender.retried := 0 |} |}.

Definition sender_used : BatchSender.Sender :=
  {| BatchSender.rate_limit := 2;
     BatchSender.retry_attempts := 3;
     BatchSender.queue := [];
     BatchSender.stats :=
       {| BatchSender.sent := 40; BatchSender.failed_count := 2;
          BatchSender.retried := 5 |} |}.

(** A durable store that holds the first step for every owner. *)
Definition one_row (household_id : string) (member_id : option string)
           (d : unit) : Outcome (option FlowState) :=
  Return (Some StepOne).

(** A second event of the same type, the instants of two emissions, and a
    decoding of [event_json] that knows the two events. *)
Definition sms_received_next : @Idempotency.Event unit :=
  {| Idempotency.event_id := "evt-2";
     Idempotency.event_type := "sms.received";
     Idempotency.data := tt;
     Idempotency.correlation_id := None |}.

Definition malformed : Exn := PyExc "JSONDecodeError" "Expecting value".

Definition event_loads (text : string) : Outcome (@Idempotency.Event unit) :=
  if bool_decide (text = event_json sms_received) then Return sms_received
  else if bool_decide (text = event_json sms_received_next)
       then Return sms_received_next
       else Raise malformed.

Definition bus_without_ttl : Idempotency.Bus :=
  {| Idempotency.redis := ∅; Idempotency.ttl := 0; Idempotency.log := [] |}.

Definition bus_with_garbage : Idempotency.Bus :=
  {| Idempotency.redis :=
       {[ "events:sms.received" :=
            {| Redis.value := Redis.VList [event_json sms_received; "not json"];
               Redis.expires_at := None |} ]};
     Idempotency.ttl := 86400; Idempotency.log := [] |}.

(** Three households; one member has opted out of the group messages. *)
Definition member (phone : string) (receives : bool) : SMSScheduler.Member :=
  {| SMSScheduler.phone_number := phone;
     SMSScheduler.receives_group_messages := receives |}.

Definition households_3 : list SMSScheduler.Household :=
  [ {| SMSScheduler.household_id := "1";
       SMSScheduler.household_name := "Byrne";
       SMSScheduler.members := [member "+15551111" true; member "+15552222" false] |};
    {| SMSScheduler.household_id := "2";
       SMSScheduler.household_name := "Okafor";
       SMSScheduler.members := [member "+15553333" true] |};
    {| SMSScheduler.household_id := "3";
       SMSScheduler.household_name := "Lind";
       SMSScheduler.members := [] |} ].

End Samples.

(** * Properties *)

(** ** The key/value store *)

Module RedisFacts.

Lemma find_insert_eq now k e (st : Redis.Store) :
  Redis.live now e = true -> Redis.find now k (<[k := e]> st) = Some e.
Proof.
  intros Hl. unfold Redis.find. rewrite lookup_insert_eq. by rewrite Hl.
Qed.

Lemma find_insert_ne now k k' e (st : Redis.Store) :
  k <> k' -> Redis.find now k' (<[k := e]> st) = Redis.find now k' st.
Proof.
  intros Hne. unfold Redis.find. by rewrite lookup_insert_ne.
Qed.

Lemma setex_ok now k seconds v (st : Redis.Store) :
  0 < seconds ->
  Redis.setex now k seconds v st
  = (Return tt,
     <[k := {| Redis.value := Redis.VStr v;
               Redis.expires_at := Some (now + seconds) |}]> st).
Proof.
  intros Hs. unfold Redis.setex. by rewrite bool_decide_eq_true_2.
Qed.

Lemma exists_after_setex now now' k seconds v (st : Redis.Store) :
  now' < now + seconds ->
  Redis.exists_ now' k
    (<[k := {| Redis.value := Redis.VStr v;
               Redis.expires_at := Some (now + seconds) |}]> st) = true.
Proof.
  intros Hw. unfold Redis.exists_. rewrite find_insert_eq; [done|].
  unfold Redis.live; simpl. by apply bool_decide_eq_true_2.
Qed.

Lemma lpush_ok now k x (st : Redis.Store) :
  Redis.holds_string now k st = false ->
  exists n e,
    Redis.lpush now k x st = (Return n, <[k := e]> st) /\
    Redis.live now e = true /\
    Redis.value e = Redis.VList (x :: Redis.elements_of now k st).
Proof.
  unfold Redis.holds_string, Redis.lpush, Redis.elements_of.
  destruct (Redis.find now k st) as [[[s|l] ex]|] eqn:Hf; simpl; intros Hs.
  - done.
  - eexists _, _. split; [done|]. split; [|done].
    unfold Redis.find in Hf. destruct (st !! k) as [e0|]; [|done].
    destruct (Redis.live now e0) eqn:Hl; [|done]. by simplify_eq.
  - eexists _, _. split; [done|]. by split.
Qed.

End RedisFacts.

(** ** The idempotent event bus *)

Module IdempotencyFacts.

Import Idempotency.

Section Bus.

Context {Data : Type}.
Variable Event_json : @Event Data -> Outcome string.

Lemma keys_differ (e : @Event Data) (t : string) :
  idempotency_key e <> queue_key t.
Proof.
  unfold idempotency_key, queue_key. intros H. injection H. intros; discriminate.
Qed.

(** The three awaits of [emit], run in a row at one instant, are [emit]. *)
Lemma emit_steps_agree now (e : @Event Data) bus :
  let '(p1, b1) := emit_step Event_json now e AtExists bus in
  let '(p2, b2) := emit_step Event_json now e p1 b1 in
  let '(p3, b3) := emit_step Event_json now e p2 b2 in
  exists r, p3 = Done r /\ emit Event_json now e bus = (r, b3).
Proof.
  unfold emit. simpl.
  destruct (Redis.exists_ now (idempotency_key e) (redis bus)); simpl.
  { eexists; split; reflexivity. }
  destruct (Event_json e) as [text|err]; simpl.
  - destruct (Redis.lpush now (queue_key (event_type e)) text (redis bus))
      as [[n|err] r1]; simpl.
    + destruct (Redis.setex now (idempotency_key e) (ttl bus) "1" r1)
        as [[u|err] r2]; simpl; eexists; split; reflexivity.
    + eexists; split; reflexivity.
  - eexists; split; reflexivity.
Qed.

(** C1, amended.  An [emit] of an event that [Event.json] serialises to
    [text], and whose dedup key is absent (no earlier emission of that id
    within the retention window), returns [True] and pushes [text] once
    onto [events:<type>].  A second [emit] with the same id before the
    dedup key expires pushes nothing and leaves the store as it is, so the
    queue holds one more element, the event, and no more.  That second
    call does not return [False]: it ends in the [TypeError] of its
    [logger.warning]. *)
Theorem emit_exactly_once now now' (e e' : @Event Data) (bus : Bus) text :
  0 < ttl bus ->
  Redis.exists_ now (idempotency_key e) (redis bus) = false ->
  Redis.holds_string now (queue_key (event_type e)) (redis bus) = false ->
  now <= now' < now + ttl bus ->
  event_id e' = event_id e ->
  Event_json e = Return text ->
  exists bus1 bus2,
    emit Event_json now e bus = (Return true, bus1) /\
    Redis.elements_of now (queue_key (event_type e)) (redis bus1)
    = text :: Redis.elements_of now (queue_key (event_type e)) (redis bus) /\
    emit Event_json now' e' bus1 = (Raise (LoggerTypeError "event_id"), bus2) /\
    redis bus2 = redis bus1 /\
    Redis.elements_of now (queue_key (event_type e)) (redis bus2)
    = text :: Redis.elements_of now (queue_key (event_type e)) (redis bus).
Proof.
  intros Httl Hnew Hq Hwin Hid Htext.
  destruct (RedisFacts.lpush_ok now (queue_key (event_type e)) text
              (redis bus) Hq) as (n & entry & Hpush & Hlive & Hval).
  assert (Hel : Redis.elements_of now (queue_key (event_type e))
                  (<[idempotency_key e :=
                       {| Redis.value := Redis.VStr "1";
                          Redis.expires_at := Some (now + ttl bus) |}]>
                     (<[queue_key (event_type e) := entry]> (redis bus)))
                = text
                  :: Redis.elements_of now (queue_key (event_type e)) (redis bus)).
  { unfold Redis.elements_of at 1.
    rewrite RedisFacts.find_insert_ne by apply keys_differ.
    rewrite RedisFacts.find_insert_eq by done.
    destruct entry as [v ex]; simpl in *. by subst v. }
  eexists _, _. split; [|split; [|split; [|split]]].
  - unfold emit. rewrite Hnew, Htext, Hpush. simpl.
    rewrite RedisFacts.setex_ok by done. reflexivity.
  - simpl. apply Hel.
  - unfold emit, idempotency_key. rewrite Hid. simpl.
    fold (idempotency_key e).
    rewrite RedisFacts.exists_after_setex by lia. reflexivity.
  - reflexivity.
  - simpl. apply Hel.
Qed.

(** The consumer's side of C1: on a queue that was empty, the two emits
    leave one element, which [consume] hands over once. *)
Lemma consume_after_emits (json_loads : string -> Outcome (@Event Data))
      now (e : @Event Data) (bus1 : Bus) text :
  json_loads text = Return e ->
  Redis.find now (queue_key (event_type e)) (redis bus1)
  = Some {| Redis.value := Redis.VList [text];
            Redis.expires_at := None |} ->
  exists bus2,
    consume json_loads now (event_type e) bus1 = (Return (Some e), bus2) /\
    fst (consume json_loads now (event_type e) bus2) = Return None.
Proof.
  intros Hrt Hf. eexists. split.
  - unfold consume, Redis.brpop. rewrite Hf. simpl. rewrite Hrt. reflexivity.
  - unfold consume, Redis.brpop, Redis.find. simpl.
    unfold Redis.delete. by rewrite lookup_delete_eq.
Qed.

(** C4, as the code has it.  [emit] checks with EXISTS and marks with
    SETEX, two awaits apart: when two emitters of one event take turns so
    that both check before either marks, both return [True] and the event
    is queued twice.  (An event that [Event.json] refuses is queued by
    neither: both emitters raise its error.) *)
Theorem emit_race_both_true (e : @Event Data) (now : Z) :
  let c := run_schedule Event_json e e
             [(First, now); (Second, now);
              (First, now); (First, now);
              (Second, now); (Second, now)]
             {| redis := ∅; ttl := 86400; log := [] |} in
  match Event_json e with
  | Return text =>
      pc1 c = Done (Return true) /\
      pc2 c = Done (Return true) /\
      Redis.elements_of now (queue_key (event_type e)) (redis (shared c))
      = [text; text]
  | Raise err =>
      pc1 c = Done (Raise err) /\
      pc2 c = Done (Raise err) /\
      Redis.elements_of now (queue_key (event_type e)) (redis (shared c)) = []
  end.
Proof.
  pose proof (keys_differ e (event_type e)) as Hne.
  set (ik := idempotency_key e) in *.
  set (qk := queue_key (event_type e)) in *.
  set (b0 := {| redis := ∅; ttl := 86400; log := [] |}).
  assert (H1 : schedule_step Event_json e e
                 {| pc1 := AtExists; pc2 := AtExists; shared := b0 |} (First, now)
               = {| pc1 := AtLpush; pc2 := AtExists; shared := b0 |}).
  { unfold schedule_step, emit_step, Redis.exists_, Redis.find; simpl.
    by rewrite lookup_empty. }
  assert (H2 : schedule_step Event_json e e
                 {| pc1 := AtLpush; pc2 := AtExists; shared := b0 |} (Second, now)
               = {| pc1 := AtLpush; pc2 := AtLpush; shared := b0 |}).
  { unfold schedule_step, emit_step, Redis.exists_, Redis.find; simpl.
    by rewrite lookup_empty. }
  destruct (Event_json e) as [p|err] eqn:Hjson.
  - set (mark := {| Redis.value := Redis.VStr "1";
                    Redis.expires_at := Some (now + 86400) |}).
    set (r1 := <[qk := {| Redis.value := Redis.VList [p];
                          Redis.expires_at := None |}]> (∅ : Redis.Store)).
    set (r2 := <[ik := mark]> r1).
    set (r3 := <[qk := {| Redis.value := Redis.VList [p; p];
                          Redis.expires_at := None |}]> r2).
    set (b4 := logged INFO "event_emitted" e (with_redis r2 (with_redis r1 b0))).
    assert (H3 : schedule_step Event_json e e
                   {| pc1 := AtLpush; pc2 := AtLpush; shared := b0 |} (First, now)
                 = {| pc1 := AtSetex; pc2 := AtLpush; shared := with_redis r1 b0 |}).
    { unfold schedule_step, emit_step, Redis.lpush, Redis.find; simpl.
      rewrite Hjson. by rewrite lookup_empty. }
    assert (H4 : schedule_step Event_json e e
                   {| pc1 := AtSetex; pc2 := AtLpush; shared := with_redis r1 b0 |}
                   (First, now)
                 = {| pc1 := Done (Return true); pc2 := AtLpush; shared := b4 |}).
    { unfold schedule_step, emit_step; cbn -[Redis.setex].
      by rewrite RedisFacts.setex_ok. }
    assert (H5 : schedule_step Event_json e e
                   {| pc1 := Done (Return true); pc2 := AtLpush; shared := b4 |}
                   (Second, now)
                 = {| pc1 := Done (Return true); pc2 := AtSetex;
                      shared := with_redis r3 b4 |}).
    { unfold schedule_step, emit_step, Redis.lpush; simpl. rewrite Hjson.
      fold qk. unfold r2.
      rewrite RedisFacts.find_insert_ne by done. unfold r1.
      by rewrite RedisFacts.find_insert_eq. }
    assert (H6 : schedule_step Event_json e e
                   {| pc1 := Done (Return true); pc2 := AtSetex;
                      shared := with_redis r3 b4 |} (Second, now)
                 = {| pc1 := Done (Return true); pc2 := Done (Return true);
                      shared := logged INFO "event_emitted" e
                                  (with_redis (<[ik := mark]> r3)
                                              (with_redis r3 b4)) |}).
    { unfold schedule_step, emit_step; cbn -[Redis.setex].
      by rewrite RedisFacts.setex_ok. }
    unfold run_schedule. cbn [foldl]. rewrite H1, H2, H3, H4, H5, H6. simpl.
    split; [done|]. split; [done|].
    unfold Redis.elements_of.
    rewrite RedisFacts.find_insert_ne by done. unfold r3.
    by rewrite RedisFacts.find_insert_eq.
  - unfold run_schedule. cbn [foldl]. rewrite H1, H2.
    unfold schedule_step, emit_step. cbn. rewrite Hjson. cbn.
    split; [done|]. split; [done|].
    unfold Redis.elements_of, Redis.find. by rewrite lookup_empty.
Qed.

End Bus.

(** C1 as stated fails at two places.  The second [emit] of an id within
    the retention window does not return [False]: its [logger.warning] is
    called with keyword fields and raises.  And not every event is
    emitted: one whose data [json.dumps] refuses makes [emit] raise with
    nothing queued. *)
Lemma emit_duplicate_is_not_false :
  (exists bus1,
      emit Samples.event_dumps 0 Samples.sms_received Samples.fresh_bus
      = (Return true, bus1) /\
      (emit Samples.event_dumps 10 Samples.sms_received_again bus1).1
      = Raise (LoggerTypeError "event_id") /\
      (emit Samples.event_dumps 10 Samples.sms_received_again bus1).1
      <> Return false) /\
  emit Samples.flagged_dumps 0 Samples.event_with_set Samples.fresh_bus
  = (Raise Samples.not_serializable, Samples.fresh_bus).
Proof.
  split; [|reflexivity].
  eexists. split; [reflexivity|]. split; [reflexivity|]. discriminate.
Qed.

Lemma emit_exactly_once_witness :
  (0 < Idempotency.ttl Samples.fresh_bus /\
   0 <= 10 < 0 + Idempotency.ttl Samples.fresh_bus) /\
  exists bus1 bus2,
    Idempotency.emit Samples.event_dumps 0 Samples.sms_received Samples.fresh_bus
    = (Return true, bus1) /\
    Redis.elements_of 0 (Idempotency.queue_key "sms.received")
                      (Idempotency.redis bus1)
    = Samples.event_json Samples.sms_received
      :: Redis.elements_of 0 (Idempotency.queue_key "sms.received")
                           (Idempotency.redis Samples.fresh_bus) /\
    Idempotency.emit Samples.event_dumps 10 Samples.sms_received_again bus1
    = (Raise (LoggerTypeError "event_id"), bus2) /\
    Idempotency.redis bus2 = Idempotency.redis bus1 /\
    Redis.elements_of 0 (Idempotency.queue_key "sms.received")
                      (Idempotency.redis bus2)
    = Samples.event_json Samples.sms_received
      :: Redis.elements_of 0 (Idempotency.queue_key "sms.received")
                           (Idempotency.redis Samples.fresh_bus).
Proof.
  split; [simpl; lia|].
  apply (emit_exactly_once Samples.event_dumps 0 10 Samples.sms_received
           Samples.sms_received_again Samples.fresh_bus
           (Samples.event_json Samples.sms_received)).
  - simpl; lia.
  - reflexivity.
  - reflexivity.
  - simpl; lia.
  - reflexivity.
  - reflexivity.
Defined.

End IdempotencyFacts.

(** ** The hybrid state manager *)

Module HybridStateFacts.

Import HybridState.

Section Manager.

Context {State DB : Type}.
Variable json_dumps : State -> string.
Variable json_loads : string -> Outcome State.
Variable _load_from_db : string -> option string -> DB -> Outcome (option State).

Lemma truthy_dumps v :
  json_dumps v <> "" -> truthy (Some (json_dumps v)) = Some (json_dumps v).
Proof. intros H. unfold truthy. by destruct (json_dumps v). Qed.

(** C5, amended.  [update_state(k, v)] returns once the cache is written:
    the durable store is as it was and the persistence is only queued.  A
    [get_state(k)] that follows, while the cache entry lives, does not ask
    the durable store: it returns what [json.loads] makes of the text that
    [json.dumps] wrote for [v].  That is [v] for a state that comes back
    from its text as itself. *)
Theorem read_your_writes now now' household_id member_id (v : State)
        (m : @Manager State DB) :
  0 < ttl m ->
  now <= now' < now + ttl m ->
  json_dumps v <> "" ->
  exists m1 m2,
    update_state json_dumps now household_id v member_id m = (Return tt, m1) /\
    db m1 = db m /\
    background_tasks m1
    = background_tasks m ++ [persist household_id member_id v] /\
    get_state json_dumps json_loads _load_from_db now' household_id member_id m1
    = (cache_hit json_loads (json_dumps v), m2) /\
    db m2 = db m /\
    (json_loads (json_dumps v) = Return v ->
     get_state json_dumps json_loads _load_from_db now' household_id member_id
               m1
     = (Return (Some v), m2)).
Proof.
  intros Httl Hwin Hne.
  assert (Hget : forall m1,
             m1 = (update_state json_dumps now household_id v member_id m).2 ->
             get_state json_dumps json_loads _load_from_db now' household_id
                       member_id m1
             = (cache_hit json_loads (json_dumps v),
                logged INFO "state_cache_hit" household_id member_id m1)).
  { intros m1 ->. unfold update_state. rewrite RedisFacts.setex_ok by done.
    unfold get_state, Redis.get. cbn -[truthy Redis.find].
    rewrite RedisFacts.find_insert_eq.
    - cbn -[truthy]. rewrite truthy_dumps by done. unfold cache_hit.
      by destruct (json_loads (json_dumps v)).
    - unfold Redis.live. simpl. apply bool_decide_eq_true_2. lia. }
  assert (Hup : exists m1,
             update_state json_dumps now household_id v member_id m
             = (Return tt, m1) /\
             db m1 = db m /\
             background_tasks m1
             = background_tasks m ++ [persist household_id member_id v]).
  { unfold update_state. rewrite RedisFacts.setex_ok by done.
    eexists. split; [reflexivity|]. by split. }
  destruct Hup as (m1 & Hu & Hdb & Hq).
  specialize (Hget m1). rewrite Hu in Hget. specialize (Hget eq_refl).
  exists m1, (logged INFO "state_cache_hit" household_id member_id m1).
  split; [done|]. split; [done|]. split; [done|]. split; [done|].
  split; [done|].
  intros Hrt. rewrite Hget. unfold cache_hit. by rewrite Hrt.
Qed.

End Manager.

(** C5 as stated fails for a state that holds a tuple: the dict that
    comes back holds a list. *)
Lemma tuple_state_comes_back_as_list :
  exists m1 m2,
    update_state Samples.steps_dumps 0 "household-1" Samples.steps_tuple
                 (Some "member-7") Samples.steps_manager = (Return tt, m1) /\
    get_state Samples.steps_dumps Samples.steps_loads Samples.steps_no_rows 0
              "household-1" (Some "member-7") m1
    = (Return (Some Samples.steps_list), m2) /\
    Samples.steps_list <> Samples.steps_tuple.
Proof.
  eexists _, _. split; [reflexivity|]. split; [vm_compute; reflexivity|].
  discriminate.
Qed.

Lemma read_your_writes_witness :
  (0 < ttl Samples.fresh_manager /\ 0 <= 299 < 0 + ttl Samples.fresh_manager /\
   Samples.flow_dumps Samples.StepTwo <> "") /\
  exists m1 m2,
    update_state Samples.flow_dumps 0 "household-1" Samples.StepTwo
                 (Some "member-7") Samples.fresh_manager = (Return tt, m1) /\
    db m1 = db Samples.fresh_manager /\
    background_tasks m1
    = background_tasks Samples.fresh_manager
      ++ [persist "household-1" (Some "member-7") Samples.StepTwo] /\
    get_state Samples.flow_dumps Samples.flow_loads Samples.no_rows 299
              "household-1" (Some "member-7") m1
    = (cache_hit Samples.flow_loads (Samples.flow_dumps Samples.StepTwo), m2) /\
    db m2 = db Samples.fresh_manager /\
    (Samples.flow_loads (Samples.flow_dumps Samples.StepTwo)
     = Return Samples.StepTwo ->
     get_state Samples.flow_dumps Samples.flow_loads Samples.no_rows 299
               "household-1" (Some "member-7") m1
     = (Return (Some Samples.StepTwo), m2)).
Proof.
  split; [split; [simpl; lia|split; [simpl; lia|discriminate]]|].
  apply (read_your_writes Samples.flow_dumps Samples.flow_loads Samples.no_rows
           0 299 "household-1" (Some "member-7") Samples.StepTwo
           Samples.fresh_manager).
  - simpl; lia.
  - simpl; lia.
  - discriminate.
Defined.

End HybridStateFacts.

(** ** The saga orchestrator *)

Module SagaFacts.

Import SagaBase.

Section Orchestrator.

Context {W Any : Type}.

Abbreviation SagaStep := (@SagaStep W Any).
Abbreviation Run := (@Run W Any).

Lemma loop_raises pending i (s : Run) step rest k s_k e f :
  loop_reaches pending i s (step :: rest) k s_k ->
  loop_body k step s_k = inr (e, f) ->
  for_steps pending i s = inr (e, f).
Proof.
  intros Hr. remember (step :: rest) as pending' eqn:Hp.
  induction Hr as [pending i s | st rs i s s1 pending' j t Hb Hr IH]; intros Hf.
  - subst pending. simpl. by rewrite Hf.
  - simpl. rewrite Hb. by apply IH.
Qed.

Lemma for_steps_cases pending i (s : Run) :
  (exists t, for_steps pending i s = inl t /\
             loop_reaches pending i s [] (i + length pending)%nat t) \/
  (exists e f step rest k s_k,
      for_steps pending i s = inr (e, f) /\
      loop_reaches pending i s (step :: rest) k s_k /\
      loop_body k step s_k = inr (e, f)).
Proof.
  revert i s. induction pending as [|step rest IH]; intros i s.
  - left. exists s. split; [done|]. rewrite Nat.add_0_r. constructor.
  - simpl. destruct (loop_body i step s) as [s1|[e f]] eqn:Hb.
    + destruct (IH (S i) s1) as [(t & Hf & Hr)|(e & f & st & rs & k & s_k & Hf & Hr & Hk)].
      * left. exists t. split; [done|].
        replace (i + S (length rest))%nat with (S i + length rest)%nat by lia.
        by eapply reaches_next.
      * right. exists e, f, st, rs, k, s_k. split; [done|]. split; [|done].
        by eapply reaches_next.
    + right. exists e, f, step, rest, i, s. split; [done|]. split; [constructor|done].
Qed.

Lemma loop_inv_start (s0 : Run) :
  completed_steps (context s0) = [] ->
  loop_inv s0 (steps (context s0)) 0 s0.
Proof.
  intros Hc. exists []. simpl. rewrite Hc, app_nil_r, take_0.
  repeat split; auto.
Qed.

Lemma same_step_set_result r (step : SagaStep) : same_step (set_result r step) step.
Proof. by repeat split. Qed.

Lemma loop_inv_body (s0 : Run) step rest i s s' :
  loop_inv s0 (step :: rest) i s ->
  loop_body i step s = inl s' ->
  loop_inv s0 rest (S i) s'.
Proof.
  intros (done_ & Hs & Hl & Hc & Hsame & Hp & Ht) Hb.
  unfold loop_body in Hb.
  destruct (execute step (results (context s)) (world s)) as [[r|e] w]; [|done].
  injection Hb as <-.
  assert (Hi : steps (context s0) !! i = Some step).
  { rewrite <- (take_drop i (steps (context s0))), <- Hp.
    rewrite lookup_app_r; rewrite length_take.
    - assert (i <= length (steps (context s0)))%nat.
      { destruct (decide (i <= length (steps (context s0)))%nat) as [|Hn]; [done|].
        rewrite drop_ge in Hp by lia. done. }
      by replace (i - i `min` length (steps (context s0)))%nat with 0%nat by lia.
    - lia. }
  exists (done_ ++ [set_result r step]). simpl.
  split; [|split; [|split; [|split; [|split]]]].
  - rewrite Hs. rewrite insert_app_r_alt by lia.
    replace (i - length done_)%nat with 0%nat by lia. simpl.
    by rewrite <- app_assoc.
  - rewrite length_app. simpl. lia.
  - by rewrite Hc.
  - rewrite (take_S_r _ _ _ Hi). apply Forall2_app; [done|].
    constructor; [apply same_step_set_result|constructor].
  - rewrite (drop_S _ _ _ Hi) in Hp. by injection Hp.
  - rewrite Ht. rewrite (take_S_r _ _ _ Hi). rewrite flat_map_app. simpl.
    by rewrite <- !app_assoc.
Qed.

Lemma loop_inv_reaches (s0 : Run) pending i s pending' j t :
  loop_reaches pending i s pending' j t ->
  loop_inv s0 pending i s ->
  loop_inv s0 pending' j t.
Proof.
  induction 1 as [|step rest i s s' pending' j t Hb Hr IH]; [done|].
  intros Hinv. apply IH. by eapply loop_inv_body.
Qed.

Lemma loop_inv_prefix (s0 : Run) pending i t :
  loop_inv s0 pending i t ->
  completed_steps (context t) = take i (steps (context t)) /\
  Forall2 same_step (steps (context t)) (steps (context s0)) /\
  pending = drop i (steps (context s0)) /\
  trace t = trace s0 ++ flat_map step_events (take i (steps (context s0))).
Proof.
  intros (done_ & Hs & Hl & Hc & Hsame & Hp & Ht).
  split; [|split; [|done]].
  - rewrite Hs, Hc, <- Hl. by rewrite take_app_length.
  - rewrite Hs, <- (take_drop i (steps (context s0))), <- Hp.
    apply Forall2_app; [done|]. apply Forall2_same_length_lookup_2; [done|].
    intros k x y Hx Hy. assert (x = y) as -> by congruence. by repeat split.
Qed.

(** What [execute] does once the step at index [k] has raised: the
    [logger.error] of the handler raises, and that is what the caller gets;
    the flags of the context are not set and no compensation is awaited. *)
Lemma raise_is_not_rolled_back (s s_k : Run) step rest k e w :
  loop_reaches (steps (context s)) 0 s (step :: rest) k s_k ->
  execute step (results (context s_k)) (world s_k) = (Raise e, w) ->
  execute_saga s
  = (Raise (LoggerTypeError "saga_id"),
     {| context := context s_k; world := w;
        trace := (trace s_k ++ [saga_step_start (name step)])
                   ++ [saga_failed (name step) (str e)] |}).
Proof.
  intros Hr Hx.
  assert (Hb : loop_body k step s_k
               = inr (e, {| context := context s_k; world := w;
                            trace := (trace s_k ++ [saga_step_start (name step)])
                                       ++ [saga_failed (name step) (str e)] |})).
  { unfold loop_body. by rewrite Hx. }
  pose proof (loop_raises _ _ _ _ _ _ _ _ _ Hr Hb) as Hf.
  unfold execute_saga. by rewrite Hf.
Qed.

(** The loop leaves the flags of the context as they are. *)
Lemma loop_keeps_flags pending i (s : Run) pending' j t :
  loop_reaches pending i s pending' j t ->
  failed (context t) = failed (context s) /\
  error (context t) = error (context s).
Proof.
  induction 1 as [|step rest i s s' pending' j t Hb Hr [IH1 IH2]]; [done|].
  unfold loop_body in Hb.
  destruct (execute step (results (context s)) (world s)) as [[r|e] w]; [|done].
  injection Hb as <-. by rewrite IH1, IH2.
Qed.

(** [_rollback], had it been reached: its loop ends at the first
    compensation that raises, and the steps completed before that one are
    left as they are. *)
Lemma rollback_stops_at_the_first_failure
      (before after : list SagaStep) c undo (w w1 w2 : W) tr tr1 e :
  compensate_each before w tr = (Return tt, w1, tr1) ->
  compensate c = Some undo ->
  undo w1 = (Raise e, w2) ->
  compensate_each (before ++ c :: after) w tr
  = (Raise (LoggerTypeError "saga_id"), w2,
     (tr1 ++ [saga_compensate (name c)])
       ++ [saga_compensate_failed (name c) (str e)]).
Proof.
  revert w tr. induction before as [|b before IH]; intros w tr Hb Hc Hu.
  - cbn in Hb. injection Hb as -> ->. cbn. by rewrite Hc, Hu.
  - cbn [app compensate_each] in *.
    destruct (compensate b) as [undo_b|]; [|by apply IH].
    destruct (undo_b w) as [[u|e'] w'].
    + by apply IH.
    + cbn in Hb. done.
Qed.

(** C2, as the code has it.  When the step at index [k] raises [e], the
    handler of [execute] starts with [logger.error("saga_failed",
    saga_id=...)], which raises [TypeError]: that error, not [e], is what
    the caller gets; [failed] and [error] are not set; and [_rollback] is
    not reached, so that no compensation is awaited and the effects of the
    completed steps stay as the failing step left them. *)
Theorem failed_step_is_not_rolled_back (s s_k : Run) step rest k e w :
  loop_reaches (steps (context s)) 0 s (step :: rest) k s_k ->
  execute step (results (context s_k)) (world s_k) = (Raise e, w) ->
  exists s',
    execute_saga s = (Raise (LoggerTypeError "saga_id"), s') /\
    world s' = w /\
    context s' = context s_k /\
    failed (context s') = failed (context s) /\
    error (context s') = error (context s) /\
    trace s'
    = trace s_k
      ++ [saga_step_start (name step); saga_failed (name step) (str e)] /\
    compensations (trace s') = compensations (trace s_k).
Proof.
  intros Hr Hx. rewrite (raise_is_not_rolled_back s s_k step rest k e w Hr Hx).
  destruct (loop_keeps_flags _ _ _ _ _ _ Hr) as [Hf He].
  eexists. split; [reflexivity|]. cbn [world context trace].
  split; [done|]. split; [done|]. split; [done|]. split; [done|].
  split; [by rewrite <- app_assoc|].
  unfold compensations. rewrite !omap_app. cbn. by rewrite !app_nil_r.
Qed.

(** C3, amended.  From a context that has completed nothing, at every turn
    of the loop of [execute] the completed steps are the first [i] steps of
    the context, in their order, [i] being the index of the step the loop
    takes next; the records of the run are those of the steps before [i],
    each started after the one before it is complete.  When [execute] is
    over, the completed steps are still a prefix: all the steps if it
    returns, and if the step at index [k] raises, the [k] steps before
    it. *)
Theorem completed_steps_is_prefix (s : Run) :
  completed_steps (context s) = [] ->
  (forall pending i t,
      loop_reaches (steps (context s)) 0 s pending i t ->
      completed_steps (context t) = take i (steps (context t)) /\
      Forall2 same_step (steps (context t)) (steps (context s)) /\
      pending = drop i (steps (context s)) /\
      trace t = trace s ++ flat_map step_events (take i (steps (context s)))) /\
  (exists k s',
      completed_steps (context s') = take k (steps (context s')) /\
      Forall2 same_step (steps (context s')) (steps (context s)) /\
      ((execute_saga s = (Return (context s'), s') /\
        k = length (steps (context s)) /\
        trace s' = trace s ++ flat_map step_events (steps (context s)))
       \/
       (exists e step,
           execute_saga s = (Raise (LoggerTypeError "saga_id"), s') /\
           steps (context s) !! k = Some step /\
           trace s'
           = trace s ++ flat_map step_events (take k (steps (context s)))
             ++ [saga_step_start (name step); saga_failed (name step) (str e)]))).
Proof.
  intros Hfresh. pose proof (loop_inv_start s Hfresh) as H0. split.
  - intros pending i t Hr. apply loop_inv_prefix.
    by eapply loop_inv_reaches.
  - destruct (for_steps_cases (steps (context s)) 0 s)
      as [(t & Hf & Hr)|(e & f & step & rest & k & s_k & Hf & Hr & Hb)].
    + pose proof (loop_inv_prefix _ _ _ _ (loop_inv_reaches _ _ _ _ _ _ _ Hr H0))
        as (Hc & Hsame & _ & Ht).
      simpl in *. exists (length (steps (context s))), t.
      split; [done|]. split; [done|]. left.
      unfold execute_saga. rewrite Hf. split; [done|]. split; [done|].
      by rewrite firstn_all in Ht.
    + pose proof (loop_inv_prefix _ _ _ _ (loop_inv_reaches _ _ _ _ _ _ _ Hr H0))
        as (Hc & Hsame & Hp & Ht).
      assert (Hx : exists w, execute step (results (context s_k)) (world s_k)
                             = (Raise e, w)).
      { unfold loop_body in Hb.
        destruct (execute step (results (context s_k)) (world s_k)) as [[r|e'] w];
          [done|]. injection Hb as -> _. by exists w. }
      destruct Hx as [w Hx].
      pose proof (raise_is_not_rolled_back s s_k step rest k e w Hr Hx) as He.
      exists k,
        {| context := context s_k; world := w;
           trace := (trace s_k ++ [saga_step_start (name step)])
                      ++ [saga_failed (name step) (str e)] |}.
      split; [exact Hc|]. split; [exact Hsame|].
      right. exists e, step. split; [exact He|]. split.
      { rewrite <- (take_drop k (steps (context s))), <- Hp.
        rewrite lookup_app_r; rewrite length_take.
        - apply Forall2_length in Hsame.
          assert (k <= length (steps (context s)))%nat.
          { destruct (decide (k <= length (steps (context s)))%nat) as [|Hn];
              [done|]. rewrite drop_ge in Hp by lia. done. }
          by replace (k - k `min` length (steps (context s)))%nat with 0%nat by lia.
        - lia. }
      cbn [trace]. rewrite Ht. by rewrite <- !app_assoc.
Qed.

End Orchestrator.

(** The sample saga: the notification raises, and nothing is undone; the
    caller gets the error of the logger. *)
Example sample_saga_is_not_rolled_back :
  let '(o, s') := execute_saga Samples.saga_run in
  o = Raise (LoggerTypeError "saga_id") /\
  world s' = ["upload"; "extract"; "save"; "notify"] /\
  failed (context s') = false /\
  trace s'
  = [saga_step_start "upload_image"; saga_step_complete "upload_image";
     saga_step_start "extract_recipe"; saga_step_complete "extract_recipe";
     saga_step_start "save_recipe"; saga_step_complete "save_recipe";
     saga_step_start "notify_user"; saga_failed "notify_user" "notifier down"].
Proof. vm_compute. by repeat split. Qed.

(** [_rollback] on the sample saga once its first three steps are
    completed: the compensation of the third raises, and that of the first
    is not awaited. *)
Example sample_rollback_stops :
  let '(o, s') := _rollback Samples.saga_run_at_3 in
  o = Raise (LoggerTypeError "saga_id") /\
  world s' = ["upload"; "extract"; "save"; "delete recipe"] /\
  compensations (trace s') = ["save_recipe"].
Proof. vm_compute. by repeat split. Qed.

(** C3 as stated fails on a context that comes with completed steps: the
    loop appends to them, and what it leaves is no prefix of the steps. *)
Lemma completed_steps_of_a_used_context_is_no_prefix :
  exists c s',
    execute_saga Samples.saga_run_again = (Return c, s') /\
    length (steps c) = 1%nat /\
    length (completed_steps c) = 2%nat /\
    forall k, completed_steps c <> take k (steps c).
Proof.
  eexists _, _. split; [reflexivity|]. split; [reflexivity|].
  split; [reflexivity|].
  intros k H. apply (f_equal length) in H. rewrite length_take in H.
  cbn in H. lia.
Qed.

Lemma sample_reaches_notify :
  loop_reaches (steps (context Samples.saga_run)) 0 Samples.saga_run
               [Samples.step_notify] 3 Samples.saga_run_at_3.
Proof.
  eapply reaches_next; [reflexivity|].
  eapply reaches_next; [reflexivity|].
  eapply reaches_next; [reflexivity|].
  apply reaches_here.
Defined.

Lemma failed_step_is_not_rolled_back_witness :
  exists s',
    execute_saga Samples.saga_run = (Raise (LoggerTypeError "saga_id"), s') /\
    world s' = ["upload"; "extract"; "save"; "notify"] /\
    context s' = context Samples.saga_run_at_3 /\
    failed (context s') = failed (context Samples.saga_run) /\
    error (context s') = error (context Samples.saga_run) /\
    trace s'
    = trace Samples.saga_run_at_3
      ++ [saga_step_start (name Samples.step_notify);
          saga_failed (name Samples.step_notify) (str Samples.notifier_down)] /\
    compensations (trace s') = compensations (trace Samples.saga_run_at_3).
Proof.
  apply (failed_step_is_not_rolled_back Samples.saga_run Samples.saga_run_at_3
           Samples.step_notify [] 3 Samples.notifier_down
           ["upload"; "extract"; "save"; "notify"]).
  - exact sample_reaches_notify.
  - reflexivity.
Defined.

Lemma completed_steps_is_prefix_witness :
  completed_steps (context Samples.saga_run) = [] /\
  exists k s',
    completed_steps (context s') = take k (steps (context s')) /\
    Forall2 same_step (steps (context s')) (steps (context Samples.saga_run)) /\
    ((execute_saga Samples.saga_run = (Return (context s'), s') /\
      k = length (steps (context Samples.saga_run)) /\
      trace s'
      = trace Samples.saga_run
        ++ flat_map step_events (steps (context Samples.saga_run)))
     \/
     (exists e step,
         execute_saga Samples.saga_run = (Raise (LoggerTypeError "saga_id"), s') /\
         steps (context Samples.saga_run) !! k = Some step /\
         trace s'
         = trace Samples.saga_run
           ++ flat_map step_events (take k (steps (context Samples.saga_run)))
           ++ [saga_step_start (name step); saga_failed (name step) (str e)])).
Proof.
  split; [reflexivity|].
  apply (completed_steps_is_prefix Samples.saga_run). reflexivity.
Defined.

End SagaFacts.

(** ** The recipe-extraction saga *)

Module RecipeExtractionFacts.

Import RecipeExtraction.

Section Saga.

Context {X RecipeData : Type}.
Variable storage_upload_file : string -> string -> X -> Outcome string * X.
Variable storage_delete_file : string -> X -> Outcome unit * X.
Variable ai_extract_recipe : option string -> X -> Outcome RecipeData * X.
Variable recipe_save_family_recipe :
  string -> option (@Any RecipeData) -> option string -> string -> X ->
  Outcome string * X.
Variable recipe_soft_delete_recipe : string -> X -> Outcome unit * X.
Variable notification_send_recipe_confirmation :
  string -> option string -> option string -> X -> Outcome unit * X.
Variable notification_send_recipe_failure :
  string -> string -> X -> Outcome unit * X.
Variable get_title : RecipeData -> option string.
Variables (image_data household_id member_id saga_id : string).

Abbreviation run x :=
  (extraction_run storage_upload_file storage_delete_file ai_extract_recipe
     recipe_save_family_recipe recipe_soft_delete_recipe
     notification_send_recipe_confirmation get_title
     image_data household_id member_id saga_id x).

Abbreviation execute_extraction' x :=
  (execute_extraction storage_upload_file storage_delete_file ai_extract_recipe
     recipe_save_family_recipe recipe_soft_delete_recipe
     notification_send_recipe_confirmation notification_send_recipe_failure
     get_title image_data household_id member_id saga_id x).

(** C10, as the code has it.  When a step of the saga raises, the
    orchestrator raises the [TypeError] of its [logger.error];
    [execute_extraction] catches it, and its own
    [logger.error("recipe_extraction_failed", correlation_id=...)] raises
    in its turn.  That second [TypeError] is what the caller gets: no dict
    is returned, [send_recipe_failure] is not called, and the services are
    as the failing step left them. *)
Theorem execute_extraction_raises_on_step_failure (x : X) s_k step rest k e w :
  SagaBase.loop_reaches (SagaBase.steps (SagaBase.context (run x))) 0 (run x)
                        (step :: rest) k s_k ->
  SagaBase.execute step (SagaBase.results (SagaBase.context s_k))
                   (SagaBase.world s_k) = (Raise e, w) ->
  execute_extraction' x = (Raise (LoggerTypeError "correlation_id"), services w) /\
  (forall d x', execute_extraction' x <> (Return d, x')).
Proof.
  intros Hr Hx.
  pose proof (SagaFacts.raise_is_not_rolled_back _ _ _ _ _ _ _ Hr Hx) as He.
  assert (H : execute_extraction' x
              = (Raise (LoggerTypeError "correlation_id"), services w)).
  { unfold execute_extraction. by rewrite He. }
  split; [done|]. intros d x'. by rewrite H.
Qed.

End Saga.

(** The storage is down: the upload raises, nothing is notified, and
    [execute_extraction] raises the error of its logger. *)
Example extraction_with_storage_down :
  Samples.sample_extraction true []
  = (Raise (LoggerTypeError "correlation_id"), ["upload_file"]).
Proof. reflexivity. Qed.

Lemma execute_extraction_raises_on_step_failure_witness :
  Samples.sample_extraction true []
  = (Raise (LoggerTypeError "correlation_id"),
     services {| services := ["upload_file"]; image_url := None;
                 recipe_id := None |}) /\
  (forall d x', Samples.sample_extraction true [] <> (Return d, x')).
Proof.
  eapply (execute_extraction_raises_on_step_failure
            Samples.upload_fails Samples.delete_file_ok
            Samples.extract_ok Samples.save_ok Samples.soft_delete_ok
            Samples.confirmation_ok (Samples.failure_notice true)
            Samples.no_title
            "jpeg-bytes" "household-1" "member-7" "saga-1" []).
  - apply SagaBase.reaches_here.
  - reflexivity.
Defined.

End RecipeExtractionFacts.

(** ** The rate-limited AI service *)

Module RateLimitedFacts.

Import RateLimited.

Section Service.

Context {X Recipe : Type}.
Variable messages_create : string -> X -> Reply * X.
Variable json_loads : string -> Outcome Recipe.
Variable is_dict : Recipe -> bool.

Abbreviation call image_url household_id correlation_id priority s :=
  (extract_recipe messages_create json_loads is_dict
                  image_url household_id correlation_id priority s).

(** C6, as the code has it.  The counters are kept for each owner, but the
    errors that the caller gets are those of the logger.
    - A call for an owner whose counter has reached the ceiling leaves the
      service as it was: no request is made, no slot is taken.  It does not
      raise the attempts-exhausted error: the [logger.warning] before that
      [raise] raises [TypeError].
    - A call whose request fails adds one to the counter of its owner, and
      raises the [TypeError] of [logger.error], not the error of the
      request.
    - A call that succeeds with a dict sets the counter of its owner to
      zero and returns the dict; with a result that is no dict it counts a
      success and a failure, adds one to the counter and raises the
      [TypeError].
    - None of them touches the counter of another owner, so an owner under
      its ceiling is served while another one is exhausted. *)
Theorem budget_errors_are_those_of_the_logger
        (image_url correlation_id : string)
        (priority : Z) (a : string) (s : @Service X) :
  (max_retries s <= retry_count a s ->
   call image_url a correlation_id priority s
   = (Some (Raise (LoggerTypeError "correlation_id")), s)) /\
  (forall e x,
      retry_count a s < max_retries s -> 0 < semaphore s ->
      _execute_extraction messages_create json_loads image_url correlation_id
                          (client s) = (Raise e, x) ->
      exists s',
        call image_url a correlation_id priority s
        = (Some (Raise (LoggerTypeError "correlation_id")), s') /\
        retry_count a s' = retry_count a s + 1 /\
        failed (metrics s') = failed (metrics s) + 1 /\
        semaphore s' = semaphore s /\
        client s' = x /\
        forall b, b <> a -> retry_count b s' = retry_count b s) /\
  (forall r x,
      retry_count a s < max_retries s -> 0 < semaphore s ->
      _execute_extraction messages_create json_loads image_url correlation_id
                          (client s) = (Return r, x) ->
      exists s',
        call image_url a correlation_id priority s
        = (Some (if is_dict r then Return r
                 else Raise (LoggerTypeError "correlation_id")), s') /\
        retry_count a s' = (if is_dict r then 0 else retry_count a s + 1) /\
        successful (metrics s') = successful (metrics s) + 1 /\
        failed (metrics s')
        = failed (metrics s) + (if is_dict r then 0 else 1) /\
        semaphore s' = semaphore s /\
        client s' = x /\
        forall b, b <> a -> retry_count b s' = retry_count b s) /\
  (forall b r x,
      b <> a ->
      max_retries s <= retry_count a s ->
      retry_count b s < max_retries s -> 0 < semaphore s ->
      _execute_extraction messages_create json_loads image_url correlation_id
                          (client s) = (Return r, x) ->
      is_dict r = true ->
      exists s',
        call image_url b correlation_id priority s = (Some (Return r), s') /\
        retry_count a s' = retry_count a s /\
        max_retries s' <= retry_count a s').
Proof.
  assert (Hok : forall c r x,
             retry_count c s < max_retries s -> 0 < semaphore s ->
             _execute_extraction messages_create json_loads image_url
                                 correlation_id (client s) = (Return r, x) ->
             exists s',
               call image_url c correlation_id priority s
               = (Some (if is_dict r then Return r
                        else Raise (LoggerTypeError "correlation_id")), s') /\
               retry_count c s' = (if is_dict r then 0 else retry_count c s + 1) /\
               successful (metrics s') = successful (metrics s) + 1 /\
               failed (metrics s')
               = failed (metrics s) + (if is_dict r then 0 else 1) /\
               semaphore s' = semaphore s /\
               client s' = x /\
               max_retries s' = max_retries s /\
               forall b, b <> c -> retry_count b s' = retry_count b s).
  { intros c r x Hc Hs Hx. unfold extract_recipe. fold (retry_count c s).
    rewrite bool_decide_eq_false_2 by lia. simpl.
    rewrite bool_decide_eq_true_2 by done. rewrite Hx.
    destruct (is_dict r); cbn.
    - eexists. split; [reflexivity|].
      split; [unfold retry_count; simpl; by rewrite lookup_insert_eq|].
      split; [done|]. split; [simpl; lia|]. split; [simpl; lia|].
      split; [done|]. split; [done|].
      intros b Hb. unfold retry_count. simpl. by rewrite lookup_insert_ne.
    - eexists. split; [reflexivity|].
      split; [unfold retry_count; simpl; by rewrite lookup_insert_eq|].
      split; [done|]. split; [done|]. split; [simpl; lia|].
      split; [done|]. split; [done|].
      intros b Hb. unfold retry_count. simpl.
      by rewrite !lookup_insert_ne. }
  split; [|split; [|split]].
  - intros Hex. unfold extract_recipe. fold (retry_count a s).
    by rewrite bool_decide_eq_true_2.
  - intros e x Hc Hs Hx. unfold extract_recipe. fold (retry_count a s).
    rewrite bool_decide_eq_false_2 by lia. simpl.
    rewrite bool_decide_eq_true_2 by done. rewrite Hx. cbn.
    eexists. split; [reflexivity|].
    split; [unfold retry_count; simpl; by rewrite lookup_insert_eq|].
    split; [done|]. split; [simpl; lia|]. split; [done|].
    intros b Hb. unfold retry_count. simpl. by rewrite lookup_insert_ne.
  - intros r x Hc Hs Hx. destruct (Hok a r x Hc Hs Hx)
      as (s' & H1 & H2 & H3 & H4 & H5 & H6 & _ & H7). by exists s'.
  - intros b r x Hne Hex Hc Hs Hx Hd. destruct (Hok b r x Hc Hs Hx)
      as (s' & H1 & _ & _ & _ & _ & _ & Hm & H5).
    rewrite Hd in H1.
    exists s'. split; [done|]. rewrite Hm, (H5 a) by done. done.
Qed.

End Service.

(** Owner A has used up its attempts: its call ends in the error of the
    logger, not in the attempts-exhausted error. *)
Example exhausted_call_raises_type_error :
  extract_recipe Samples.client_answers Samples.recipe_loads
                 Samples.answer_is_dict
                 "https://img/1.jpg" "household-A" "corr-1" 0
                 Samples.service_a_exhausted
  = (Some (Raise (PyExc "TypeError"
       "Logger._log() got an unexpected keyword argument 'correlation_id'")),
     Samples.service_a_exhausted) /\
  Exhausted 3 <> LoggerTypeError "correlation_id".
Proof. split; [reflexivity|discriminate]. Qed.

Lemma budget_errors_are_those_of_the_logger_witness :
  (max_retries Samples.service_a_exhausted
   <= retry_count "household-A" Samples.service_a_exhausted /\
   extract_recipe Samples.client_answers Samples.recipe_loads
                  Samples.answer_is_dict
                  "https://img/1.jpg" "household-A" "corr-1" 0
                  Samples.service_a_exhausted
   = (Some (Raise (LoggerTypeError "correlation_id")),
      Samples.service_a_exhausted)) /\
  exists s',
    extract_recipe Samples.client_answers Samples.recipe_loads
                   Samples.answer_is_dict
                   "https://img/1.jpg" "household-B" "corr-1" 0
                   Samples.service_a_exhausted
    = (Some (Return "{}"), s') /\
    retry_count "household-A" s'
    = retry_count "household-A" Samples.service_a_exhausted /\
    max_retries s' <= retry_count "household-A" s'.
Proof.
  pose proof (budget_errors_are_those_of_the_logger
                Samples.client_answers Samples.recipe_loads
                Samples.answer_is_dict
                "https://img/1.jpg" "corr-1" 0 "household-A"
                Samples.service_a_exhausted) as (Hfast & _ & _ & Hother).
  assert (Hex : max_retries Samples.service_a_exhausted
                <= retry_count "household-A" Samples.service_a_exhausted).
  { vm_compute. discriminate. }
  split.
  - split; [exact Hex|]. exact (Hfast Hex).
  - apply (Hother "household-B" "{}" tt).
    + discriminate.
    + exact Hex.
    + reflexivity.
    + reflexivity.
    + reflexivity.
    + reflexivity.
Defined.

End RateLimitedFacts.

(** ** The batch SMS sender *)

Module BatchSenderFacts.

Import BatchSender.

Abbreviation message_of :=
  (fun p : SMSMessage * Outcome string * list SendEvent => p.1.1).

Section Sender.

Context {X : Type}.
Variable send_message :
  string -> string -> option string -> X -> Outcome string * X.
Variable send_media_message :
  string -> string -> string -> option string -> X -> Outcome string * X.

Abbreviation Sender := (@Sender).

Abbreviation outcome_of :=
  (fun p : SMSMessage * Outcome string * list SendEvent => (p.1.1, p.1.2)).

Abbreviation as_reported :=
  (fun q : SMSMessage * Outcome string =>
     (q.1, match q.2 with
           | Return message_id => Return message_id
           | Raise _ => Raise (LoggerTypeError "correlation_id")
           end)).

(** One send is one attempt at most: the first answer of the provider
    decides, a message id being returned and an error being replaced by
    the [TypeError] of the logger; with no attempt allowed the provider is
    not asked. *)
Lemma send_with_retry_once msg (s : Sender) (x : X) :
  _send_with_retry send_message send_media_message msg s x
  = if bool_decide (0 < retry_attempts s) then
      match provider_send send_message send_media_message msg x with
      | (Return message_id, x') =>
          (Return message_id, with_stats (stats s) s, x', [sms_sent 1])
      | (Raise e, x') =>
          (Raise (LoggerTypeError "correlation_id"), with_stats (stats s) s, x',
           [sms_send_failed 1 (str e)])
      end
    else
      (Raise (LoggerTypeError "correlation_id"), with_stats (stats s) s, x,
       [sms_send_exhausted (retry_attempts s) "None"]).
Proof.
  unfold _send_with_retry.
  destruct (bool_decide_reflect (0 < retry_attempts s)) as [Hra|Hra].
  - destruct (Z.to_nat (retry_attempts s)) as [|n] eqn:En; [lia|].
    cbn [attempts].
    by destruct (provider_send send_message send_media_message msg x)
      as [[mid|e] x'].
  - replace (Z.to_nat (retry_attempts s)) with 0%nat by lia. done.
Qed.

Lemma with_stats_same (s : Sender) : with_stats (stats s) s = s.
Proof. by destruct s. Qed.

Lemma gather_spec batch (s : Sender) (x : X) :
  let '(outs, s', x') := gather send_message send_media_message batch s x in
  map message_of outs = batch /\
  (s' = s /\
   Forall (fun p => slept p.2 = 0 /\ length p.2 = 1%nat) outs /\
   if bool_decide (0 < retry_attempts s) then
     x' = (asked_once send_message send_media_message batch x).2 /\
     map outcome_of outs
     = map as_reported (asked_once send_message send_media_message batch x).1
   else
     x' = x /\
     outs = map (fun m => (m, Raise (LoggerTypeError "correlation_id"),
                           [sms_send_exhausted (retry_attempts s) "None"]))
                batch) /\
  rate_limit s' = rate_limit s /\
  retry_attempts s' = retry_attempts s /\
  queue s' = queue s.
Proof.
  revert x. induction batch as [|msg rest IH]; intros x; cbn [gather].
  - split; [done|]. split; [|done]. split; [done|]. split; [constructor|].
    by destruct (bool_decide _).
  - rewrite send_with_retry_once, with_stats_same.
    destruct (bool_decide_reflect (0 < retry_attempts s)) as [Hra|Hra].
    + cbn [asked_once].
      change (match media_url msg with
              | Some (String a u) =>
                  send_media_message (to msg) (body msg) (String a u)
                                     (from_number msg) x
              | _ => send_message (to msg) (body msg) (from_number msg) x
              end)
        with (provider_send send_message send_media_message msg x).
      destruct (provider_send send_message send_media_message msg x)
        as [[mid|e] x1].
      * specialize (IH x1).
        destruct (gather send_message send_media_message rest s x1)
          as [[os s2] x2].
        destruct (asked_once send_message send_media_message rest x1)
          as [asked x3].
        destruct IH as (Hm & (-> & Hf & Hx & Ho) & _). cbn in Hx, Ho |- *.
        split; [by rewrite Hm|]. split; [|done]. split; [done|].
        split; [by constructor|]. split; [done|]. by rewrite Ho.
      * specialize (IH x1).
        destruct (gather send_message send_media_message rest s x1)
          as [[os s2] x2].
        destruct (asked_once send_message send_media_message rest x1)
          as [asked x3].
        destruct IH as (Hm & (-> & Hf & Hx & Ho) & _). cbn in Hx, Ho |- *.
        split; [by rewrite Hm|]. split; [|done]. split; [done|].
        split; [by constructor|]. split; [done|]. by rewrite Ho.
    + specialize (IH x).
      destruct (gather send_message send_media_message rest s x)
        as [[os s2] x2].
      destruct IH as (Hm & (-> & Hf & -> & ->) & _). cbn.
      split; [by rewrite map_map, map_id|]. split; [|done]. split; [done|].
      split; [|done]. constructor; [done|]. done.
Qed.

Lemma collect_spec outs results st :
  let '(results', _) := collect outs results st in
  success results' = success results ++ successes outs /\
  failed results' = failed results ++ failures outs.
Proof.
  revert results st. induction outs as [|[[msg o] tr] rest IH];
    intros results st; simpl.
  - by rewrite !app_nil_r.
  - destruct o as [mid|e].
    + pose proof (IH {| success := success results ++ [(to msg, mid)];
                        failed := failed results |} (incr_sent st)) as H.
      destruct (collect rest _ _) as [r' st']. simpl in H.
      destruct H as [-> ->]. unfold successes, failures. simpl.
      by rewrite <- app_assoc.
    + pose proof (IH {| success := success results;
                        failed := failed results ++ [(to msg, str e)] |}
                     (incr_failed st)) as H.
      destruct (collect rest _ _) as [r' st']. simpl in H.
      destruct H as [-> ->]. unfold successes, failures. simpl.
      by rewrite <- app_assoc.
Qed.

Lemma accounted outs :
  (length (successes outs) + length (failures outs))%nat = length outs.
Proof.
  induction outs as [|[[msg o] tr] rest IH]; [done|]. destruct o as [mid|e].
  - change (successes ((msg, Return mid, tr) :: rest))
      with ((to msg, mid) :: successes rest).
    change (failures ((msg, Return mid, tr) :: rest)) with (failures rest).
    simpl. lia.
  - change (successes ((msg, Raise e, tr) :: rest)) with (successes rest).
    change (failures ((msg, Raise e, tr) :: rest))
      with ((to msg, str e) :: failures rest).
    simpl. lia.
Qed.

Lemma collect_retried outs results st :
  retried (collect outs results st).2 = retried st.
Proof.
  revert results st. induction outs as [|[[msg o] t] rest IH];
    intros results st; [done|].
  destruct o as [mid|e]; cbn [collect]; by rewrite IH.
Qed.

Lemma asked_once_app a b (x : X) :
  (asked_once send_message send_media_message (a ++ b) x).1
  = (asked_once send_message send_media_message a x).1
    ++ (asked_once send_message send_media_message b
          (asked_once send_message send_media_message a x).2).1 /\
  (asked_once send_message send_media_message (a ++ b) x).2
  = (asked_once send_message send_media_message b
       (asked_once send_message send_media_message a x).2).2.
Proof.
  revert x. induction a as [|m a IH]; intros x; [done|].
  cbn [app asked_once].
  destruct (match media_url m with
            | Some (String c u) =>
                send_media_message (to m) (body m) (String c u) (from_number m) x
            | _ => send_message (to m) (body m) (from_number m) x
            end) as [o x1].
  specialize (IH x1).
  destruct (asked_once send_message send_media_message (a ++ b) x1)
    as [os x2].
  destruct (asked_once send_message send_media_message a x1) as [os1 x3].
  cbn in IH |- *. destruct IH as [-> ->]. done.
Qed.

Lemma asked_once_messages messages (x : X) :
  map fst (asked_once send_message send_media_message messages x).1 = messages.
Proof.
  revert x. induction messages as [|m rest IH]; intros x; [done|].
  cbn [asked_once].
  destruct (match media_url m with
            | Some (String c u) =>
                send_media_message (to m) (body m) (String c u) (from_number m) x
            | _ => send_message (to m) (body m) (from_number m) x
            end) as [o x1].
  specialize (IH x1).
  destruct (asked_once send_message send_media_message rest x1) as [os x2].
  cbn in IH |- *. by rewrite IH.
Qed.

(** The sends of the messages [batch], started with the provider at [x]
    and ended with it at [x']: each is one attempt at most, and with an
    attempt allowed their outcomes are those of the provider asked once
    for each message. *)
Abbreviation sent_once s x x' outs batch :=
  (Forall (fun p : SMSMessage * Outcome string * list SendEvent =>
             slept p.2 = 0 /\ length p.2 = 1%nat) outs /\
   if bool_decide (0 < retry_attempts s) then
     x' = (asked_once send_message send_media_message batch x).2 /\
     map outcome_of outs
     = map as_reported (asked_once send_message send_media_message batch x).1
   else
     x' = x /\
     outs%list = map (fun m => (m, Raise (LoggerTypeError "correlation_id"),
                                [sms_send_exhausted (retry_attempts s) "None"]))
                     batch).

Lemma turn_spec (s : Sender) (x : X) results tr :
  let n := Z.to_nat (rate_limit s) in
  let '(results', s', x', tr') :=
    turn send_message send_media_message s x results tr in
  exists outs,
    map message_of outs = take n (queue s) /\
    (retried (stats s') = retried (stats s) /\
     sent_once s x x' outs (take n (queue s))) /\
    success results' = success results ++ successes outs /\
    failed results' = failed results ++ failures outs /\
    queue s' = drop n (queue s) /\
    rate_limit s' = rate_limit s /\
    retry_attempts s' = retry_attempts s /\
    windows [window (map (fun p => (p.1.1, p.2)) outs)] = [take n (queue s)] /\
    tr' = tr ++ window (map (fun p => (p.1.1, p.2)) outs)
                :: match drop n (queue s) with
                   | [] => []
                   | _ :: _ => [rate_limit_sleep 1]
                   end.
Proof.
  unfold turn.
  pose proof (gather_spec (take (Z.to_nat (rate_limit s)) (queue s))
                (with_queue (drop (Z.to_nat (rate_limit s)) (queue s)) s) x) as Hg.
  destruct (gather _ _ _ _ _) as [[outs s1] x1].
  destruct Hg as (Hm & (-> & Hpin) & Hr & Ha & Hq). simpl in Hpin.
  pose proof (collect_spec outs results
                (stats (with_queue (drop (Z.to_nat (rate_limit s)) (queue s)) s)))
    as Hc.
  pose proof (collect_retried outs results
                (stats (with_queue (drop (Z.to_nat (rate_limit s)) (queue s)) s)))
    as Hret.
  destruct (collect outs results _) as [results' st']. simpl.
  simpl in Hret. destruct Hc as [Hs Hfl].
  exists outs.
  split; [done|]. split; [done|]. split; [done|]. split; [done|].
  split; [done|]. split; [done|]. split; [done|]. split.
  - unfold windows. simpl. rewrite map_map. simpl. by rewrite Hm.
  - destruct (drop _ _); by rewrite <- ?app_assoc.
Qed.

Lemma successes_app a b : successes (a ++ b) = successes a ++ successes b.
Proof. unfold successes. apply omap_app. Qed.

Lemma failures_app a b : failures (a ++ b) = failures a ++ failures b.
Proof. unfold failures. apply omap_app. Qed.

Lemma windows_app a b : windows (a ++ b) = windows a ++ windows b.
Proof. unfold windows. apply omap_app. Qed.

(** The loop ends once it has fuel for more turns than there are messages
    in the queue, and accounts for each of them. *)
Lemma drain_spec k :
  forall (s : Sender) (x : X) results tr,
    length (queue s) = k ->
    0 < rate_limit s ->
    exists results' s' x' seg outs,
      (forall fuel, (k < fuel)%nat ->
         drain send_message send_media_message fuel s x results tr
         = Some (results', s', x', tr ++ seg)) /\
      map message_of outs = queue s /\
      (retried (stats s') = retried (stats s) /\
       sent_once s x x' outs (queue s)) /\
      success results' = success results ++ successes outs /\
      failed results' = failed results ++ failures outs /\
      queue s' = [] /\
      paced seg /\
      chunked (Z.to_nat (rate_limit s)) (queue s) (windows seg) /\
      (seg = [] <-> queue s = []).
Proof.
  induction k as [k IH] using lt_wf_ind. intros s x results tr Hk Hrate.
  destruct (queue s) as [|m q] eqn:Hq.
  - exists results, s, x, [], []. simpl.
    split.
    { intros [|fuel] Hfuel; [lia|]. simpl. by rewrite Hq, app_nil_r. }
    split; [done|]. split.
    { split; [done|]. split; [constructor|]. by destruct (bool_decide _). }
    rewrite !app_nil_r. repeat split; auto; constructor.
  - pose proof (turn_spec s x results tr) as Ht. simpl in Ht.
    destruct (turn send_message send_media_message s x results tr)
      as [[[r1 s1] x1] tr1] eqn:Hturn.
    destruct Ht as (outs1 & Hm1 & (Hret1 & Hone1 & Hpin1) & Hs1 & Hfl1 & Hq1
                    & Hr1 & Ha1 & Hw1 & Htr1).
    set (n := Z.to_nat (rate_limit s)) in *.
    assert (Hn : (1 <= n)%nat) by (unfold n; lia).
    rewrite Hq in Hm1, Hq1, Hw1, Htr1, Hpin1.
    assert (Hshort : (length (queue s1) < k)%nat).
    { rewrite Hq1, length_drop. simpl in *. lia. }
    destruct (IH (length (queue s1)) Hshort s1 x1 r1 tr1 eq_refl)
      as (r' & s' & x' & seg' & outs' & Hrun & Hm' & (Hret' & Hone' & Hpin')
          & Hs' & Hfl' & Hq' & Hp' & Hc' & He');
      [lia|].
    rewrite Hr1, Hq1 in Hc'. fold n in Hc'.
    rewrite Ha1, Hq1 in Hpin'.
    exists r', s', x',
      (window (map (fun p => (p.1.1, p.2)) outs1)
         :: match drop n (m :: q) with
            | [] => []
            | _ :: _ => [rate_limit_sleep 1]
            end ++ seg'),
      (outs1 ++ outs').
    split; [|split; [|split; [|split; [|split; [|split; [|split; [|split]]]]]]].
    + intros [|fuel] Hfuel; [lia|]. simpl. rewrite Hq, Hturn.
      rewrite (Hrun fuel) by lia. rewrite Htr1. f_equal.
      by rewrite <- app_assoc.
    + rewrite map_app, Hm1, Hm', Hq1. apply take_drop.
    + split; [congruence|]. split; [by apply Forall_app|].
      destruct (asked_once_app (take n (m :: q)) (drop n (m :: q)) x)
        as [Ha Hb].
      rewrite take_drop in Ha, Hb.
      destruct (bool_decide (0 < retry_attempts s)).
      * destruct Hpin1 as [Hx1 Ho1]. destruct Hpin' as [Hx' Ho'].
        rewrite <- Hx1 in Ha, Hb.
        split; [by rewrite Hb|].
        by rewrite Ha, !map_app, Ho1, Ho'.
      * destruct Hpin1 as [Hx1 Ho1]. destruct Hpin' as [Hx' Ho'].
        split; [congruence|].
        rewrite Ho1, Ho', <- map_app, take_drop. done.
    + rewrite Hs', Hs1, successes_app. by rewrite <- app_assoc.
    + rewrite Hfl', Hfl1, failures_app. by rewrite <- app_assoc.
    + done.
    + destruct (drop n (m :: q)) as [|m' q'] eqn:Hd.
      * simpl. rewrite Hq1 in He'. destruct He' as [_ He'].
        rewrite (He' eq_refl). constructor.
      * simpl. constructor; [|done].
        intros Hnil. apply He' in Hnil. rewrite Hq1 in Hnil. done.
    + assert (Hw : windows (window (map (fun p => (p.1.1, p.2)) outs1)
                              :: match drop n (m :: q) with
                                 | [] => []
                                 | _ :: _ => [rate_limit_sleep 1]
                                 end ++ seg')
                   = take n (m :: q) :: windows seg').
      { change (windows (window ?w :: ?r))
          with (map fst w :: windows r).
        rewrite map_map. simpl. f_equal; [done|].
        by destruct (drop n (m :: q)). }
      rewrite Hw. by constructor.
    + split; [done|]. done.
Qed.

Lemma chunked_concat {A} n (q : list A) ws : chunked n q ws -> concat ws = q.
Proof.
  induction 1 as [|q cs Hne Hc IH]; [done|]. simpl. rewrite IH. apply take_drop.
Qed.

Lemma chunked_step {A} n (q : list A) ws :
  (0 < length q)%nat -> chunked n q ws ->
  exists cs, ws = take n q :: cs /\ chunked n (drop n q) cs.
Proof.
  intros Hl Hc. destruct Hc as [|q cs Hne Hc]; [simpl in Hl; lia|]. by exists cs.
Qed.

Lemma chunked_end {A} n (q : list A) ws :
  length q = 0%nat -> chunked n q ws -> ws = [].
Proof.
  intros Hl Hc. destruct Hc as [|q cs Hne Hc]; [done|].
  by destruct q.
Qed.

Lemma paced_spaced seg :
  paced seg -> forall took i now, spaced 1 (window_starts took i now seg).
Proof.
  induction 1 as [|sends|sends rest Hne Hp IH]; intros took i now; simpl; auto.
  destruct Hp as [|sends'|sends' rest' Hne' Hp']; [done| |].
  - simpl. split; [lia|done].
  - specialize (IH took (S (S i)) (now + 1 + Z.of_nat (took (S i)) + Z.of_nat (took i))).
    simpl in *.
    replace (now + Z.of_nat (took i) + 1 + Z.of_nat (took (S i)))
      with (now + 1 + Z.of_nat (took (S i)) + Z.of_nat (took i)) by lia.
    split; [lia|]. exact IH.
Qed.

(** What [send_batch] does on a sender whose queue is empty. *)
Lemma send_batch_spec messages (s : Sender) (x : X) :
  0 < rate_limit s ->
  queue s = [] ->
  exists results s' x' tr outs,
    (forall fuel, (length messages < fuel)%nat ->
       send_batch send_message send_media_message fuel messages s x
       = Some (results, s', x', tr)) /\
    map message_of outs = messages /\
    (retried (stats s') = retried (stats s) /\
     sent_once s x x' outs messages) /\
    success results = successes outs /\
    failed results = failures outs /\
    queue s' = [] /\
    paced tr /\
    chunked (Z.to_nat (rate_limit s)) messages (windows tr).
Proof.
  intros Hrate Hq.
  destruct (drain_spec (length messages) (with_queue (queue s ++ messages) s) x
              {| success := []; failed := [] |} [])
    as (results & s' & x' & seg & outs & Hrun & Hm & Hf & Hs & Hfl & Hq' & Hp & Hc & _).
  { simpl. by rewrite Hq. }
  { done. }
  simpl in *. rewrite Hq in *. simpl in *.
  exists results, s', x', seg, outs.
  split; [intros fuel Hfuel; unfold send_batch; rewrite Hq; by apply Hrun|].
  repeat (split; [done|]). done.
Qed.

Lemma reported_of_outs outs asked :
  map outcome_of outs = map as_reported asked ->
  successes outs = success (reported asked) /\
  failures outs = failed (reported asked).
Proof.
  revert asked. induction outs as [|[[m o] t] outs IH]; intros [|[m' o'] asked] H;
    try done.
  cbn in H. injection H as -> Ho Hrest.
  destruct (IH asked Hrest) as [IH1 IH2].
  unfold successes, failures, reported in *. cbn in IH1, IH2 |- *.
  destruct o' as [mid|e]; subst o; cbn; by rewrite IH1, IH2.
Qed.

Lemma results_eq (r r' : Results) :
  success r = success r' -> failed r = failed r' -> r = r'.
Proof. destruct r, r'. cbn. by intros -> ->. Qed.

(** C7, as the code has it.  On a sender whose queue is empty, whose
    window is not, and that is allowed an attempt, [send_batch] returns,
    and each message of the batch appears once in what it returns, in the
    order of the batch: in [success] with the message id of the provider,
    or in [failed].  The provider is asked once for each message and no
    more: a message whose first attempt fails is not sent again, no
    backoff is slept and [retried] is not counted, and the error that
    [failed] holds for it is not that of the provider but the [TypeError]
    of the [logger.warning] in the handler of the attempt. *)
Theorem send_batch_reports_the_first_attempt messages (s : Sender) (x : X) :
  0 < rate_limit s ->
  queue s = [] ->
  0 < retry_attempts s ->
  exists s' tr,
    (forall fuel, (length messages < fuel)%nat ->
       send_batch send_message send_media_message fuel messages s x
       = Some (reported (asked_once send_message send_media_message messages x).1,
               s',
               (asked_once send_message send_media_message messages x).2,
               tr)) /\
    map fst (asked_once send_message send_media_message messages x).1
    = messages /\
    (length (success (reported
               (asked_once send_message send_media_message messages x).1))
     + length (failed (reported
                 (asked_once send_message send_media_message messages x).1)))%nat
    = length messages /\
    (forall entry,
        entry ∈ failed (reported
                  (asked_once send_message send_media_message messages x).1) ->
        entry.2
        = "Logger._log() got an unexpected keyword argument 'correlation_id'") /\
    retried (stats s') = retried (stats s) /\
    queue s' = [].
Proof.
  intros Hrate Hq Hra.
  destruct (send_batch_spec messages s x Hrate Hq)
    as (results & s' & x' & tr & outs & Hrun & Hm & (Hret & _ & Hpin) & Hs & Hfl
        & Hq' & _).
  rewrite bool_decide_eq_true_2 in Hpin by done. destruct Hpin as [-> Ho].
  destruct (reported_of_outs _ _ Ho) as [R1 R2].
  assert (Hres : results
                 = reported (asked_once send_message send_media_message
                                        messages x).1).
  { apply results_eq; congruence. }
  subst results.
  exists s', tr. split; [done|]. split; [apply asked_once_messages|].
  split; [|split; [|done]].
  - rewrite <- R1, <- R2, accounted, <- Hm. by rewrite length_map.
  - intros entry Hin. unfold reported in Hin. cbn [failed] in Hin.
    apply list_elem_of_omap in Hin as ([m o] & _ & Hsome).
    destruct o; cbn in Hsome; [done|]. by injection Hsome as <-.
Qed.

(** C8, amended.  A batch of 250 messages with a window of 80 goes out in
    four windows, of 80, 80, 80 and 10 messages, in the order of the batch;
    each window but the last is followed by a sleep of one second, so two
    windows in a row start at least one second apart; and the two lists of
    the result hold 250 entries together. *)
Theorem batch_of_250_in_windows_of_80 messages (s : Sender) (x : X) :
  length messages = 250%nat ->
  rate_limit s = 80 ->
  queue s = [] ->
  exists results s' x' tr,
    (forall fuel, (250 < fuel)%nat ->
       send_batch send_message send_media_message fuel messages s x
       = Some (results, s', x', tr)) /\
    map length (windows tr) = [80; 80; 80; 10]%nat /\
    length (windows tr) = 4%nat /\
    concat (windows tr) = messages /\
    (forall took now, spaced 1 (window_starts took 0 now tr)) /\
    (length (success results) + length (failed results))%nat = 250%nat.
Proof.
  intros Hlen Hrate Hq.
  destruct (send_batch_spec messages s x ltac:(lia) Hq)
    as (results & s' & x' & tr & outs & Hrun & Hm & Hf & Hs & Hfl & Hq' & Hp & Hc).
  rewrite Hrate in Hc. change (Z.to_nat 80) with 80%nat in Hc.
  exists results, s', x', tr.
  split; [by rewrite <- Hlen|].
  assert (Hw : map length (windows tr) = [80; 80; 80; 10]%nat).
  { pose proof (chunked_concat _ _ _ Hc) as Hcat.
    apply chunked_step in Hc as (c1 & -> & Hc); [|lia].
    apply chunked_step in Hc as (c2 & -> & Hc); [|rewrite length_drop; lia].
    apply chunked_step in Hc as (c3 & -> & Hc); [|rewrite !length_drop; lia].
    apply chunked_step in Hc as (c4 & -> & Hc); [|rewrite !length_drop; lia].
    apply chunked_end in Hc as ->; [|rewrite !length_drop; lia].
    simpl. rewrite !length_take, !length_drop. repeat f_equal; lia. }
  split; [done|]. split.
  { rewrite <- (length_map length), Hw. done. }
  split; [by eapply chunked_concat|].
  split; [intros took now; by apply paced_spaced|].
  rewrite Hs, Hfl, accounted, <- Hlen, <- Hm. by rewrite length_map.
Qed.

End Sender.

(** C8 as stated fails: the 250 messages go out in four windows, not in
    three. *)
Lemma batch_of_250_is_not_three_windows :
  match send_batch Samples.provider_sms Samples.provider_mms 251
                   Samples.messages_250 Samples.sender_80 tt with
  | Some (results, _, _, tr) =>
      length (windows tr) = 4%nat /\
      length (windows tr) <> 3%nat /\
      (length (success results) + length (failed results))%nat = 250%nat
  | None => False
  end.
Proof. vm_compute. split; [reflexivity|]. split; [discriminate|reflexivity]. Qed.

(** A batch of three with a number that the provider refuses: two
    successes, and one failure after one attempt, with no backoff and with
    the error of the logger in the place of the error of the provider. *)
Example batch_of_three :
  send_batch Samples.provider_sms Samples.provider_mms 4
             Samples.messages_3 Samples.sender_80 tt
  = Some ({| success := [("+15551111", "SM1"); ("+15552222", "SM1")];
             failed :=
               [("+15550000",
                 "Logger._log() got an unexpected keyword argument 'correlation_id'")] |},
          {| rate_limit := 80; retry_attempts := 3; queue := [];
             stats := {| sent := 2; failed_count := 1; retried := 0 |} |},
          tt,
          [window
             [(Samples.sms "+15551111", [sms_sent 1]);
              (Samples.sms "+15550000",
               [sms_send_failed 1 "unroutable number"]);
              (Samples.sms "+15552222", [sms_sent 1])]]).
Proof. vm_compute. reflexivity. Qed.

Lemma send_batch_reports_the_first_attempt_witness :
  (0 < rate_limit Samples.sender_80 /\ queue Samples.sender_80 = [] /\
   0 < retry_attempts Samples.sender_80) /\
  exists s' tr,
    (forall fuel, (length Samples.messages_3 < fuel)%nat ->
       send_batch Samples.provider_sms Samples.provider_mms fuel
                  Samples.messages_3 Samples.sender_80 tt
       = Some (reported (asked_once Samples.provider_sms Samples.provider_mms
                                    Samples.messages_3 tt).1,
               s',
               (asked_once Samples.provider_sms Samples.provider_mms
                           Samples.messages_3 tt).2,
               tr)) /\
    map fst (asked_once Samples.provider_sms Samples.provider_mms
                        Samples.messages_3 tt).1
    = Samples.messages_3 /\
    (length (success (reported
               (asked_once Samples.provider_sms Samples.provider_mms
                           Samples.messages_3 tt).1))
     + length (failed (reported
                 (asked_once Samples.provider_sms Samples.provider_mms
                             Samples.messages_3 tt).1)))%nat
    = length Samples.messages_3 /\
    (forall entry,
        entry ∈ failed (reported
                  (asked_once Samples.provider_sms Samples.provider_mms
                              Samples.messages_3 tt).1) ->
        entry.2
        = "Logger._log() got an unexpected keyword argument 'correlation_id'") /\
    retried (stats s') = retried (stats Samples.sender_80) /\
    queue s' = [].
Proof.
  split; [split; [reflexivity|split; reflexivity]|].
  apply (send_batch_reports_the_first_attempt
           Samples.provider_sms Samples.provider_mms
           Samples.messages_3 Samples.sender_80 tt).
  - reflexivity.
  - reflexivity.
  - reflexivity.
Defined.

Lemma batch_of_250_in_windows_of_80_witness :
  (length Samples.messages_250 = 250%nat /\
   rate_limit Samples.sender_80 = 80 /\ queue Samples.sender_80 = []) /\
  exists results s' x' tr,
    (forall fuel, (250 < fuel)%nat ->
       send_batch Samples.provider_sms Samples.provider_mms fuel
                  Samples.messages_250 Samples.sender_80 tt
       = Some (results, s', x', tr)) /\
    map length (windows tr) = [80; 80; 80; 10]%nat /\
    length (windows tr) = 4%nat /\
    concat (windows tr) = Samples.messages_250 /\
    (forall took now, spaced 1 (window_starts took 0 now tr)) /\
    (length (success results) + length (failed results))%nat = 250%nat.
Proof.
  split; [split; [reflexivity|split; reflexivity]|].
  apply (batch_of_250_in_windows_of_80
           Samples.provider_sms Samples.provider_mms
           Samples.messages_250 Samples.sender_80 tt).
  - reflexivity.
  - reflexivity.
  - reflexivity.
Defined.

End BatchSenderFacts.

(** ** The inbound-message pipeline *)

Module ConversationFacts.

Import Conversation.

Section Pipeline.

Context {X : Type}.
Variable self : Services X.

Lemma bind_await {A B} (c : Call) (f : X -> Outcome A * X) (k : A -> @M X B)
      v x x' tr :
  f x = (Return v, x') ->
  bind (await c f) k x tr = k v x' (tr ++ [c]).
Proof. intros H. unfold bind, await. by rewrite H. Qed.

Lemma bind_assoc {A B C} (m : @M X A) (k1 : A -> @M X B) (k2 : B -> @M X C) x tr :
  bind (bind m k1) k2 x tr = bind m (fun a => bind (k1 a) k2) x tr.
Proof. unfold bind. by destruct (m x tr) as [[[a|e] x'] tr']. Qed.

Lemma bind_pair_then {A B C} (m : @M X A) (n : A -> @M X B) (k : A -> B -> @M X C)
      a b x tr x' tr' :
  bind m (fun a => bind (n a) (fun b => ret (a, b))) x tr
  = (Return (a, b), x', tr') ->
  bind m (fun a => bind (n a) (fun b => k a b)) x tr = k a b x' tr'.
Proof.
  unfold bind, ret. destruct (m x tr) as [[[a0|e] x0] tr0]; [|done].
  destruct (n a0 x0 tr0) as [[[b0|e] x1] tr1]; [|done].
  intros H. by simplify_eq.
Qed.


End Pipeline.

(** The text of the sample, as the classifier sees it. *)
Example sample_is_detected :
  detect_crisis Samples.sample_search Samples.sample_lower "I want to kill myself"
  = Detected SUICIDE ["kill myself"] 90
             [{| type := SUICIDE; keywords := ["kill myself"]; confidence := 90 |}].
Proof. vm_compute. reflexivity. Qed.





End ConversationFacts.

(** ** Crisis detection *)

Module CrisisFacts.

Import Conversation.

Section Crisis.

Variable re_search : string -> string -> option string.
Variable lower : string -> string.

Lemma check_keywords_true text keywords :
  _check_keywords re_search text keywords = true <->
  exists pattern, pattern ∈ keywords /\ is_Some (re_search pattern text).
Proof.
  unfold _check_keywords. rewrite existsb_exists. split.
  - intros (p & Hin & Hp). exists p. split; [by apply list_elem_of_In|].
    by apply bool_decide_eq_true_1 in Hp.
  - intros (p & Hin & Hp). exists p. split; [by apply list_elem_of_In|].
    by apply bool_decide_eq_true_2.
Qed.

Lemma check_category_events ml t patterns c :
  check_category re_search ml t patterns c
  = if _check_keywords re_search ml patterns
    then [ {| type := t; keywords := _extract_matches re_search ml patterns;
              confidence := c |} ]
    else [].
Proof. reflexivity. Qed.

Lemma extract_matches_not_empty text keywords :
  _check_keywords re_search text keywords = true ->
  _extract_matches re_search text keywords <> [].
Proof.
  intros H. apply check_keywords_true in H as (p & Hin & [m Hm]).
  unfold _extract_matches. intros Hnil.
  assert (Hel : m ∈ omap (fun pattern => re_search pattern text) keywords).
  { apply list_elem_of_omap. by exists p. }
  rewrite Hnil in Hel. by apply not_elem_of_nil in Hel.
Qed.

Lemma max_confidence_greatest first others :
  max_confidence first others ∈ first :: others /\
  forall ev, ev ∈ first :: others ->
             confidence ev <= confidence (max_confidence first others).
Proof.
  unfold max_confidence. revert first.
  induction others as [|ev others IH]; intros first; simpl.
  - split; [apply list_elem_of_here|]. intros ev Hev.
    apply list_elem_of_singleton in Hev as ->. lia.
  - destruct (IH (if bool_decide (confidence first < confidence ev)
                  then ev else first)) as [Hin Hmax].
    split.
    + apply elem_of_cons in Hin as [Heq|Hin].
      * rewrite Heq. case_bool_decide; [|apply list_elem_of_here].
        apply list_elem_of_further, list_elem_of_here.
      * by do 2 apply list_elem_of_further.
    + intros ev' Hev'.
      assert (Hstep : confidence first
                      <= confidence (if bool_decide (confidence first < confidence ev)
                                     then ev else first) /\
                      confidence ev
                      <= confidence (if bool_decide (confidence first < confidence ev)
                                     then ev else first)).
      { case_bool_decide; lia. }
      pose proof (Hmax _ (list_elem_of_here _ _)) as Hbest.
      apply elem_of_cons in Hev' as [->|Hev']; [lia|].
      apply elem_of_cons in Hev' as [->|Hev']; [lia|].
      apply Hmax. by apply list_elem_of_further.
Qed.

(** X1.  A crisis is detected exactly when one of the patterns of the four
    categories is found in the lowered message. *)
Theorem crisis_detected_iff_a_pattern_matches message :
  detected (detect_crisis re_search lower message) = true <->
  exists pattern,
    pattern ∈ SUICIDE_KEYWORDS ++ SELF_HARM_KEYWORDS
              ++ VIOLENCE_KEYWORDS ++ ABUSE_KEYWORDS /\
    is_Some (re_search pattern (lower message)).
Proof.
  unfold detect_crisis. rewrite !check_category_events.
  destruct (_check_keywords re_search (lower message) SUICIDE_KEYWORDS) eqn:Hs;
  destruct (_check_keywords re_search (lower message) SELF_HARM_KEYWORDS) eqn:Hh;
  destruct (_check_keywords re_search (lower message) VIOLENCE_KEYWORDS) eqn:Hv;
  destruct (_check_keywords re_search (lower message) ABUSE_KEYWORDS) eqn:Ha;
  cbn [app detected];
  try (split; [intros _|done];
       first [ apply check_keywords_true in Hs as (p & Hin & Hp)
             | apply check_keywords_true in Hh as (p & Hin & Hp)
             | apply check_keywords_true in Hv as (p & Hin & Hp)
             | apply check_keywords_true in Ha as (p & Hin & Hp) ];
       exists p; split; [|done]; rewrite !elem_of_app; tauto).
  split; [done|]. intros (p & Hin & Hp).
  rewrite !elem_of_app in Hin.
  assert (Hno : forall ks, _check_keywords re_search (lower message) ks = false ->
                           p ∈ ks -> False).
  { intros ks Hk Hpk.
    assert (_check_keywords re_search (lower message) ks = true) as Hyes
        by (apply check_keywords_true; eauto).
    congruence. }
  destruct Hin as [?|[?|[?|?]]]; eauto.
Qed.

(** X2.  The event that [detect_crisis] reports is one of the events it found,
    none of which has a greater confidence; and each event found carries at
    least one matched keyword. *)
Theorem primary_event_is_the_most_confident message t kw c all_events :
  detect_crisis re_search lower message = Detected t kw c all_events ->
  (exists ev, ev ∈ all_events /\ type ev = t /\ keywords ev = kw /\
              confidence ev = c) /\
  (forall ev, ev ∈ all_events -> confidence ev <= c) /\
  (forall ev, ev ∈ all_events -> keywords ev <> []).
Proof.
  unfold detect_crisis. rewrite !check_category_events.
  set (events := _ ++ _ ++ _ ++ _).
  assert (Hkw : forall ev, ev ∈ events -> keywords ev <> []).
  { intros ev. unfold events. rewrite !elem_of_app.
    destruct (_check_keywords re_search (lower message) SUICIDE_KEYWORDS) eqn:Hs;
    destruct (_check_keywords re_search (lower message) SELF_HARM_KEYWORDS) eqn:Hh;
    destruct (_check_keywords re_search (lower message) VIOLENCE_KEYWORDS) eqn:Hv;
    destruct (_check_keywords re_search (lower message) ABUSE_KEYWORDS) eqn:Ha;
    rewrite ?list_elem_of_singleton, ?elem_of_nil;
    intros Hin; repeat (destruct Hin as [Hin|Hin]); try done; subst ev;
    cbn [keywords]; by apply extract_matches_not_empty. }
  destruct events as [|first others] eqn:He; [done|].
  intros H. injection H as <- <- <- <-.
  destruct (max_confidence_greatest first others) as [Hin Hmax].
  split; [by exists (max_confidence first others)|]. split; [done|done].
Qed.

(** X3.  Which category is reported when several match: suicide before
    violence before self-harm before abuse, with the confidence of the
    category. *)
Theorem primary_category_by_priority message :
  let found := _check_keywords re_search (lower message) in
  match detect_crisis re_search lower message with
  | Detected t _ c _ => Some (t, c)
  | NotDetected => None
  end
  = if found SUICIDE_KEYWORDS then Some (SUICIDE, 90)
    else if found VIOLENCE_KEYWORDS then Some (VIOLENCE, 85)
    else if found SELF_HARM_KEYWORDS then Some (SELF_HARM, 80)
    else if found ABUSE_KEYWORDS then Some (ABUSE, 75)
    else None.
Proof.
  unfold detect_crisis. rewrite !check_category_events. cbv zeta.
  destruct (_check_keywords re_search (lower message) SUICIDE_KEYWORDS);
  destruct (_check_keywords re_search (lower message) SELF_HARM_KEYWORDS);
  destruct (_check_keywords re_search (lower message) VIOLENCE_KEYWORDS);
  destruct (_check_keywords re_search (lower message) ABUSE_KEYWORDS);
  reflexivity.
Qed.

End Crisis.

Lemma primary_event_is_the_most_confident_witness :
  (exists ev,
      ev ∈ [{| type := SUICIDE; keywords := ["kill myself"]; confidence := 90 |}] /\
      type ev = SUICIDE /\ keywords ev = ["kill myself"] /\ confidence ev = 90) /\
  (forall ev,
      ev ∈ [{| type := SUICIDE; keywords := ["kill myself"]; confidence := 90 |}] ->
      confidence ev <= 90) /\
  (forall ev,
      ev ∈ [{| type := SUICIDE; keywords := ["kill myself"]; confidence := 90 |}] ->
      keywords ev <> []).
Proof.
  apply (primary_event_is_the_most_confident Samples.sample_search
           Samples.sample_lower "I want to kill myself").
  vm_compute. reflexivity.
Defined.

End CrisisFacts.

(** ** The other paths of the inbound-message pipeline *)

Module PipelineFacts.

Import Conversation.

Section Pipeline.

Context {X : Type}.
Variable self : Services X.

(** X4.  A message from a sender who has opted out is ignored: the sender is
    looked up, and nothing else is awaited; no message is sent, saved or
    generated. *)
Theorem opted_out_sender_is_ignored from_number message_body message_sid
        (x x1 : X) (user : User) (is_new : bool) :
  user_service_get_or_create_user self from_number x
  = (Return (user, is_new), x1) ->
  opted_out user = true ->
  process_inbound_message self from_number message_body message_sid x []
  = (Return (ignored "user_opted_out"), x1, [get_or_create_user from_number]).
Proof.
  intros Hgoc Hopt.
  unfold process_inbound_message, try_body.
  rewrite (ConversationFacts.bind_await _ _ _ _ _ _ _ Hgoc).
  by rewrite Hopt.
Qed.

(** X5.  A STOP word from a sender who has not opted out opts the sender out
    and answers with the unsubscribe notice: neither the crisis detection,
    nor the generation, nor a commit is reached. *)
Theorem stop_word_opts_out from_number message_body message_sid
        (x x1 x2 x3 : X) (user : User) (is_new : bool) :
  user_service_get_or_create_user self from_number x
  = (Return (user, is_new), x1) ->
  opted_out user = false ->
  strip_upper self message_body ∈ STOP_WORDS ->
  user_service_opt_out_user self user x1 = (Return tt, x2) ->
  sms_send_message self from_number
    "You've been unsubscribed from Jules. Reply START to resubscribe anytime."
    x2 = (Return tt, x3) ->
  process_inbound_message self from_number message_body message_sid x []
  = (Return opted_out_status, x3,
     [get_or_create_user from_number; opt_out_user (user_id user);
      send_message from_number
        "You've been unsubscribed from Jules. Reply START to resubscribe anytime."]).
Proof.
  intros Hgoc Hopt Hstop Hout Hsms.
  unfold process_inbound_message, try_body.
  rewrite (ConversationFacts.bind_await _ _ _ _ _ _ _ Hgoc).
  rewrite Hopt. unfold is_stop. rewrite bool_decide_eq_true_2 by done.
  rewrite (ConversationFacts.bind_await _ _ _ _ _ _ _ Hout).
  rewrite (ConversationFacts.bind_await _ _ _ _ _ _ _ Hsms).
  reflexivity.
Qed.


(** X7.  When the generation raises after a crisis was detected, the hotline
    message has been sent and stays sent, the normal reply is not sent, the
    session is rolled back, and the error of the generation is raised. *)
Theorem generation_failure_after_crisis_reply
        (from_number message_body message_sid : string) (x : X)
        (user : User) (is_new : bool) (conversation : ConversationRow)
        (disclosure_needed : bool) (x1 : X) (tr1 : list Call)
        event_type keywords confidence all_events
        (xa xb xc xd xe xf : X) messages e :
  reaches_crisis_detection self from_number message_body x user is_new
                           conversation disclosure_needed x1 tr1 ->
  detect_crisis (re_search self) (lower self) message_body
  = Detected event_type keywords confidence all_events ->
  crisis_log_crisis_event self (user_id user) (conversation_id conversation)
    event_type keywords confidence true x1 = (Return tt, xa) ->
  sms_send_message self from_number (crisis_response self) xa = (Return tt, xb) ->
  db_add_message self (conversation_id conversation) (user_id user)
    message_body USER INBOUND (Some message_sid) true xb = (Return tt, xc) ->
  db_select_recent_messages self (conversation_id conversation) 10 xc
  = (Return messages, xd) ->
  llm_generate_response self messages
    (_build_system_prompt self (user_service_get_decrypted_first_name self user))
    xd = (Raise e, xe) ->
  db_rollback self xe = (Return tt, xf) ->
  process_inbound_message self from_number message_body message_sid x []
  = (Raise e, xf,
     tr1
     ++ [log_crisis_event (user_id user) (conversation_id conversation)
                          event_type keywords confidence true;
         send_message from_number (crisis_response self);
         add_message (conversation_id conversation) (user_id user)
                     message_body USER INBOUND (Some message_sid) true;
         select_recent_messages (conversation_id conversation) 10;
         generate_response
           messages
           (_build_system_prompt self
              (user_service_get_decrypted_first_name self user));
         rollback]).
Proof.
  intros (x0 & tr0 & Hgoc & Hopt & Hstop & Hpre) Hdet Ha Hb Hc Hd He Hf.
  assert (Hbody :
            try_body self from_number message_body message_sid x []
            = from_crisis_detection self from_number message_body message_sid
                user is_new conversation disclosure_needed x1 tr1).
  { unfold try_body. unfold bind at 1. rewrite Hgoc. simpl.
    rewrite Hopt, Hstop.
    exact (ConversationFacts.bind_pair_then _ _
             (fun c d => from_crisis_detection self from_number message_body
                           message_sid user is_new c d)
             _ _ _ _ _ _ Hpre). }
  unfold process_inbound_message. rewrite Hbody.
  unfold from_crisis_detection. rewrite Hdet.
  unfold _handle_crisis, _save_message. cbn [detected].
  rewrite ConversationFacts.bind_assoc.
  rewrite (ConversationFacts.bind_await _ _ _ _ _ _ _ Ha).
  rewrite (ConversationFacts.bind_await _ _ _ _ _ _ _ Hb).
  rewrite (ConversationFacts.bind_await _ _ _ _ _ _ _ Hc).
  rewrite (ConversationFacts.bind_await _ _ _ _ _ _ _ Hd).
  unfold bind at 1. unfold await at 1. rewrite He.
  unfold await. rewrite Hf.
  by rewrite <- !app_assoc.
Qed.

Lemma no_rollback_ret {A} (a : A) : no_rollback (X:=X) (ret a).
Proof. intros x tr o x' tr' H. injection H as _ _ <-. done. Qed.

Lemma no_rollback_await {A} (c : Call) (f : X -> Outcome A * X) :
  c <> rollback -> no_rollback (X:=X) (await c f).
Proof.
  intros Hc x tr o x' tr' H Htr. unfold await in H.
  destruct (f x) as [o1 x1]. injection H as _ _ <-.
  rewrite elem_of_app, list_elem_of_singleton. intros [?|?]; [done|].
  by apply Hc.
Qed.

Lemma no_rollback_bind {A B} (m : @M X A) (k : A -> @M X B) :
  no_rollback (X:=X) m -> (forall a, no_rollback (X:=X) (k a)) -> no_rollback (X:=X) (bind m k).
Proof.
  intros Hm Hk x tr o x' tr' H Htr. unfold bind in H.
  destruct (m x tr) as [[[a|e] x1] tr1] eqn:E.
  - exact (Hk a _ _ _ _ _ H (Hm _ _ _ _ _ E Htr)).
  - injection H as _ _ <-. exact (Hm _ _ _ _ _ E Htr).
Qed.

Local Ltac quiet :=
  repeat first
    [ apply no_rollback_ret
    | apply no_rollback_await; discriminate
    | apply no_rollback_bind; [|intros ?] ].

Lemma no_rollback_from_crisis_detection from_number message_body message_sid
      user is_new conversation disclosure_needed :
  no_rollback (X:=X) (from_crisis_detection self from_number message_body message_sid
                 user is_new conversation disclosure_needed).
Proof.
  unfold from_crisis_detection, _handle_crisis, _save_message.
  apply no_rollback_bind; [|intros ?].
  { destruct (detect_crisis _ _ _); quiet. }
  quiet. destruct disclosure_needed; quiet.
Qed.

Lemma no_rollback_try_body from_number message_body message_sid :
  no_rollback (X:=X) (try_body self from_number message_body message_sid).
Proof.
  unfold try_body. apply no_rollback_bind; [quiet|].
  intros [user is_new].
  destruct (opted_out user); [quiet|].
  destruct (is_stop self message_body); [quiet|].
  apply no_rollback_bind.
  { unfold _get_or_create_conversation. apply no_rollback_bind; [quiet|].
    intros [c|]; quiet. }
  intros conversation. apply no_rollback_bind; [quiet|].
  intros d. apply no_rollback_from_crisis_detection.
Qed.

(** X8.  The session is rolled back exactly when the call raises: a call that
    returns its status has awaited no rollback, and a call that raises has
    awaited one rollback, as the last thing it did.  No error of the body
    is turned into a returned status. *)
Theorem rollback_exactly_on_failure from_number message_body message_sid (x : X) :
  match process_inbound_message self from_number message_body message_sid x [] with
  | (Return r, x', tr') =>
      (rollback ∉ tr') /\
      try_body self from_number message_body message_sid x [] = (Return r, x', tr')
  | (Raise _, _, tr') =>
      exists e x1 tr1,
        try_body self from_number message_body message_sid x [] = (Raise e, x1, tr1) /\
        tr' = tr1 ++ [rollback] /\ rollback ∉ tr1
  end.
Proof.
  unfold process_inbound_message.
  destruct (try_body self from_number message_body message_sid x [])
    as [[[r|e] x1] tr1] eqn:E.
  - split; [|done].
    exact (no_rollback_try_body _ _ _ _ _ _ _ _ E (not_elem_of_nil _)).
  - pose proof (no_rollback_try_body _ _ _ _ _ _ _ _ E (not_elem_of_nil _)).
    unfold await. destruct (db_rollback self x1) as [[u|e'] x2]; eauto 7.
Qed.

End Pipeline.

Lemma opted_out_sender_is_ignored_witness :
  process_inbound_message Samples.services_sender_opted_out
    "+15551234567" "Hello" "msg-1" tt []
  = (Return (ignored "user_opted_out"), tt, [get_or_create_user "+15551234567"]).
Proof.
  apply (opted_out_sender_is_ignored Samples.services_sender_opted_out
           "+15551234567" "Hello" "msg-1" tt tt Samples.opted_out_user false);
    reflexivity.
Defined.

Lemma stop_word_opts_out_witness :
  process_inbound_message Samples.sample_services
    "+15551234567" "STOP" "msg-2" tt []
  = (Return opted_out_status, tt,
     [get_or_create_user "+15551234567"; opt_out_user 7;
      send_message "+15551234567"
        "You've been unsubscribed from Jules. Reply START to resubscribe anytime."]).
Proof.
  apply (stop_word_opts_out Samples.sample_services
           "+15551234567" "STOP" "msg-2" tt tt tt tt Samples.sample_user false);
    try reflexivity.
  vm_compute. apply list_elem_of_here.
Defined.


Lemma dinner_reaches_crisis_detection (self : Services unit) :
  user_service_get_or_create_user self
  = (fun _ x => (Return (Samples.sample_user, false), x)) ->
  strip_upper self = (fun text => text) ->
  db_select_active_conversation self
  = (fun _ x => (Return (Some {| conversation_id := 3 |}), x)) ->
  compliance_check_disclosure_needed self = (fun _ _ x => (Return false, x)) ->
  forall message_body,
    message_body ∉ STOP_WORDS ->
    reaches_crisis_detection self "+15551234567" message_body tt
      Samples.sample_user false {| conversation_id := 3 |} false tt
      [get_or_create_user "+15551234567"; select_active_conversation 7;
       check_disclosure_needed 7 3].
Proof.
  intros Hu Hs Hc Hd message_body Hstop.
  exists tt, [get_or_create_user "+15551234567"].
  unfold await, bind, ret, _get_or_create_conversation, is_stop, await, bind, ret.
  rewrite Hu, Hs, Hc, Hd. cbn.
  split; [reflexivity|]. split; [reflexivity|].
  split; [|reflexivity].
  by apply bool_decide_eq_false_2.
Defined.


Lemma generation_failure_after_crisis_reply_witness :
  process_inbound_message Samples.services_provider_down "+15551234567"
                          "I want to kill myself" "msg-4" tt []
  = (Raise Samples.provider_down, tt,
     [get_or_create_user "+15551234567"; select_active_conversation 7;
      check_disclosure_needed 7 3]
     ++ [log_crisis_event 7 3 SUICIDE ["kill myself"] 90 true;
         send_message "+15551234567" "Crisis & Suicide Lifeline: 988";
         add_message 3 7 "I want to kill myself" USER INBOUND
                     (Some "msg-4") true;
         select_recent_messages 3 10;
         generate_response [("user", "I want to kill myself")] "You are Jules.";
         rollback]).
Proof.
  apply (generation_failure_after_crisis_reply Samples.services_provider_down
           "+15551234567" "I want to kill myself" "msg-4" tt
           Samples.sample_user false {| conversation_id := 3 |} false tt
           [get_or_create_user "+15551234567"; select_active_conversation 7;
            check_disclosure_needed 7 3]
           SUICIDE ["kill myself"] 90
           [{| type := SUICIDE; keywords := ["kill myself"]; confidence := 90 |}]
           tt tt tt tt tt tt [("user", "I want to kill myself")]
           Samples.provider_down);
    try reflexivity.
  apply dinner_reaches_crisis_detection; try reflexivity.
  intros H. repeat (apply elem_of_cons in H as [H|H]; [discriminate H|]).
  by apply elem_of_nil in H.
Defined.

End PipelineFacts.

(** ** The data and the compensations of the recipe extraction *)

Module RecipeFlowFacts.

Import RecipeExtraction.

Section Saga.

Context {X RecipeData : Type}.
Variable storage_upload_file : string -> string -> X -> Outcome string * X.
Variable storage_delete_file : string -> X -> Outcome unit * X.
Variable ai_extract_recipe : option string -> X -> Outcome RecipeData * X.
Variable recipe_save_family_recipe :
  string -> option (@Any RecipeData) -> option string -> string -> X ->
  Outcome string * X.
Variable recipe_soft_delete_recipe : string -> X -> Outcome unit * X.
Variable notification_send_recipe_confirmation :
  string -> option string -> option string -> X -> Outcome unit * X.
Variable notification_send_recipe_failure :
  string -> string -> X -> Outcome unit * X.
Variable get_title : RecipeData -> option string.
Variables (image_data household_id member_id saga_id : string).

(** X9.  When the four services answer, the URL returned by the upload is what
    the extraction is asked to read and what is saved with the recipe, the
    extracted data is what is saved, its title and the id returned by the
    save are what the confirmation carries, and the dict returned holds
    that id and that URL.  Nothing is deleted and no failure notice is
    sent. *)
Theorem extraction_success_data_flow (x x1 x2 x3 x4 : X) url d rid :
  storage_upload_file image_data
    ("recipes/" +:+ household_id +:+ "/" +:+ saga_id +:+ ".jpg") x
  = (Return url, x1) ->
  ai_extract_recipe (Some url) x1 = (Return d, x2) ->
  recipe_save_family_recipe household_id (Some (ARecipe d)) (Some url)
                            member_id x2 = (Return rid, x3) ->
  notification_send_recipe_confirmation member_id (get_title d) (Some rid) x3
  = (Return tt, x4) ->
  execute_extraction storage_upload_file storage_delete_file ai_extract_recipe
    recipe_save_family_recipe recipe_soft_delete_recipe
    notification_send_recipe_confirmation notification_send_recipe_failure
    get_title image_data household_id member_id saga_id x
  = (Return (Succeeded (Some rid) (Some url) saga_id), x4).
Proof.
  intros Hup Hai Hsave Hnote.
  unfold execute_extraction, SagaBase.execute_saga, extraction_run.
  cbn [SagaBase.context SagaBase.steps extraction_context saga_steps
       SagaBase.for_steps].
  unfold SagaBase.loop_body at 1.
  cbn [SagaBase.execute SagaBase.world SagaBase.context].
  unfold upload_image at 1. cbn [services]. rewrite Hup.
  unfold SagaBase.loop_body at 1.
  cbn [SagaBase.execute SagaBase.world SagaBase.context].
  unfold extract_recipe at 1. cbn [services image_url]. rewrite Hai.
  unfold SagaBase.loop_body at 1.
  cbn [SagaBase.execute SagaBase.world SagaBase.context].
  unfold save_recipe at 1. cbn. rewrite Hsave.
  unfold SagaBase.loop_body at 1.
  cbn [SagaBase.execute SagaBase.world SagaBase.context].
  unfold notify_success at 1. cbn. rewrite Hnote.
  reflexivity.
Qed.

(** X10.  When the confirmation raises after the recipe was saved, nothing
    is undone: the recipe is not soft-deleted, the uploaded file is not
    deleted and no failure notice is sent; the services are as the failed
    confirmation left them, and the caller gets the [TypeError] of the
    logger. *)
Theorem confirmation_failure_undoes_nothing
        (x x1 x2 x3 x4 : X) url d rid e :
  storage_upload_file image_data
    ("recipes/" +:+ household_id +:+ "/" +:+ saga_id +:+ ".jpg") x
  = (Return url, x1) ->
  ai_extract_recipe (Some url) x1 = (Return d, x2) ->
  recipe_save_family_recipe household_id (Some (ARecipe d)) (Some url)
                            member_id x2 = (Return rid, x3) ->
  notification_send_recipe_confirmation member_id (get_title d) (Some rid) x3
  = (Raise e, x4) ->
  execute_extraction storage_upload_file storage_delete_file ai_extract_recipe
    recipe_save_family_recipe recipe_soft_delete_recipe
    notification_send_recipe_confirmation notification_send_recipe_failure
    get_title image_data household_id member_id saga_id x
  = (Raise (LoggerTypeError "correlation_id"), x4).
Proof.
  intros Hup Hai Hsave Hnote.
  unfold execute_extraction, SagaBase.execute_saga, extraction_run.
  cbn [SagaBase.context SagaBase.steps extraction_context saga_steps
       SagaBase.for_steps].
  unfold SagaBase.loop_body at 1.
  cbn [SagaBase.execute SagaBase.world SagaBase.context].
  unfold upload_image at 1. cbn [services]. rewrite Hup.
  unfold SagaBase.loop_body at 1.
  cbn [SagaBase.execute SagaBase.world SagaBase.context].
  unfold extract_recipe at 1. cbn [services image_url]. rewrite Hai.
  unfold SagaBase.loop_body at 1.
  cbn [SagaBase.execute SagaBase.world SagaBase.context].
  unfold save_recipe at 1. cbn. rewrite Hsave.
  unfold SagaBase.loop_body at 1.
  cbn [SagaBase.execute SagaBase.world SagaBase.context].
  unfold notify_success at 1. cbn. rewrite Hnote.
  reflexivity.
Qed.

(** X11.  When the extraction raises after the upload, the uploaded file
    stays in the storage: [delete_file] is not called, whatever the URL is,
    no failure notice is sent, and the caller gets the [TypeError] of the
    logger. *)
Theorem extraction_failure_leaves_the_image (x x1 x2 : X) url e :
  storage_upload_file image_data
    ("recipes/" +:+ household_id +:+ "/" +:+ saga_id +:+ ".jpg") x
  = (Return url, x1) ->
  ai_extract_recipe (Some url) x1 = (Raise e, x2) ->
  execute_extraction storage_upload_file storage_delete_file ai_extract_recipe
    recipe_save_family_recipe recipe_soft_delete_recipe
    notification_send_recipe_confirmation notification_send_recipe_failure
    get_title image_data household_id member_id saga_id x
  = (Raise (LoggerTypeError "correlation_id"), x2).
Proof.
  intros Hup Hai.
  unfold execute_extraction, SagaBase.execute_saga, extraction_run.
  cbn [SagaBase.context SagaBase.steps extraction_context saga_steps
       SagaBase.for_steps].
  unfold SagaBase.loop_body at 1.
  cbn [SagaBase.execute SagaBase.world SagaBase.context].
  unfold upload_image at 1. cbn [services]. rewrite Hup.
  unfold SagaBase.loop_body at 1.
  cbn [SagaBase.execute SagaBase.world SagaBase.context].
  unfold extract_recipe at 1. cbn [services image_url]. rewrite Hai.
  reflexivity.
Qed.

End Saga.

Lemma extraction_success_data_flow_witness :
  execute_extraction Samples.upload_logged Samples.delete_file_logged
    Samples.extract_logged Samples.save_logged Samples.soft_delete_fails
    Samples.confirmation_logged Samples.failure_logged Samples.title_of
    "jpeg-bytes" "household-1" "member-7" "saga-1" []
  = (Return (Succeeded (Some "recipe-1") (Some "https://cdn.example/r1.jpg")
                       "saga-1"),
     ["upload_file recipes/household-1/saga-1.jpg";
      "extract_recipe https://cdn.example/r1.jpg";
      "save_family_recipe household-1 Lasagne https://cdn.example/r1.jpg member-7";
      "send_recipe_confirmation member-7 Lasagne recipe-1"]).
Proof.
  eapply (extraction_success_data_flow
           Samples.upload_logged Samples.delete_file_logged
           Samples.extract_logged Samples.save_logged Samples.soft_delete_fails
           Samples.confirmation_logged Samples.failure_logged Samples.title_of
           "jpeg-bytes" "household-1" "member-7" "saga-1"
           [] _ _ _ _ "https://cdn.example/r1.jpg" "Lasagne" "recipe-1");
    reflexivity.
Defined.

Lemma confirmation_failure_undoes_nothing_witness :
  execute_extraction Samples.upload_logged Samples.delete_file_logged
    Samples.extract_logged Samples.save_logged Samples.soft_delete_fails
    Samples.confirmation_fails Samples.failure_logged Samples.title_of
    "jpeg-bytes" "household-1" "member-7" "saga-1" []
  = (Raise (LoggerTypeError "correlation_id"),
     ["upload_file recipes/household-1/saga-1.jpg";
      "extract_recipe https://cdn.example/r1.jpg";
      "save_family_recipe household-1 Lasagne https://cdn.example/r1.jpg member-7";
      "send_recipe_confirmation member-7"]).
Proof.
  eapply (confirmation_failure_undoes_nothing
            Samples.upload_logged Samples.delete_file_logged
            Samples.extract_logged Samples.save_logged Samples.soft_delete_fails
            Samples.confirmation_fails Samples.failure_logged Samples.title_of
            "jpeg-bytes" "household-1" "member-7" "saga-1"
            [] _ _ _ _ "https://cdn.example/r1.jpg" "Lasagne" "recipe-1"
            Samples.notifier_down);
    reflexivity.
Defined.

Lemma extraction_failure_leaves_the_image_witness :
  execute_extraction Samples.upload_logged Samples.delete_file_logged
    Samples.extract_times_out Samples.save_logged Samples.soft_delete_fails
    Samples.confirmation_logged Samples.failure_logged Samples.title_of
    "jpeg-bytes" "household-1" "member-7" "saga-1" []
  = (Raise (LoggerTypeError "correlation_id"),
     ["upload_file recipes/household-1/saga-1.jpg";
      "extract_recipe https://cdn.example/r1.jpg"]).
Proof.
  eapply (extraction_failure_leaves_the_image
            Samples.upload_logged Samples.delete_file_logged
            Samples.extract_times_out Samples.save_logged Samples.soft_delete_fails
            Samples.confirmation_logged Samples.failure_logged Samples.title_of
            "jpeg-bytes" "household-1" "member-7" "saga-1"
            [] _ _ "https://cdn.example/r1.jpg"
            (PyExc "TimeoutError" "AI request timed out"));
    reflexivity.
Defined.

End RecipeFlowFacts.

(** ** The retry budget and the counters of the AI service over many calls *)

Module RateLimitedSequenceFacts.

Import RateLimited.

Section Service.

Context {X Recipe : Type}.
Variable messages_create : string -> X -> Reply * X.
Variable json_loads : string -> Outcome Recipe.
Variable is_dict : Recipe -> bool.

(** What one call that comes back leaves of the service. *)
Lemma extract_recipe_step (r : Request) (s s' : @Service X) o :
  extract_recipe messages_create json_loads is_dict (req_image_url r)
    (req_household_id r) (req_correlation_id r) (req_priority r) s
  = (Some o, s') ->
  max_retries s' = max_retries s /\
  max_concurrent s' = max_concurrent s /\
  semaphore s' = semaphore s /\
  rate_limited (metrics s') = rate_limited (metrics s) /\
  (max_retries s <= retry_count (req_household_id r) s ->
   o = Raise (LoggerTypeError "correlation_id") /\ s' = s) /\
  (retry_count (req_household_id r) s < max_retries s ->
   0 < semaphore s /\
   total_requests (metrics s') = total_requests (metrics s) + 1 /\
   queued (metrics s') = queued (metrics s) + 1 /\
   match o with
   | Return v =>
       is_dict v = true /\
       successful (metrics s') = successful (metrics s) + 1 /\
       failed (metrics s') = failed (metrics s) /\
       retry_count (req_household_id r) s' = 0
   | Raise e =>
       e = LoggerTypeError "correlation_id" /\
       (successful (metrics s') = successful (metrics s) \/
        (successful (metrics s') = successful (metrics s) + 1 /\
         exists v, is_dict v = false)) /\
       failed (metrics s') = failed (metrics s) + 1 /\
       retry_count (req_household_id r) s'
       = retry_count (req_household_id r) s + 1
   end) /\
  (forall b, b <> req_household_id r -> retry_count b s' = retry_count b s).
Proof.
  unfold extract_recipe. fold (retry_count (req_household_id r) s).
  destruct (bool_decide_reflect
              (max_retries s <= retry_count (req_household_id r) s)) as [Hex|Hex].
  - intros H. injection H as <- <-. repeat split; try done; lia.
  - cbn [semaphore with_metrics].
    destruct (bool_decide_reflect (0 < semaphore s)) as [Hs|Hs]; [|done].
    cbn [client with_metrics with_semaphore].
    destruct (_execute_extraction _ _ _ _ _) as [[res|e] x].
    + destruct (is_dict res) eqn:Hd; intros H; injection H as <- <-; cbn.
      * repeat split; try done; try lia.
        -- unfold retry_count. cbn. by rewrite lookup_insert_eq.
        -- intros b Hb. unfold retry_count. cbn. by rewrite lookup_insert_ne.
      * split; [done|]. split; [done|]. split; [lia|]. split; [done|].
        split; [lia|]. split.
        -- intros _. split; [done|]. split; [done|]. split; [done|].
           split; [done|]. split; [right; eauto|]. split; [done|].
           unfold retry_count. cbn. by rewrite lookup_insert_eq.
        -- intros b Hb. unfold retry_count. cbn.
           by rewrite !lookup_insert_ne.
    + intros H; injection H as <- <-; cbn.
      split; [done|]. split; [done|]. split; [lia|]. split; [done|].
      split; [lia|]. split.
      * intros _. split; [done|]. split; [done|]. split; [done|].
        split; [done|]. split; [by left|]. split; [done|].
        unfold retry_count. cbn. by rewrite lookup_insert_eq.
      * intros b Hb. unfold retry_count. cbn. by rewrite lookup_insert_ne.
Qed.

(** What a call that is suspended leaves of the service. *)
Lemma extract_recipe_suspended (r : Request) (s s' : @Service X) :
  extract_recipe messages_create json_loads is_dict (req_image_url r)
    (req_household_id r) (req_correlation_id r) (req_priority r) s
  = (None, s') ->
  max_retries s' = max_retries s /\
  semaphore s' = semaphore s /\
  retry_counts s' = retry_counts s /\
  total_requests (metrics s') = total_requests (metrics s) /\
  successful (metrics s') = successful (metrics s) /\
  failed (metrics s') = failed (metrics s) /\
  rate_limited (metrics s') = rate_limited (metrics s).
Proof.
  unfold extract_recipe.
  destruct (bool_decide _); [done|].
  cbn [semaphore with_metrics].
  destruct (bool_decide _).
  - destruct (_execute_extraction _ _ _ _ _) as [[res|e] x];
      [destruct (is_dict res)|]; done.
  - intros H. injection H as <-. done.
Qed.

(** X12.  An owner whose budget is used up stays locked out: whatever calls
    follow, for whatever owners, its counter stays where it is, and each
    of its own calls that comes back raises.  What it raises is the
    [TypeError] of the [logger.warning] that comes before the
    attempts-exhausted error, which is never raised.  Nothing in
    [extract_recipe] lowers the counter of an owner that is not served. *)
Theorem exhausted_owner_stays_exhausted (a : string) (requests : list Request)
        (s : @Service X) :
  max_retries s <= retry_count a s ->
  let '(outcomes, s') :=
    serve messages_create json_loads is_dict requests s in
  retry_count a s' = retry_count a s /\
  max_retries s' = max_retries s /\
  forall i r o,
    requests !! i = Some r -> outcomes !! i = Some o ->
    req_household_id r = a ->
    o = Raise (LoggerTypeError "correlation_id") /\
    o <> Raise (Exhausted (max_retries s)).
Proof.
  revert s. induction requests as [|r rest IH]; intros s Hex; cbn [serve].
  - split; [done|]. split; [done|].
    intros i r o H. by rewrite lookup_nil in H.
  - destruct (extract_recipe _ _ _ _ _ _ _ s) as [[o|] s1] eqn:E.
    + destruct (extract_recipe_step r s s1 o E)
        as (Hm & _ & _ & _ & Hfast & _ & Hother).
      assert (Ha : retry_count a s1 = retry_count a s).
      { destruct (decide (a = req_household_id r)) as [->|Hne].
        - destruct (Hfast Hex) as [_ ->]. done.
        - by apply Hother. }
      specialize (IH s1). rewrite Hm, Ha in IH. specialize (IH Hex).
      destruct (serve _ _ _ rest s1) as [os s2].
      destruct IH as (H1 & H2 & H3). split; [done|]. split; [done|].
      intros [|i] r' o' Hr Ho Hown; cbn in Hr, Ho.
      * injection Hr as <-. injection Ho as <-. subst a.
        destruct (Hfast Hex) as [-> _]. by split.
      * by eapply H3.
    + destruct (extract_recipe_suspended r s s1 E) as (Hm & _ & Hc & _).
      split; [unfold retry_count; by rewrite Hc|]. split; [done|].
      intros i r' o' _ Ho. by rewrite lookup_nil in Ho.
Qed.

(** X13.  The counters over any sequence of calls: the free slots are what
    they were and [rate_limited] is never written, also when calls are
    refused.  Each request made is counted as failed or has its result
    returned: [total_requests] grows by the growth of [failed] plus the
    number of results returned.  [successful] grows by at least the number
    of results returned and at most the number of requests made: an answer
    that is JSON but no dict is counted as a success and then as a failure,
    so [total_requests = successful + failed] is not kept.  It is kept when
    every result is a dict. *)
Theorem counters_over_calls (requests : list Request) (s : @Service X) :
  let '(outcomes, s') :=
    serve messages_create json_loads is_dict requests s in
  semaphore s' = semaphore s /\
  rate_limited (metrics s') = rate_limited (metrics s) /\
  total_requests (metrics s') - total_requests (metrics s)
  = (failed (metrics s') - failed (metrics s)) + returned outcomes /\
  returned outcomes <= successful (metrics s') - successful (metrics s)
  <= total_requests (metrics s') - total_requests (metrics s) /\
  ((forall v, is_dict v = true) ->
   successful (metrics s') = successful (metrics s) + returned outcomes /\
   total_requests (metrics s') - total_requests (metrics s)
   = (successful (metrics s') - successful (metrics s))
     + (failed (metrics s') - failed (metrics s))).
Proof.
  revert s. induction requests as [|r rest IH]; intros s; cbn [serve].
  - unfold returned. cbn. repeat split; lia.
  - destruct (extract_recipe _ _ _ _ _ _ _ s) as [[o|] s1] eqn:E.
    + destruct (extract_recipe_step r s s1 o E)
        as (_ & _ & Hsem & Hrl & Hfast & Hslow & _).
      specialize (IH s1). destruct (serve _ _ _ rest s1) as [os s2].
      destruct IH as (H1 & H2 & H3 & H4 & H5).
      destruct (decide (max_retries s <= retry_count (req_household_id r) s))
        as [Hex|Hex].
      * destruct (Hfast Hex) as [-> ->].
        unfold returned in *. cbn [List.filter length].
        split; [done|]. split; [done|]. split; [done|]. split; [done|].
        exact H5.
      * assert (Hlt : retry_count (req_household_id r) s < max_retries s)
          by lia.
        destruct (Hslow Hlt) as (_ & Ht & _ & Ho).
        unfold returned in *. destruct o as [v|e]; cbn [List.filter length].
        -- destruct Ho as (_ & Hsu & Hf & _).
           split; [lia|]. split; [lia|]. split; [lia|]. split; [lia|].
           intros Hall. specialize (H5 Hall). lia.
        -- destruct Ho as (_ & Hsu & Hf & _).
           split; [lia|]. split; [lia|]. split; [lia|].
           split; [destruct Hsu as [Hsu|[Hsu _]]; lia|].
           intros Hall. specialize (H5 Hall).
           destruct Hsu as [Hsu|[_ [v Hv]]]; [lia|].
           rewrite Hall in Hv. done.
    + destruct (extract_recipe_suspended r s s1 E)
        as (_ & Hsem & _ & Ht & Hsu & Hf & Hrl).
      unfold returned. cbn. repeat split; lia.
Qed.

(** X14.  A client that keeps failing is asked at most as often as the budget
    of the owner allows: of any number of calls for one owner in a row, only
    the first [max_retries - retry_count] reach the client, each adding one
    to the counter; the others are refused. *)
Theorem failing_client_is_asked_within_budget (a : string)
        (requests : list Request) (s : @Service X) :
  (forall image_url correlation_id x,
      exists e x',
        _execute_extraction messages_create json_loads image_url
                            correlation_id x = (Raise e, x')) ->
  0 < semaphore s ->
  Forall (fun r => req_household_id r = a) requests ->
  retry_count a s <= max_retries s ->
  let '(outcomes, s') :=
    serve messages_create json_loads is_dict requests s in
  length outcomes = length requests /\
  returned outcomes = 0 /\
  retry_count a s'
  = Z.min (max_retries s) (retry_count a s + Z.of_nat (length requests)) /\
  total_requests (metrics s')
  = total_requests (metrics s)
    + Z.min (max_retries s - retry_count a s) (Z.of_nat (length requests)).
Proof.
  intros Hfail. revert s.
  induction requests as [|r rest IH]; intros s Hsem Hown Hle; cbn [serve].
  - unfold returned. cbn. repeat split; lia.
  - apply Forall_cons in Hown as [Hr Hrest].
    destruct (extract_recipe _ _ _ _ _ _ _ s) as [[o|] s1] eqn:E.
    + destruct (extract_recipe_step r s s1 o E)
        as (Hm & _ & Hs1 & _ & Hfast & Hslow & _).
      rewrite Hr in Hfast, Hslow.
      assert (Ho : exists e, o = Raise e).
      { revert E. unfold extract_recipe.
        destruct (bool_decide _); [intros H; injection H as <- _; eauto|].
        cbn [semaphore with_metrics]. destruct (bool_decide _); [|done].
        cbn [client with_metrics with_semaphore].
        destruct (Hfail (req_image_url r) (req_correlation_id r) (client s))
          as (e & x' & ->).
        intros H; injection H as <- _; eauto. }
      destruct Ho as [e ->].
      specialize (IH s1). rewrite Hs1, Hm in IH.
      destruct (decide (max_retries s <= retry_count a s)) as [Hex|Hex].
      * destruct (Hfast Hex) as [_ ->].
        specialize (IH Hsem Hrest Hle).
        destruct (serve _ _ _ rest s) as [os s2].
        destruct IH as (H1 & H2 & H3 & H4).
        unfold returned in *. cbn [length List.filter].
        split; [lia|]. split; [done|]. split; lia.
      * assert (Hlt : retry_count a s < max_retries s) by lia.
        destruct (Hslow Hlt) as (_ & Ht & _ & _ & _ & _ & Hc).
        assert (Hle1 : retry_count a s1 <= max_retries s) by lia.
        specialize (IH Hsem Hrest Hle1).
        destruct (serve _ _ _ rest s1) as [os s2].
        destruct IH as (H1 & H2 & H3 & H4).
        unfold returned in *. cbn [length List.filter].
        split; [lia|]. split; [done|]. split; lia.
    + exfalso. revert E. unfold extract_recipe.
      destruct (bool_decide _); [done|].
      cbn [semaphore with_metrics].
      rewrite bool_decide_eq_true_2 by done.
      destruct (_execute_extraction _ _ _ _ _) as [[res|e] x];
        [destruct (is_dict res)|]; done.
Qed.

(** X15.  A request that times out and an answer that is no JSON are
    failures like any other: one attempt of the owner is used and a
    failure is counted.  What the call raises is neither the 30-seconds
    error nor the error of [json.loads]: [_execute_extraction] raises the
    [TypeError] of the [logger.error] its handlers start with, and so does
    [extract_recipe]. *)
Theorem timeout_and_bad_answer_use_the_budget
        (image_url a correlation_id : string) (priority : Z) (s : @Service X) :
  retry_count a s < max_retries s ->
  0 < semaphore s ->
  (forall x,
      messages_create image_url (client s) = (TimedOut, x) ->
      _execute_extraction messages_create json_loads image_url correlation_id
                          (client s)
      = (Raise (LoggerTypeError "correlation_id"), x) /\
      exists s',
        extract_recipe messages_create json_loads is_dict image_url a
                       correlation_id priority s
        = (Some (Raise (LoggerTypeError "correlation_id")), s') /\
        retry_count a s' = retry_count a s + 1 /\
        failed (metrics s') = failed (metrics s) + 1 /\
        successful (metrics s') = successful (metrics s) /\
        client s' = x) /\
  (forall content e x,
      messages_create image_url (client s) = (Response content, x) ->
      json_loads content = Raise e ->
      _execute_extraction messages_create json_loads image_url correlation_id
                          (client s)
      = (Raise (LoggerTypeError "correlation_id"), x) /\
      exists s',
        extract_recipe messages_create json_loads is_dict image_url a
                       correlation_id priority s
        = (Some (Raise (LoggerTypeError "correlation_id")), s') /\
        retry_count a s' = retry_count a s + 1 /\
        failed (metrics s') = failed (metrics s) + 1 /\
        successful (metrics s') = successful (metrics s) /\
        client s' = x).
Proof.
  intros Hc Hs.
  assert (Hraise : forall e x,
             _execute_extraction messages_create json_loads image_url
                                 correlation_id (client s) = (Raise e, x) ->
             exists s',
               extract_recipe messages_create json_loads is_dict image_url a
                              correlation_id priority s
               = (Some (Raise (LoggerTypeError "correlation_id")), s') /\
               retry_count a s' = retry_count a s + 1 /\
               failed (metrics s') = failed (metrics s) + 1 /\
               successful (metrics s') = successful (metrics s) /\
               client s' = x).
  { intros e x Hx. unfold extract_recipe. fold (retry_count a s).
    rewrite bool_decide_eq_false_2 by lia. cbn [semaphore with_metrics].
    rewrite bool_decide_eq_true_2 by done.
    cbn [client with_metrics with_semaphore]. rewrite Hx. cbn.
    eexists. split; [reflexivity|].
    split; [unfold retry_count; cbn; by rewrite lookup_insert_eq|].
    by repeat split. }
  split.
  - intros x Hx.
    assert (Hx' : _execute_extraction messages_create json_loads image_url
                    correlation_id (client s)
                  = (Raise (LoggerTypeError "correlation_id"), x)).
    { unfold _execute_extraction. by rewrite Hx. }
    split; [done|]. by eapply Hraise.
  - intros content e x Hx Hj.
    assert (Hx' : _execute_extraction messages_create json_loads image_url
                    correlation_id (client s)
                  = (Raise (LoggerTypeError "correlation_id"), x)).
    { unfold _execute_extraction. by rewrite Hx, Hj. }
    split; [done|]. by eapply Hraise.
Qed.

End Service.

(** An answer that is a JSON list: the call counts a success, then a
    failure, and raises. *)
Example list_answer_counts_twice :
  let '(o, s') :=
    extract_recipe Samples.client_answers_list Samples.recipe_loads
                   Samples.answer_is_dict
                   "https://img/1.jpg" "household-A" "corr-1" 0
                   Samples.service_fresh in
  o = Some (Raise (LoggerTypeError "correlation_id")) /\
  total_requests (metrics s') = 1 /\
  successful (metrics s') = 1 /\
  failed (metrics s') = 1 /\
  retry_count "household-A" s' = 1.
Proof. vm_compute. by repeat split. Qed.

Lemma exhausted_owner_stays_exhausted_witness :
  max_retries Samples.service_a_exhausted
  <= retry_count "household-A" Samples.service_a_exhausted /\
  let '(outcomes, s') :=
    serve Samples.client_answers Samples.recipe_loads Samples.answer_is_dict
          [Samples.request_of "household-A"; Samples.request_of "household-B";
           Samples.request_of "household-A"]
          Samples.service_a_exhausted in
  retry_count "household-A" s'
  = retry_count "household-A" Samples.service_a_exhausted /\
  max_retries s' = max_retries Samples.service_a_exhausted /\
  forall i r o,
    [Samples.request_of "household-A"; Samples.request_of "household-B";
     Samples.request_of "household-A"] !! i = Some r ->
    outcomes !! i = Some o ->
    req_household_id r = "household-A" ->
    o = Raise (LoggerTypeError "correlation_id") /\
    o <> Raise (Exhausted (max_retries Samples.service_a_exhausted)).
Proof.
  assert (Hex : max_retries Samples.service_a_exhausted
                <= retry_count "household-A" Samples.service_a_exhausted).
  { vm_compute. discriminate. }
  split; [exact Hex|].
  exact (exhausted_owner_stays_exhausted Samples.client_answers
           Samples.recipe_loads Samples.answer_is_dict "household-A"
           [Samples.request_of "household-A"; Samples.request_of "household-B";
            Samples.request_of "household-A"]
           Samples.service_a_exhausted Hex).
Defined.

Lemma failing_client_is_asked_within_budget_witness :
  let '(outcomes, s') :=
    serve Samples.client_times_out Samples.recipe_loads Samples.answer_is_dict
          (replicate 5 (Samples.request_of "household-A"))
          Samples.service_fresh in
  length outcomes = length (replicate 5 (Samples.request_of "household-A")) /\
  returned outcomes = 0 /\
  retry_count "household-A" s'
  = Z.min (max_retries Samples.service_fresh)
          (retry_count "household-A" Samples.service_fresh
           + Z.of_nat (length (replicate 5 (Samples.request_of "household-A")))) /\
  total_requests (metrics s')
  = total_requests (metrics Samples.service_fresh)
    + Z.min (max_retries Samples.service_fresh
             - retry_count "household-A" Samples.service_fresh)
            (Z.of_nat (length (replicate 5 (Samples.request_of "household-A")))).
Proof.
  apply (failing_client_is_asked_within_budget Samples.client_times_out
           Samples.recipe_loads Samples.answer_is_dict "household-A"
           (replicate 5 (Samples.request_of "household-A"))
           Samples.service_fresh).
  - intros image_url correlation_id x.
    by exists (LoggerTypeError "correlation_id"), tt.
  - reflexivity.
  - repeat constructor.
  - vm_compute. discriminate.
Defined.

Lemma timeout_and_bad_answer_use_the_budget_witness :
  (retry_count "household-A" Samples.service_fresh
   < max_retries Samples.service_fresh /\
   0 < semaphore Samples.service_fresh) /\
  (forall x,
      Samples.client_answers_prose "https://img/1.jpg"
        (client Samples.service_fresh) = (TimedOut, x) ->
      _execute_extraction Samples.client_answers_prose Samples.strict_loads
        "https://img/1.jpg" "corr-1" (client Samples.service_fresh)
      = (Raise (LoggerTypeError "correlation_id"), x) /\
      exists s',
        extract_recipe Samples.client_answers_prose Samples.strict_loads
          Samples.answer_is_dict
          "https://img/1.jpg" "household-A" "corr-1" 0 Samples.service_fresh
        = (Some (Raise (LoggerTypeError "correlation_id")), s') /\
        retry_count "household-A" s'
        = retry_count "household-A" Samples.service_fresh + 1 /\
        failed (metrics s') = failed (metrics Samples.service_fresh) + 1 /\
        successful (metrics s') = successful (metrics Samples.service_fresh) /\
        client s' = x) /\
  (forall content e x,
      Samples.client_answers_prose "https://img/1.jpg"
        (client Samples.service_fresh) = (Response content, x) ->
      Samples.strict_loads content = Raise e ->
      _execute_extraction Samples.client_answers_prose Samples.strict_loads
        "https://img/1.jpg" "corr-1" (client Samples.service_fresh)
      = (Raise (LoggerTypeError "correlation_id"), x) /\
      exists s',
        extract_recipe Samples.client_answers_prose Samples.strict_loads
          Samples.answer_is_dict
          "https://img/1.jpg" "household-A" "corr-1" 0 Samples.service_fresh
        = (Some (Raise (LoggerTypeError "correlation_id")), s') /\
        retry_count "household-A" s'
        = retry_count "household-A" Samples.service_fresh + 1 /\
        failed (metrics s') = failed (metrics Samples.service_fresh) + 1 /\
        successful (metrics s') = successful (metrics Samples.service_fresh) /\
        client s' = x).
Proof.
  split; [split; reflexivity|].
  apply (timeout_and_bad_answer_use_the_budget Samples.client_answers_prose
           Samples.strict_loads Samples.answer_is_dict
           "https://img/1.jpg" "household-A" "corr-1" 0
           Samples.service_fresh); reflexivity.
Defined.

End RateLimitedSequenceFacts.

(** ** Windows, backoff and counters of the batch sender *)

Module BatchWindowFacts.

Import BatchSender.

Lemma chunked_count {A} (n : nat) (q : list A) ws :
  (0 < n)%nat ->
  chunked n q ws ->
  length ws = ((length q + n - 1) / n)%nat /\
  Forall (fun w => (0 < length w <= n)%nat) ws.
Proof.
  intros Hn. induction 1 as [|q cs Hne Hc [IHl IHf]].
  - split; [|constructor]. simpl.
    symmetry. apply Nat.div_small. lia.
  - assert (Hq : (0 < length q)%nat) by (destruct q; [done|simpl; lia]).
    split.
    + simpl. rewrite IHl, length_drop.
      destruct (decide (length q <= n)%nat) as [Hle|Hgt].
      * replace (length q - n + n - 1)%nat with (n - 1)%nat by lia.
        rewrite (Nat.div_small (n - 1) n) by lia.
        apply (Nat.div_unique _ n 1%nat (length q - 1)%nat); lia.
      * replace (length q + n - 1)%nat
          with ((length q - n + n - 1) + 1 * n)%nat by lia.
        rewrite Nat.div_add by lia. lia.
    + constructor; [|done]. rewrite length_take. lia.
Qed.

Lemma slept_app (a b : list SendEvent) : slept (a ++ b) = slept a + slept b.
Proof.
  induction a as [|ev a IH]; [done|]. destruct ev; simpl; rewrite IH; lia.
Qed.

Section Sender.

Context {X : Type}.
Variable send_message :
  string -> string -> option string -> X -> Outcome string * X.
Variable send_media_message :
  string -> string -> string -> option string -> X -> Outcome string * X.

(** X16.  Whatever the size of the batch, it goes out in [ceil(len / rate_limit)]
    windows, in the order of the batch, none of them empty and none of more
    than [rate_limit] messages, and two windows in a row start at least one
    second apart. *)
Theorem send_batch_windows messages (s : @Sender) (x : X) :
  0 < rate_limit s ->
  queue s = [] ->
  exists results s' x' tr,
    (forall fuel, (length messages < fuel)%nat ->
       send_batch send_message send_media_message fuel messages s x
       = Some (results, s', x', tr)) /\
    concat (windows tr) = messages /\
    length (windows tr)
    = ((length messages + Z.to_nat (rate_limit s) - 1)
         / Z.to_nat (rate_limit s))%nat /\
    Forall (fun w => (0 < length w <= Z.to_nat (rate_limit s))%nat)
           (windows tr) /\
    (forall took now, spaced 1 (window_starts took 0 now tr)).
Proof.
  intros Hrate Hq.
  destruct (BatchSenderFacts.send_batch_spec send_message send_media_message
              messages s x Hrate Hq)
    as (results & s' & x' & tr & outs & Hrun & _ & _ & _ & _ & _ & Hp & Hc).
  assert (Hn : (0 < Z.to_nat (rate_limit s))%nat) by lia.
  destruct (chunked_count _ _ _ Hn Hc) as [Hlen Hall].
  exists results, s', x', tr. split; [done|].
  split; [by eapply BatchSenderFacts.chunked_concat|].
  split; [done|]. split; [done|].
  intros took now. by apply BatchSenderFacts.paced_spaced.
Qed.

Lemma turn_without_window (s : @Sender) (x : X) results tr :
  rate_limit s <= 0 ->
  queue s <> [] ->
  turn send_message send_media_message s x results tr
  = (results, s, x, tr ++ [window []] ++ [rate_limit_sleep 1]).
Proof.
  intros Hrate Hq. unfold turn.
  replace (Z.to_nat (rate_limit s)) with 0%nat by lia.
  rewrite take_0, drop_0. cbn.
  destruct s as [rl ra q st]. cbn in *.
  destruct q; [done|]. by rewrite <- app_assoc.
Qed.

(** X17.  With a window of no message ([rate_limit <= 0]) and something to
    send, the loop of [send_batch] takes nothing out of the queue, sleeps
    and starts again: the call never returns, however many turns it is
    given. *)
Theorem send_batch_never_ends_without_a_window messages (s : @Sender) (x : X) :
  rate_limit s <= 0 ->
  queue s ++ messages <> [] ->
  forall fuel,
    send_batch send_message send_media_message fuel messages s x = None.
Proof.
  intros Hrate Hq fuel. unfold send_batch.
  generalize (@nil BatchEvent) as tr.
  assert (Hq' : queue (with_queue (queue s ++ messages) s) <> []) by done.
  assert (Hrate' : rate_limit (with_queue (queue s ++ messages) s) <= 0) by done.
  revert Hq' Hrate'. generalize (with_queue (queue s ++ messages) s) as s0.
  clear Hq Hrate. intros s0 Hq Hrate.
  induction fuel as [|fuel IH]; intros tr; [done|].
  cbn [drain]. destruct (queue s0) eqn:E; [done|].
  rewrite turn_without_window by (done || by rewrite E).
  apply IH.
Qed.

(** X18.  One send is one attempt at most, with no backoff: the first answer
    of the provider decides.  A message id is returned; an error is not
    followed by a sleep and a second attempt, the [logger.warning] of the
    handler raising [TypeError] out of [_send_with_retry].  With no
    attempt allowed the provider is not asked.  [retried] is never
    counted. *)
Theorem one_send_is_one_attempt msg (s : @Sender) (x : X) :
  let '(o, s', x', t) :=
    _send_with_retry send_message send_media_message msg s x in
  slept t = 0 /\
  retried (stats s') = retried (stats s) /\
  if bool_decide (0 < retry_attempts s) then
    match provider_send send_message send_media_message msg x with
    | (Return message_id, x1) =>
        o = Return message_id /\ x' = x1 /\ t = [sms_sent 1]
    | (Raise e, x1) =>
        o = Raise (LoggerTypeError "correlation_id") /\ x' = x1 /\
        t = [sms_send_failed 1 (str e)]
    end
  else
    o = Raise (LoggerTypeError "correlation_id") /\ x' = x /\
    t = [sms_send_exhausted (retry_attempts s) "None"].
Proof.
  rewrite BatchSenderFacts.send_with_retry_once.
  destruct (bool_decide (0 < retry_attempts s)).
  - by destruct (provider_send send_message send_media_message msg x)
      as [[mid|e] x1].
  - done.
Qed.

(** What holds when the loop starts and is kept by each turn holds when
    the loop is over. *)
Lemma drain_invariant
      (P : Results * @Sender * X * list BatchEvent -> Prop) :
  (forall s x results tr,
      queue s <> [] ->
      P (results, s, x, tr) ->
      P (turn send_message send_media_message s x results tr)) ->
  forall fuel s x results tr r,
    P (results, s, x, tr) ->
    drain send_message send_media_message fuel s x results tr = Some r ->
    P r.
Proof.
  intros Hturn. induction fuel as [|fuel IH]; intros s x results tr r HP; [done|].
  cbn [drain]. destruct (queue s) eqn:E.
  - intros H. by injection H as <-.
  - pose proof (Hturn s x results tr ltac:(by rewrite E) HP) as HP'.
    destruct (turn _ _ s x results tr) as [[[r1 s1] x1] tr1].
    by apply IH.
Qed.

Lemma attempts_stats n attempt ra msg last_error st (x : X) tr :
  let '(o, st', _, _) :=
    attempts send_message send_media_message n attempt ra msg last_error st x tr in
  sent st' = sent st /\
  failed_count st' = failed_count st /\
  retried st <= retried st' /\
  retried st' <= retried st + match o with Return _ => 1 | Raise _ => 0 end.
Proof.
  revert attempt last_error x tr. induction n as [|n IH];
    intros attempt last_error x tr; cbn [attempts].
  - cbn. repeat split; lia.
  - destruct (provider_send _ _ msg x) as [[mid|e] x'].
    + destruct (bool_decide (0 < attempt)); cbn; repeat split; lia.
    + cbn. repeat split; lia.
Qed.

Lemma gather_stats batch (s : @Sender) (x : X) :
  let '(outs, s', _) := gather send_message send_media_message batch s x in
  sent (stats s') = sent (stats s) /\
  failed_count (stats s') = failed_count (stats s) /\
  retried (stats s) <= retried (stats s') /\
  retried (stats s') <= retried (stats s) + Z.of_nat (length (successes outs)).
Proof.
  revert s x. induction batch as [|msg rest IH]; intros s x; cbn [gather].
  - cbn. repeat split; lia.
  - unfold _send_with_retry.
    pose proof (attempts_stats (Z.to_nat (retry_attempts s)) 0 (retry_attempts s)
                  msg None (stats s) x []) as H1.
    destruct (attempts _ _ _ _ _ _ _ _ _ _) as [[[o st1] x1] tr1].
    pose proof (IH (with_stats st1 s) x1) as H2.
    destruct (gather _ _ rest _ x1) as [[os s2] x2].
    cbn [stats with_stats] in H2.
    destruct H1 as (A1 & A2 & A3 & A4). destruct H2 as (B1 & B2 & B3 & B4).
    assert (Hlen : Z.of_nat (length (successes ((msg, o, tr1) :: os)))
                   = match o with Return _ => 1 | Raise _ => 0 end
                     + Z.of_nat (length (successes os))).
    { unfold successes. destruct o; cbn; lia. }
    rewrite Hlen. repeat split; lia.
Qed.

Lemma collect_stats outs results st :
  let '(_, st') := collect outs results st in
  sent st' = sent st + Z.of_nat (length (successes outs)) /\
  failed_count st' = failed_count st + Z.of_nat (length (failures outs)) /\
  retried st' = retried st.
Proof.
  revert results st. induction outs as [|[[msg o] t] rest IH]; intros results st.
  - cbn. repeat split; lia.
  - destruct o as [mid|e]; cbn [collect].
    + pose proof (IH {| success := success results ++ [(to msg, mid)];
                        failed := failed results |} (incr_sent st)) as H.
      destruct (collect rest _ _) as [r' st']. destruct H as (H1 & H2 & H3).
      unfold successes, failures in *. cbn in *. repeat split; lia.
    + pose proof (IH {| success := success results;
                        failed := failed results ++ [(to msg, str e)] |}
                     (incr_failed st)) as H.
      destruct (collect rest _ _) as [r' st']. destruct H as (H1 & H2 & H3).
      unfold successes, failures in *. cbn in *. repeat split; lia.
Qed.

(** X19.  The counters of the sender follow the results over the calls: a call
    adds to [sent] the length of the [success] it returns and to [failed]
    the length of its [failed], on top of what earlier calls left there;
    [retried] grows by at most one for a message sent. *)
Theorem stats_follow_the_results messages (s : @Sender) (x : X) :
  0 < rate_limit s ->
  queue s = [] ->
  exists results s' x' tr,
    (forall fuel, (length messages < fuel)%nat ->
       send_batch send_message send_media_message fuel messages s x
       = Some (results, s', x', tr)) /\
    sent (stats s') = sent (stats s) + Z.of_nat (length (success results)) /\
    failed_count (stats s')
    = failed_count (stats s) + Z.of_nat (length (failed results)) /\
    retried (stats s) <= retried (stats s') /\
    retried (stats s') <= retried (stats s) + Z.of_nat (length (success results)).
Proof.
  intros Hrate Hq.
  destruct (BatchSenderFacts.send_batch_spec send_message send_media_message
              messages s x Hrate Hq)
    as (results & s' & x' & tr & outs & Hrun & _).
  exists results, s', x', tr. split; [done|].
  specialize (Hrun (S (length messages)) ltac:(lia)). unfold send_batch in Hrun.
  set (P := fun r : Results * @Sender * X * list BatchEvent =>
              sent (stats r.1.1.2)
              = sent (stats s) + Z.of_nat (length (success r.1.1.1)) /\
              failed_count (stats r.1.1.2)
              = failed_count (stats s) + Z.of_nat (length (failed r.1.1.1)) /\
              retried (stats s) <= retried (stats r.1.1.2) /\
              retried (stats r.1.1.2)
              <= retried (stats s) + Z.of_nat (length (success r.1.1.1))).
  refine (drain_invariant P _ _ _ _ _ _ _ _ Hrun).
  - clear. intros s1 x1 results tr _ (H1 & H2 & H3 & H4). cbn in H1, H2, H3, H4.
    unfold turn.
    pose proof (gather_stats (take (Z.to_nat (rate_limit s1)) (queue s1))
                  (with_queue (drop (Z.to_nat (rate_limit s1)) (queue s1)) s1) x1)
      as Hg.
    destruct (gather _ _ _ _ _) as [[outs s2] x2].
    cbn [stats with_queue] in Hg. destruct Hg as (G1 & G2 & G3 & G4).
    pose proof (collect_stats outs results (stats s2)) as Hc.
    pose proof (BatchSenderFacts.collect_spec outs results (stats s2)) as Hr.
    destruct (collect outs results (stats s2)) as [results' st'].
    destruct Hc as (C1 & C2 & C3). destruct Hr as [R1 R2].
    unfold P. cbn. rewrite R1, R2, !length_app. lia.
  - unfold P. cbn. lia.
Qed.

Lemma all_failed (e : Exn) (t : list SendEvent) (batch : list SMSMessage) :
  successes (map (fun m => (m, Raise e, t)) batch) = [] /\
  failures (map (fun m => (m, Raise e, t)) batch)
  = map (fun m => (to m, str e)) batch.
Proof.
  unfold successes, failures.
  induction batch as [|m rest [IH1 IH2]]; [done|]. cbn. by rewrite IH1, IH2.
Qed.

(** X20.  A sender that is allowed no attempt ([retry_attempts <= 0]) never
    calls the provider: every message of the batch comes back in [failed]
    and nothing in [success].  The text that [failed] holds is that of the
    [TypeError] of [logger.error], which raises before [raise last_error]
    is reached. *)
Theorem no_attempt_no_send messages (s : @Sender) (x : X) :
  retry_attempts s <= 0 ->
  0 < rate_limit s ->
  queue s = [] ->
  exists results s' tr,
    (forall fuel, (length messages < fuel)%nat ->
       send_batch send_message send_media_message fuel messages s x
       = Some (results, s', x, tr)) /\
    success results = [] /\
    failed results
    = map (fun m =>
             (to m,
              "Logger._log() got an unexpected keyword argument 'correlation_id'"))
          messages.
Proof.
  intros Hra Hrate Hq.
  destruct (BatchSenderFacts.send_batch_spec send_message send_media_message
              messages s x Hrate Hq)
    as (results & s' & x' & tr & outs & Hrun & _ & (_ & _ & Hpin) & Hs & Hfl
        & Hq' & _).
  rewrite bool_decide_eq_false_2 in Hpin by lia. destruct Hpin as [-> ->].
  destruct (all_failed (LoggerTypeError "correlation_id")
              [sms_send_exhausted (retry_attempts s) "None"] messages)
    as [F1 F2].
  exists results, s', tr. split; [done|].
  split; [by rewrite Hs, F1|]. by rewrite Hfl, F2.
Qed.

End Sender.

Lemma send_batch_windows_witness :
  exists results s' x' tr,
    (forall fuel, (length Samples.messages_250 < fuel)%nat ->
       send_batch Samples.provider_sms Samples.provider_mms fuel
                  Samples.messages_250 Samples.sender_80 tt
       = Some (results, s', x', tr)) /\
    concat (windows tr) = Samples.messages_250 /\
    length (windows tr)
    = ((length Samples.messages_250 + Z.to_nat (rate_limit Samples.sender_80) - 1)
         / Z.to_nat (rate_limit Samples.sender_80))%nat /\
    Forall (fun w => (0 < length w <= Z.to_nat (rate_limit Samples.sender_80))%nat)
           (windows tr) /\
    (forall took now, spaced 1 (window_starts took 0 now tr)).
Proof.
  apply (send_batch_windows Samples.provider_sms Samples.provider_mms
           Samples.messages_250 Samples.sender_80 tt); reflexivity.
Defined.

Lemma send_batch_never_ends_without_a_window_witness :
  rate_limit Samples.sender_no_window <= 0 /\
  forall fuel,
    send_batch Samples.provider_sms Samples.provider_mms fuel
               Samples.messages_3 Samples.sender_no_window tt = None.
Proof.
  assert (H : rate_limit Samples.sender_no_window <= 0)
    by (vm_compute; discriminate).
  split; [exact H|].
  apply (send_batch_never_ends_without_a_window Samples.provider_sms
           Samples.provider_mms Samples.messages_3 Samples.sender_no_window tt H).
  discriminate.
Defined.

Lemma stats_follow_the_results_witness :
  exists results s' x' tr,
    (forall fuel, (length Samples.messages_3 < fuel)%nat ->
       send_batch Samples.provider_sms Samples.provider_mms fuel
                  Samples.messages_3 Samples.sender_used tt
       = Some (results, s', x', tr)) /\
    sent (stats s')
    = sent (stats Samples.sender_used) + Z.of_nat (length (success results)) /\
    failed_count (stats s')
    = failed_count (stats Samples.sender_used)
      + Z.of_nat (length (failed results)) /\
    retried (stats Samples.sender_used) <= retried (stats s') /\
    retried (stats s')
    <= retried (stats Samples.sender_used) + Z.of_nat (length (success results)).
Proof.
  apply (stats_follow_the_results Samples.provider_sms Samples.provider_mms
           Samples.messages_3 Samples.sender_used tt); reflexivity.
Defined.

Lemma no_attempt_no_send_witness :
  exists results s' tr,
    (forall fuel, (length Samples.messages_3 < fuel)%nat ->
       send_batch Samples.provider_sms Samples.provider_mms fuel
                  Samples.messages_3 Samples.sender_no_attempt tt
       = Some (results, s', tt, tr)) /\
    success results = [] /\
    failed results
    = map (fun m =>
             (to m,
              "Logger._log() got an unexpected keyword argument 'correlation_id'"))
          Samples.messages_3.
Proof.
  apply (no_attempt_no_send Samples.provider_sms Samples.provider_mms
           Samples.messages_3 Samples.sender_no_attempt tt).
  - vm_compute. discriminate.
  - reflexivity.
  - reflexivity.
Defined.

End BatchWindowFacts.

(** ** The cache of the state manager: misses, deletions, expiry, owners *)

Module HybridCacheFacts.

Import HybridState.

Lemma append_colon_inj (h h' r r' : string) :
  no_colon h = true -> no_colon h' = true ->
  h +:+ ":" +:+ r = h' +:+ ":" +:+ r' ->
  h = h' /\ r = r'.
Proof.
  revert h'. induction h as [|a h IH]; intros [|a' h'] Hh Hh' H.
  - cbn in H. by injection H.
  - cbn in H. injection H as <- _. cbn in Hh'. done.
  - cbn in H. injection H as -> _. cbn in Hh. done.
  - cbn [String.append] in H. injection H as <- H.
    cbn [no_colon] in Hh, Hh'.
    apply andb_prop in Hh as [_ Hh]. apply andb_prop in Hh' as [_ Hh'].
    destruct (IH h' Hh Hh' H) as [-> ->]. done.
Qed.

(** The cache keys of two owners are the same only if the owners are:
    the household ids are the same and the member ids are, the empty
    member id standing for the group as [None] does. *)
Lemma cache_key_inj h mem h' mem' :
  no_colon h = true -> no_colon h' = true ->
  _get_cache_key h mem = _get_cache_key h' mem' ->
  h = h' /\ truthy mem = truthy mem'.
Proof.
  intros Hh Hh'. unfold _get_cache_key, truthy.
  assert (Hgroup : "state:group:" +:+ h = "state:group:" +:+ h' -> h = h').
  { cbn. intros H. by simplify_eq. }
  assert (Hind : forall r r',
             "state:individual:" +:+ h +:+ ":" +:+ r
             = "state:individual:" +:+ h' +:+ ":" +:+ r' ->
             h = h' /\ r = r').
  { intros r r'. cbn -[String.append]. cbn [String.append]. intros H.
    apply (append_colon_inj _ _ _ _ Hh Hh'). by simplify_eq. }
  assert (Hmix : forall a b, "state:group:" +:+ a <> "state:individual:" +:+ b).
  { intros a b. cbn. intros H. by simplify_eq. }
  destruct mem as [[|a m]|], mem' as [[|a' m']|]; intros H;
    try (by apply Hgroup in H as ->);
    try (by apply Hmix in H);
    try (by symmetry in H; apply Hmix in H).
  destruct (Hind _ _ H) as [-> E]. by rewrite E.
Qed.

Section Manager.

Context {State DB : Type}.
Variable json_dumps : State -> string.
Variable json_loads : string -> Outcome State.
Variable _load_from_db : string -> option string -> DB -> Outcome (option State).

Abbreviation get_state' := (get_state json_dumps json_loads _load_from_db).

(** A live entry of the cache is what a read returns, whatever the rest of
    the manager holds. *)
Lemma cached_is_served now h mem (m : @Manager State DB) c ex :
  c <> "" ->
  Redis.find now (_get_cache_key h mem) (redis m)
  = Some {| Redis.value := Redis.VStr c; Redis.expires_at := ex |} ->
  (get_state' now h mem m).1 = cache_hit json_loads c.
Proof.
  intros Hc Hf. unfold get_state, Redis.get. rewrite Hf. cbn [Redis.value].
  unfold truthy, cache_hit. destruct c as [|a c]; [done|].
  by destruct (json_loads (String a c)).
Qed.

(** What a read that finds no live entry in the cache returns. *)
Lemma miss_reads_the_db now h mem (m : @Manager State DB) :
  Redis.find now (_get_cache_key h mem) (redis m) = None ->
  0 < ttl m ->
  get_state' now h mem m
  = match _load_from_db h mem (db m) with
    | Raise e => (Raise e, logged INFO "state_cache_miss" h mem m)
    | Return None => (Return None, logged INFO "state_cache_miss" h mem m)
    | Return (Some state) =>
        (Return (Some state),
         with_redis
           (<[_get_cache_key h mem :=
                {| Redis.value := Redis.VStr (json_dumps state);
                   Redis.expires_at := Some (now + ttl m) |}]> (redis m))
           (logged INFO "state_cache_miss" h mem m))
    end.
Proof.
  intros Hf Httl. unfold get_state, Redis.get. rewrite Hf.
  cbn [truthy db logged ttl redis].
  destruct (_load_from_db h mem (db m)) as [[state|]|e]; try done.
  by rewrite RedisFacts.setex_ok.
Qed.

(** X21.  A read that misses the cache and finds the state in the durable store
    returns it and caches its text: until that entry expires, reads are
    served from the cache alone, whatever has become of the durable store,
    and return what [json.loads] makes of [json.dumps(state, default=str)]. *)
Theorem miss_fills_the_cache now now' h mem (m : @Manager State DB) state :
  Redis.find now (_get_cache_key h mem) (redis m) = None ->
  _load_from_db h mem (db m) = Return (Some state) ->
  0 < ttl m ->
  json_dumps state <> "" ->
  now <= now' < now + ttl m ->
  exists m1,
    get_state' now h mem m = (Return (Some state), m1) /\
    db m1 = db m /\
    background_tasks m1 = background_tasks m /\
    forall m2 : @Manager State DB,
      redis m2 = redis m1 ->
      (get_state' now' h mem m2).1 = cache_hit json_loads (json_dumps state).
Proof.
  intros Hf Hdb Httl Hne Hwin.
  rewrite (miss_reads_the_db _ _ _ _ Hf Httl), Hdb.
  eexists. split; [reflexivity|]. split; [done|]. split; [done|].
  intros m2 Hr. eapply cached_is_served; [done|]. rewrite Hr. cbn [redis with_redis].
  apply RedisFacts.find_insert_eq.
  unfold Redis.live. cbn. apply bool_decide_eq_true_2. lia.
Qed.

(** X22.  A deleted state comes back: [delete_state] empties the cache and only
    queues the deletion in the durable store, so a read that follows
    before the worker has run finds the old state there, returns it and
    caches it again; it is then served until that entry expires, also
    after the worker has deleted the row. *)
Theorem deleted_state_comes_back now now' h mem (m : @Manager State DB) old :
  _load_from_db h mem (db m) = Return (Some old) ->
  0 < ttl m ->
  json_dumps old <> "" ->
  now <= now' < now + ttl m ->
  exists m1 m2,
    delete_state h mem m = (Return tt, m1) /\
    db m1 = db m /\
    background_tasks m1 = background_tasks m ++ [delete h mem] /\
    get_state' now h mem m1 = (Return (Some old), m2) /\
    background_tasks m2 = background_tasks m1 /\
    forall m3 : @Manager State DB,
      redis m3 = redis m2 ->
      (get_state' now' h mem m3).1 = cache_hit json_loads (json_dumps old).
Proof.
  intros Hdb Httl Hne Hwin.
  eexists _, _. split; [reflexivity|]. split; [done|]. split; [done|].
  rewrite miss_reads_the_db; cbn [redis db ttl logged put with_redis].
  - rewrite Hdb. split; [reflexivity|]. split; [done|].
    intros m3 Hr. eapply cached_is_served; [done|]. rewrite Hr. cbn [redis with_redis].
    apply RedisFacts.find_insert_eq.
    unfold Redis.live. cbn. apply bool_decide_eq_true_2. lia.
  - unfold Redis.find, Redis.delete. by rewrite lookup_delete_eq.
  - done.
Qed.

(** X23.  A write lives in the cache for [ttl] seconds and no longer: a read at
    [now + ttl] or later, the worker not having persisted the write yet,
    misses the cache and returns what the durable store holds, which is not
    the write. *)
Theorem write_is_gone_when_the_cache_expires now now' h mem
        (m : @Manager State DB) (v : State) :
  0 < ttl m ->
  now + ttl m <= now' ->
  _load_from_db h mem (db m) = Return None ->
  exists m1 m2,
    update_state json_dumps now h v mem m = (Return tt, m1) /\
    background_tasks m1 = background_tasks m ++ [persist h mem v] /\
    get_state' now' h mem m1 = (Return None, m2) /\
    background_tasks m2 = background_tasks m1.
Proof.
  intros Httl Hlate Hdb.
  eexists _, _. split.
  { unfold update_state. rewrite RedisFacts.setex_ok by done. reflexivity. }
  split; [done|].
  rewrite miss_reads_the_db; cbn [redis db ttl logged put with_redis].
  - rewrite Hdb. split; [reflexivity|done].
  - unfold Redis.find. rewrite lookup_insert_eq. unfold Redis.live. cbn.
    by rewrite bool_decide_eq_false_2 by lia.
  - done.
Qed.

(** X24.  The owners are kept apart: for household ids without [:], a write for
    one owner leaves what a read returns for any other owner as it was. *)
Theorem update_leaves_other_owners now now' h mem h' mem'
        (m : @Manager State DB) (v : State) :
  no_colon h = true ->
  no_colon h' = true ->
  (h, truthy mem) <> (h', truthy mem') ->
  0 < ttl m ->
  exists m1,
    update_state json_dumps now h v mem m = (Return tt, m1) /\
    (get_state' now' h' mem' m1).1 = (get_state' now' h' mem' m).1.
Proof.
  intros Hh Hh' Hne Httl.
  assert (Hk : _get_cache_key h mem <> _get_cache_key h' mem').
  { intros E. destruct (cache_key_inj _ _ _ _ Hh Hh' E) as [E1 E2].
    apply Hne. by rewrite E1, E2. }
  eexists. split.
  { unfold update_state. rewrite RedisFacts.setex_ok by done. reflexivity. }
  unfold get_state, Redis.get. cbn [redis db ttl logged put with_redis].
  rewrite RedisFacts.find_insert_ne by done.
  destruct (Redis.find now' (_get_cache_key h' mem') (redis m)) as [[[c|l] ex]|];
    cbn [Redis.value]; [|done|].
  - destruct (truthy (Some c)) as [c'|].
    + by destruct (json_loads c').
    + destruct (_load_from_db h' mem' (db m)) as [[state|]|e]; try done.
      rewrite !RedisFacts.setex_ok by done. done.
  - cbn [truthy].
    destruct (_load_from_db h' mem' (db m)) as [[state|]|e]; try done.
    rewrite !RedisFacts.setex_ok by done. done.
Qed.

End Manager.

Lemma miss_fills_the_cache_witness :
  exists m1,
    get_state Samples.flow_dumps Samples.flow_loads Samples.one_row 0
              "household-1" (Some "member-7") Samples.fresh_manager
    = (Return (Some Samples.StepOne), m1) /\
    db m1 = db Samples.fresh_manager /\
    background_tasks m1 = background_tasks Samples.fresh_manager /\
    forall m2 : @Manager Samples.FlowState unit,
      redis m2 = redis m1 ->
      (get_state Samples.flow_dumps Samples.flow_loads Samples.one_row 299
                 "household-1" (Some "member-7") m2).1
      = cache_hit Samples.flow_loads (Samples.flow_dumps Samples.StepOne).
Proof.
  apply (miss_fills_the_cache Samples.flow_dumps Samples.flow_loads
           Samples.one_row 0 299 "household-1" (Some "member-7")
           Samples.fresh_manager Samples.StepOne).
  - reflexivity.
  - reflexivity.
  - reflexivity.
  - discriminate.
  - cbn. lia.
Defined.

Lemma deleted_state_comes_back_witness :
  exists m1 m2,
    delete_state "household-1" (Some "member-7") Samples.fresh_manager
    = (Return tt, m1) /\
    db m1 = db Samples.fresh_manager /\
    background_tasks m1
    = background_tasks Samples.fresh_manager
      ++ [delete "household-1" (Some "member-7")] /\
    get_state Samples.flow_dumps Samples.flow_loads Samples.one_row 0
              "household-1" (Some "member-7") m1
    = (Return (Some Samples.StepOne), m2) /\
    background_tasks m2 = background_tasks m1 /\
    forall m3 : @Manager Samples.FlowState unit,
      redis m3 = redis m2 ->
      (get_state Samples.flow_dumps Samples.flow_loads Samples.one_row 299
                 "household-1" (Some "member-7") m3).1
      = cache_hit Samples.flow_loads (Samples.flow_dumps Samples.StepOne).
Proof.
  apply (deleted_state_comes_back Samples.flow_dumps Samples.flow_loads
           Samples.one_row 0 299 "household-1" (Some "member-7")
           Samples.fresh_manager Samples.StepOne).
  - reflexivity.
  - reflexivity.
  - discriminate.
  - cbn. lia.
Defined.

Lemma write_is_gone_when_the_cache_expires_witness :
  exists m1 m2,
    update_state Samples.flow_dumps 0 "household-1" Samples.StepTwo
                 (Some "member-7") Samples.fresh_manager = (Return tt, m1) /\
    background_tasks m1
    = background_tasks Samples.fresh_manager
      ++ [persist "household-1" (Some "member-7") Samples.StepTwo] /\
    get_state Samples.flow_dumps Samples.flow_loads Samples.no_rows 300
              "household-1" (Some "member-7") m1
    = (Return None, m2) /\
    background_tasks m2 = background_tasks m1.
Proof.
  apply (write_is_gone_when_the_cache_expires Samples.flow_dumps
           Samples.flow_loads Samples.no_rows 0 300 "household-1"
           (Some "member-7") Samples.fresh_manager Samples.StepTwo).
  - reflexivity.
  - cbn. lia.
  - reflexivity.
Defined.

Lemma update_leaves_other_owners_witness :
  exists m1,
    update_state Samples.flow_dumps 0 "household-1" Samples.StepTwo
                 (Some "member-7") Samples.fresh_manager = (Return tt, m1) /\
    (get_state Samples.flow_dumps Samples.flow_loads Samples.one_row 10
               "household-2" None m1).1
    = (get_state Samples.flow_dumps Samples.flow_loads Samples.one_row 10
                 "household-2" None Samples.fresh_manager).1.
Proof.
  apply (update_leaves_other_owners Samples.flow_dumps Samples.flow_loads
           Samples.one_row 0 10 "household-1" (Some "member-7")
           "household-2" None Samples.fresh_manager Samples.StepTwo).
  - reflexivity.
  - reflexivity.
  - discriminate.
  - reflexivity.
Defined.

End HybridCacheFacts.

(** ** The event queue: order, retention, failures *)

Module EventQueueFacts.

Import Idempotency.

Lemma idempotency_key_inj {Data} (e e' : @Event Data) :
  idempotency_key e = idempotency_key e' -> event_id e = event_id e'.
Proof. unfold idempotency_key. cbn. intros H. by simplify_eq. Qed.

Lemma queue_entry_cons x l :
  queue_entry (x :: l)
  = Some {| Redis.value := Redis.VList (x :: l); Redis.expires_at := None |}.
Proof. done. Qed.

Lemma queue_entry_snoc l x :
  queue_entry (l ++ [x])
  = Some {| Redis.value := Redis.VList (l ++ [x]); Redis.expires_at := None |}.
Proof. by destruct l. Qed.

Lemma find_queue_entry now k (st : Redis.Store) l :
  st !! k = queue_entry l -> Redis.find now k st = queue_entry l.
Proof. unfold Redis.find. intros ->. by destruct l. Qed.

Section Bus.

Context {Data : Type}.
Variable Event_json : @Event Data -> Outcome string.
Variable json_loads : string -> Outcome (@Event Data).

(** An [emit] of an event that is not marked, on a queue of elements that
    do not expire. *)
Lemma emit_new now (e : @Event Data) (bus : Bus) l text :
  0 < ttl bus ->
  redis bus !! idempotency_key e = None ->
  redis bus !! queue_key (event_type e) = queue_entry l ->
  Event_json e = Return text ->
  exists bus1,
    emit Event_json now e bus = (Return true, bus1) /\
    ttl bus1 = ttl bus /\
    redis bus1
    = <[idempotency_key e :=
          {| Redis.value := Redis.VStr "1";
             Redis.expires_at := Some (now + ttl bus) |}]>
        (<[queue_key (event_type e) :=
             {| Redis.value := Redis.VList (text :: l);
                Redis.expires_at := None |}]> (redis bus)).
Proof.
  intros Httl Hid Hq Htext. unfold emit, Redis.exists_, Redis.lpush.
  unfold Redis.find at 1. rewrite Hid, Htext.
  rewrite (find_queue_entry _ _ _ _ Hq).
  destruct l as [|x l]; cbn [queue_entry Redis.value Redis.expires_at];
    rewrite RedisFacts.setex_ok by done; eexists; by repeat split.
Qed.

Lemma emit_each_new (t : string) (events : list (Z * @Event Data)) :
  forall (texts : list string) (bus : Bus) l,
    0 < ttl bus ->
    NoDup (map (fun p => event_id p.2) events) ->
    Forall (fun p => event_type p.2 = t) events ->
    redis bus !! queue_key t = queue_entry l ->
    Forall (fun p => redis bus !! idempotency_key p.2 = None) events ->
    Forall2 (fun p text => Event_json p.2 = Return text) events texts ->
    exists bus1,
      emit_each Event_json events bus
      = (map (fun _ => Return true) events, bus1) /\
      ttl bus1 = ttl bus /\
      redis bus1 !! queue_key t = queue_entry (rev texts ++ l).
Proof.
  induction events as [|[now e] rest IH];
    intros texts bus l Httl Hnd Hty Hq Hun Htexts.
  - apply Forall2_nil_inv_l in Htexts as ->. exists bus. by repeat split.
  - apply Forall2_cons_inv_l in Htexts as (text & texts' & Htext & Htexts & ->).
    cbn in Htext.
    apply NoDup_cons in Hnd as [Hnew Hnd].
    apply Forall_cons in Hty as [Ht Hty]. cbn in Ht. subst t.
    apply Forall_cons in Hun as [Hid Hun]. cbn in Hid.
    destruct (emit_new now e bus l text Httl Hid Hq Htext)
      as (bus1 & He & Httl1 & Hr1).
    destruct (IH texts' bus1 (text :: l)) as (bus2 & Hrest & Httl2 & Hq2).
    + by rewrite Httl1.
    + done.
    + done.
    + rewrite Hr1, lookup_insert_ne by apply IdempotencyFacts.keys_differ.
      by rewrite lookup_insert_eq.
    + rewrite Forall_forall in Hun |- *. intros p Hp. rewrite Hr1.
      rewrite lookup_insert_ne.
      * rewrite lookup_insert_ne; [by apply Hun|].
        intros E. symmetry in E. by apply IdempotencyFacts.keys_differ in E.
      * intros E. apply idempotency_key_inj in E. apply Hnew.
        cbn. rewrite E. apply list_elem_of_In, in_map_iff.
        exists p. split; [done|]. by apply list_elem_of_In.
    + done.
    + exists bus2. cbn [emit_each map]. rewrite He, Hrest.
      split; [done|]. split; [congruence|].
      rewrite Hq2. cbn [rev]. by rewrite <- app_assoc.
Qed.

Lemma consume_each_fifo (t : string) (events : list (@Event Data)) :
  forall (texts : list string) (instants : list Z) (bus : Bus),
    length instants = length events ->
    Forall2 (fun e text => json_loads text = Return e) events texts ->
    redis bus !! queue_key t = queue_entry (rev texts) ->
    exists bus1,
      consume_each json_loads instants t bus
      = (map (fun e => Return (Some e)) events, bus1) /\
      redis bus1 !! queue_key t = None.
Proof.
  induction events as [|e rest IH]; intros texts instants bus Hlen Hrt Hq.
  - destruct instants; [|done]. apply Forall2_nil_inv_l in Hrt as ->.
    by exists bus.
  - destruct instants as [|now instants]; [done|].
    apply Forall2_cons_inv_l in Hrt as (text & texts' & He & Hrt & ->).
    cbn [rev] in Hq. rewrite queue_entry_snoc in Hq.
    assert (Hc : exists bus1,
               consume json_loads now t bus = (Return (Some e), bus1) /\
               redis bus1 !! queue_key t = queue_entry (rev texts')).
    { unfold consume, Redis.brpop, Redis.find. rewrite Hq.
      cbn [Redis.live Redis.expires_at Redis.value].
      rewrite last_snoc, removelast_last.
      destruct (rev texts') as [|x l'] eqn:E.
      - rewrite He. eexists. split; [reflexivity|]. cbn [redis with_redis].
        unfold Redis.delete. by rewrite lookup_delete_eq.
      - rewrite He. eexists. split; [reflexivity|]. cbn [redis with_redis].
        by rewrite lookup_insert_eq. }
    destruct Hc as (bus1 & Hc & Hq1).
    destruct (IH texts' instants bus1) as (bus2 & Hrest & Hq2);
      [by injection Hlen|done|done|].
    exists bus2. cbn [consume_each map]. by rewrite Hc, Hrest.
Qed.

Lemma texts_of_events (events : list (Z * @Event Data)) :
  Forall (fun p => exists text,
              Event_json p.2 = Return text /\ json_loads text = Return p.2)
         events ->
  exists texts,
    Forall2 (fun p text => Event_json p.2 = Return text) events texts /\
    Forall2 (fun e text => json_loads text = Return e) (map snd events) texts.
Proof.
  induction 1 as [|p rest (text & H1 & H2) _ (texts & IH1 & IH2)].
  - exists []. split; constructor.
  - exists (text :: texts). split; constructor; done.
Qed.

(** X25.  The queue of a type is first in, first out: events of one type with
    ids that differ, none of them marked, emitted one after the other on a
    queue that holds nothing, are all emitted, and as many calls of
    [consume] return them in the order of their emission, each once; the
    queue is then empty, and a further [consume] returns [None]. *)
Theorem events_are_consumed_in_the_order_of_emission
        (t : string) (events : list (Z * @Event Data)) (instants : list Z)
        (bus : Bus) :
  0 < ttl bus ->
  NoDup (map (fun p => event_id p.2) events) ->
  Forall (fun p => event_type p.2 = t) events ->
  redis bus !! queue_key t = None ->
  Forall (fun p => redis bus !! idempotency_key p.2 = None) events ->
  Forall (fun p => exists text,
              Event_json p.2 = Return text /\ json_loads text = Return p.2)
         events ->
  length instants = length events ->
  exists bus1 bus2,
    emit_each Event_json events bus
    = (map (fun _ => Return true) events, bus1) /\
    consume_each json_loads instants t bus1
    = (map (fun p => Return (Some p.2)) events, bus2) /\
    forall now, (consume json_loads now t bus2).1 = Return None.
Proof.
  intros Httl Hnd Hty Hq Hun Hrt Hlen.
  destruct (texts_of_events events Hrt) as (texts & Hdumps & Hloads).
  destruct (emit_each_new t events texts bus [] Httl Hnd Hty Hq Hun Hdumps)
    as (bus1 & He & _ & Hq1).
  rewrite app_nil_r in Hq1.
  destruct (consume_each_fifo t (map snd events) texts instants bus1)
    as (bus2 & Hc & Hq2).
  - by rewrite length_map.
  - done.
  - done.
  - exists bus1, bus2. split; [done|]. rewrite map_map in Hc.
    split; [done|].
    intros now. unfold consume, Redis.brpop, Redis.find. by rewrite Hq2.
Qed.

(** X26.  The duplicate detection lasts [ttl] seconds: an event emitted again at
    [now + ttl] or later is emitted a second time, and the queue holds it
    twice. *)
Theorem emit_again_after_the_retention now now' (e e' : @Event Data)
        (bus : Bus) text text' :
  Event_json e = Return text ->
  Event_json e' = Return text' ->
  0 < ttl bus ->
  redis bus !! idempotency_key e = None ->
  redis bus !! queue_key (event_type e) = None ->
  now + ttl bus <= now' ->
  event_id e' = event_id e ->
  event_type e' = event_type e ->
  exists bus1 bus2,
    emit Event_json now e bus = (Return true, bus1) /\
    emit Event_json now' e' bus1 = (Return true, bus2) /\
    Redis.elements_of now' (queue_key (event_type e)) (redis bus2)
    = [text'; text].
Proof.
  intros Htext Htext' Httl Hid Hq Hlate Hsame Hty.
  destruct (emit_new now e bus [] text Httl Hid Hq Htext)
    as (bus1 & He & Httl1 & Hr1).
  assert (Hk : idempotency_key e' = idempotency_key e).
  { unfold idempotency_key. by rewrite Hsame. }
  exists bus1. eexists. split; [done|].
  unfold emit. rewrite Hk, Hty, Httl1.
  assert (Hgone : Redis.exists_ now' (idempotency_key e) (redis bus1) = false).
  { unfold Redis.exists_, Redis.find. rewrite Hr1, lookup_insert_eq.
    unfold Redis.live. cbn. by rewrite bool_decide_eq_false_2 by lia. }
  rewrite Hgone, Htext'. unfold Redis.lpush, Redis.find at 1.
  rewrite Hr1, lookup_insert_ne by apply IdempotencyFacts.keys_differ.
  rewrite lookup_insert_eq. cbn [Redis.live Redis.expires_at Redis.value].
  rewrite RedisFacts.setex_ok by done.
  split; [reflexivity|].
  unfold Redis.elements_of, Redis.find. cbn [redis logged with_redis].
  rewrite lookup_insert_ne by apply IdempotencyFacts.keys_differ.
  by rewrite lookup_insert_eq.
Qed.

(** X27.  A bus whose [ttl] is not positive marks nothing: [emit] pushes the
    event, then fails on the SETEX, and raises with the event in the queue
    and the id unmarked, so that the retry of the caller queues the event
    again. *)
Theorem emit_without_retention_queues_and_raises now (e : @Event Data)
        (bus : Bus) l text :
  Event_json e = Return text ->
  ttl bus <= 0 ->
  redis bus !! idempotency_key e = None ->
  redis bus !! queue_key (event_type e) = queue_entry l ->
  exists bus1,
    emit Event_json now e bus = (Raise Redis.InvalidExpire, bus1) /\
    redis bus1 !! idempotency_key e = None /\
    redis bus1 !! queue_key (event_type e) = queue_entry (text :: l) /\
    ttl bus1 = ttl bus.
Proof.
  intros Htext Httl Hid Hq. unfold emit, Redis.exists_, Redis.lpush.
  unfold Redis.find at 1. rewrite Hid, Htext.
  rewrite (find_queue_entry _ _ _ _ Hq).
  assert (Hno : forall st,
             Redis.setex now (idempotency_key e) (ttl bus) "1" st
             = (Raise Redis.InvalidExpire, st)).
  { intros st. unfold Redis.setex. by rewrite bool_decide_eq_false_2 by lia. }
  destruct l as [|x l]; cbn [queue_entry Redis.value Redis.expires_at];
    rewrite Hno; eexists; (split; [reflexivity|]); cbn [redis with_redis ttl];
    (split; [|split; [|done]]).
  - rewrite lookup_insert_ne; [done|].
    intros E. symmetry in E. by apply IdempotencyFacts.keys_differ in E.
  - by rewrite lookup_insert_eq.
  - rewrite lookup_insert_ne; [done|].
    intros E. symmetry in E. by apply IdempotencyFacts.keys_differ in E.
  - by rewrite lookup_insert_eq.
Qed.

(** X28.  An element that [json.loads] rejects is lost: [consume] has taken it
    out of the queue when the decoding raises, so the call raises and the
    next [consume] goes on with the element before it. *)
Theorem undecodable_element_is_dropped now (t : string) (bus : Bus)
        (l : list string) (bad : string) (err : Exn) ex :
  redis bus !! queue_key t
  = Some {| Redis.value := Redis.VList (l ++ [bad]); Redis.expires_at := ex |} ->
  Redis.live now {| Redis.value := Redis.VList (l ++ [bad]);
                    Redis.expires_at := ex |} = true ->
  json_loads bad = Raise err ->
  exists bus1,
    consume json_loads now t bus = (Raise err, bus1) /\
    Redis.elements_of now (queue_key t) (redis bus1) = l.
Proof.
  intros Hq Hlive Hbad. unfold consume, Redis.brpop, Redis.find.
  rewrite Hq, Hlive. cbn [Redis.value Redis.expires_at].
  rewrite last_snoc, removelast_last.
  destruct l as [|x l'].
  - rewrite Hbad. eexists. split; [reflexivity|]. cbn [redis with_redis].
    unfold Redis.elements_of, Redis.find, Redis.delete.
    by rewrite lookup_delete_eq.
  - rewrite Hbad. eexists. split; [reflexivity|]. cbn [redis with_redis].
    unfold Redis.elements_of, Redis.find.
    rewrite lookup_insert_eq.
    unfold Redis.live in *. cbn [Redis.expires_at] in *. by rewrite Hlive.
Qed.

End Bus.

Lemma events_are_consumed_in_the_order_of_emission_witness :
  exists bus1 bus2,
    emit_each Samples.event_dumps
              [(0, Samples.sms_received); (5, Samples.sms_received_next)]
              Samples.fresh_bus
    = (map (fun _ => Return true)
           [(0, Samples.sms_received); (5, Samples.sms_received_next)], bus1) /\
    consume_each Samples.event_loads [10; 11] "sms.received" bus1
    = (map (fun p => Return (Some p.2))
           [(0, Samples.sms_received); (5, Samples.sms_received_next)], bus2) /\
    forall now,
      (consume Samples.event_loads now "sms.received" bus2).1 = Return None.
Proof.
  apply (events_are_consumed_in_the_order_of_emission
           Samples.event_dumps Samples.event_loads "sms.received"
           [(0, Samples.sms_received); (5, Samples.sms_received_next)]
           [10; 11] Samples.fresh_bus).
  - reflexivity.
  - apply (bool_decide_unpack _). vm_compute. exact I.
  - repeat constructor.
  - reflexivity.
  - repeat constructor.
  - repeat constructor; eexists; (split; [reflexivity|reflexivity]).
  - reflexivity.
Defined.

Lemma emit_again_after_the_retention_witness :
  exists bus1 bus2,
    emit Samples.event_dumps 0 Samples.sms_received Samples.fresh_bus
    = (Return true, bus1) /\
    emit Samples.event_dumps 86400 Samples.sms_received_again bus1
    = (Return true, bus2) /\
    Redis.elements_of 86400 (queue_key (event_type Samples.sms_received))
                      (redis bus2)
    = [Samples.event_json Samples.sms_received_again;
       Samples.event_json Samples.sms_received].
Proof.
  apply (emit_again_after_the_retention Samples.event_dumps 0 86400
           Samples.sms_received Samples.sms_received_again Samples.fresh_bus
           (Samples.event_json Samples.sms_received)
           (Samples.event_json Samples.sms_received_again)).
  - reflexivity.
  - reflexivity.
  - reflexivity.
  - reflexivity.
  - reflexivity.
  - vm_compute. discriminate.
  - reflexivity.
  - reflexivity.
Defined.

Lemma emit_without_retention_queues_and_raises_witness :
  exists bus1,
    emit Samples.event_dumps 0 Samples.sms_received Samples.bus_without_ttl
    = (Raise Redis.InvalidExpire, bus1) /\
    redis bus1 !! idempotency_key Samples.sms_received = None /\
    redis bus1 !! queue_key (event_type Samples.sms_received)
    = queue_entry [Samples.event_json Samples.sms_received] /\
    ttl bus1 = ttl Samples.bus_without_ttl.
Proof.
  apply (emit_without_retention_queues_and_raises Samples.event_dumps 0
           Samples.sms_received Samples.bus_without_ttl []
           (Samples.event_json Samples.sms_received)).
  - reflexivity.
  - vm_compute. discriminate.
  - reflexivity.
  - reflexivity.
Defined.

Lemma undecodable_element_is_dropped_witness :
  exists bus1,
    consume Samples.event_loads 0 "sms.received" Samples.bus_with_garbage
    = (Raise Samples.malformed, bus1) /\
    Redis.elements_of 0 (queue_key "sms.received") (redis bus1)
    = [Samples.event_json Samples.sms_received].
Proof.
  apply (undecodable_element_is_dropped Samples.event_loads 0 "sms.received"
           Samples.bus_with_garbage [Samples.event_json Samples.sms_received]
           "not json" Samples.malformed None).
  - reflexivity.
  - reflexivity.
  - reflexivity.
Defined.

End EventQueueFacts.

(** ** The scheduler: who is written to, and when *)

Module SchedulerFacts.

Import BatchSender SMSScheduler.

Lemma chunked_exists {A} (n : nat) (q : list A) :
  (0 < n)%nat -> exists ws, chunked n q ws.
Proof.
  intros Hn. remember (length q) as k eqn:Hk. revert q Hk.
  induction k as [k IH] using lt_wf_ind. intros q Hk.
  destruct q as [|a q'] eqn:E.
  - exists []. constructor.
  - destruct (IH (length (drop n (a :: q')))) with (q := drop n (a :: q'))
      as [cs Hcs]; [|done|].
    + rewrite length_drop. subst k. cbn [length]. lia.
    + exists (take n (a :: q') :: cs). by constructor.
Qed.

Lemma planning_messages_app a b :
  planning_messages (a ++ b) = planning_messages a ++ planning_messages b.
Proof. unfold planning_messages. apply flat_map_app. Qed.

Lemma planning_messages_chunks n households hs :
  chunked n households hs ->
  concat (map planning_messages hs) = planning_messages households.
Proof.
  induction 1 as [|q cs Hne Hc IH]; [done|]. cbn [map concat].
  rewrite IH, <- planning_messages_app. by rewrite take_drop.
Qed.

Lemma planning_messages_of_part i households :
  (length (planning_messages (take batch_size (drop i households)))
   <= length (planning_messages households))%nat.
Proof.
  rewrite <- (take_drop i households) at 2.
  rewrite <- (take_drop batch_size (drop i households)) at 2.
  rewrite !planning_messages_app, !length_app. lia.
Qed.

Lemma sent_batches_app a b : sent_batches (a ++ b) = sent_batches a ++ sent_batches b.
Proof. unfold sent_batches. apply omap_app. Qed.

Section Scheduler.

Context {X : Type}.
Variable send_message :
  string -> string -> option string -> X -> Outcome string * X.
Variable send_media_message :
  string -> string -> string -> option string -> X -> Outcome string * X.

(** A [send_batch] leaves the sender ready for the next one. *)
Lemma send_batch_keeps messages (s : @Sender) (x : X) :
  0 < rate_limit s ->
  queue s = [] ->
  exists results s' x' sends,
    (forall fuel, (length messages < fuel)%nat ->
       send_batch send_message send_media_message fuel messages s x
       = Some (results, s', x', sends)) /\
    queue s' = [] /\
    rate_limit s' = rate_limit s.
Proof.
  intros Hrate Hq.
  destruct (BatchSenderFacts.send_batch_spec send_message send_media_message
              messages s x Hrate Hq)
    as (results & s' & x' & sends & outs & Hrun & _ & _ & _ & _ & Hq' & _).
  exists results, s', x', sends. split; [done|]. split; [done|].
  specialize (Hrun (S (length messages)) ltac:(lia)). unfold send_batch in Hrun.
  set (P := fun r : Results * @Sender * X * list BatchEvent =>
              rate_limit r.1.1.2 = rate_limit s).
  refine (BatchWindowFacts.drain_invariant send_message send_media_message
            P _ _ _ _ _ _ _ _ Hrun); [|done].
  clear. intros s1 x1 results tr _ H1. unfold P in *. cbn in H1.
  pose proof (BatchSenderFacts.turn_spec send_message send_media_message
                s1 x1 results tr) as Ht. cbn zeta in Ht.
  destruct (turn _ _ s1 x1 results tr) as [[[r2 s2] x2] tr2].
  destruct Ht as (outs & _ & _ & _ & _ & _ & Hr & _). cbn. congruence.
Qed.

Lemma schedule_loop_spec households q hs :
  chunked batch_size q hs ->
  forall i (s : @Sender) (x : X) tr,
    q = drop i households ->
    0 < rate_limit s ->
    queue s = [] ->
    exists s' x' seg,
      (forall fuel, (length (planning_messages households) < fuel)%nat ->
         schedule_loop send_message send_media_message fuel (length hs) i
                       households s x tr
         = Some (s', x', tr ++ seg)) /\
      sent_batches seg = map planning_messages hs /\
      minute_paced seg /\
      queue s' = [].
Proof.
  induction 1 as [|q cs Hne Hc IH]; intros i s x tr Hq Hrate Hempty.
  - exists s, x, []. split; [|split; [done|split; [constructor|done]]].
    intros fuel _. cbn. by rewrite app_nil_r.
  - destruct (send_batch_keeps (planning_messages (take batch_size q)) s x
                Hrate Hempty)
      as (results & s1 & x1 & sends & Hrun & Hq1 & Hr1).
    set (tr1 := (tr ++ [batch_sent (planning_messages (take batch_size q)) sends])
                  ++ (if bool_decide (i + batch_size < length households)%nat
                      then [minute_sleep 60] else [])).
    destruct (IH (i + batch_size)%nat s1 x1 tr1)
      as (s' & x' & seg & Hloop & Hsent & Hpaced & Hq').
    { subst q. by rewrite drop_drop. }
    { by rewrite Hr1. }
    { done. }
    assert (Hlate : (i + batch_size < length households)%nat <-> cs <> []).
    { split.
      - intros Hlt Hnil. subst cs. inversion Hc as [Hd|]; subst.
        + assert (Hl : length (drop batch_size (drop i households)) = 0%nat)
            by (by rewrite <- Hd).
          rewrite drop_drop, length_drop in Hl. lia.
      - intros Hcs. destruct (decide (i + batch_size < length households)%nat)
          as [|Hge]; [done|].
        exfalso. apply Hcs. inversion Hc as [|q0 cs0 Hne0]; [done|]. subst.
        exfalso. apply Hne0. rewrite drop_drop. apply drop_ge. lia. }
    exists s', x',
      (batch_sent (planning_messages (take batch_size q)) sends
         :: (if bool_decide (i + batch_size < length households)%nat
             then [minute_sleep 60] else []) ++ seg).
    split; [|split; [|split; [|done]]].
    + intros fuel Hfuel. cbn [length schedule_loop]. rewrite <- Hq.
      rewrite Hrun.
      * specialize (Hloop fuel Hfuel). unfold tr1 in Hloop.
        destruct (bool_decide (i + batch_size < length households)%nat).
        -- rewrite Hloop. by rewrite <- !app_assoc.
        -- rewrite app_nil_r in Hloop. rewrite Hloop. by rewrite <- !app_assoc.
      * pose proof (planning_messages_of_part i households) as Hle.
        rewrite <- Hq in Hle. lia.
    + change (sent_batches (batch_sent ?m ?b :: ?r)) with (m :: sent_batches r).
      rewrite sent_batches_app, Hsent.
      by destruct (bool_decide (i + batch_size < length households)%nat).
    + destruct (decide (cs = [])) as [->|Hcs].
      * rewrite bool_decide_eq_false_2 by (intros Hlt; by apply Hlate in Hlt).
        destruct seg as [|ev seg]; [constructor|].
        destruct ev; [done|].
        inversion Hpaced.
      * rewrite bool_decide_eq_true_2 by (by apply Hlate).
        cbn [app]. constructor; [|done].
        intros ->. destruct cs; done.
Qed.

(** X29.  The weekly schedule writes to every member who receives group
    messages, and to no one else, once: the households are taken a hundred
    at a time, in their order; the messages of each hundred, one for each
    such member in the order of the households and of their members, are
    handed to one [send_batch]; a sleep of 60 seconds lies between two
    batches and none follows the last. *)
Theorem weekly_schedule_reaches_every_receiving_member
        (households : list Household) (s : @Sender) (x : X) :
  0 < rate_limit s ->
  queue s = [] ->
  exists s' x' tr hs,
    (forall fuel, (length (planning_messages households) < fuel)%nat ->
       schedule_weekly_planning_messages send_message send_media_message
                                         fuel households s x
       = Some (s', x', tr)) /\
    chunked batch_size households hs /\
    sent_batches tr = map planning_messages hs /\
    concat (sent_batches tr) = planning_messages households /\
    minute_paced tr.
Proof.
  intros Hrate Hq.
  destruct (chunked_exists batch_size households ltac:(unfold batch_size; lia))
    as [hs Hhs].
  destruct (schedule_loop_spec households households hs Hhs 0%nat s x [])
    as (s' & x' & seg & Hloop & Hsent & Hpaced & _); [done|done|done|].
  exists s', x', seg, hs. split.
  - intros fuel Hfuel. unfold schedule_weekly_planning_messages.
    destruct (BatchWindowFacts.chunked_count batch_size households hs
                ltac:(unfold batch_size; lia) Hhs) as [Hlen _].
    replace ((length households + (batch_size - 1)) / batch_size)%nat
      with (length hs).
    + by apply Hloop.
    + rewrite Hlen. f_equal. unfold batch_size. lia.
  - split; [done|]. split; [done|]. split; [|done].
    rewrite Hsent. by eapply planning_messages_chunks.
Qed.

End Scheduler.

Lemma weekly_schedule_reaches_every_receiving_member_witness :
  exists s' x' tr hs,
    (forall fuel,
        (length (planning_messages Samples.households_3) < fuel)%nat ->
        schedule_weekly_planning_messages Samples.provider_sms
          Samples.provider_mms fuel Samples.households_3 Samples.sender_80 tt
        = Some (s', x', tr)) /\
    chunked batch_size Samples.households_3 hs /\
    sent_batches tr = map planning_messages hs /\
    concat (sent_batches tr) = planning_messages Samples.households_3 /\
    minute_paced tr.
Proof.
  apply (weekly_schedule_reaches_every_receiving_member Samples.provider_sms
           Samples.provider_mms Samples.households_3 Samples.sender_80 tt);
    reflexivity.
Defined.

End SchedulerFacts.

(** ** A saga context that is executed again *)

Module SagaReuseFacts.

Import SagaBase.

Section Orchestrator.

Context {W Any : Type}.

(** The loop only appends to [completed_steps], and awaits no
    compensation. *)
Lemma reaches_appends pending i (s : @Run W Any) pending' j t :
  loop_reaches pending i s pending' j t ->
  exists done_,
    completed_steps (context t) = completed_steps (context s) ++ done_ /\
    Forall2 same_step done_ (take (length done_) pending) /\
    pending' = drop (length done_) pending /\
    compensations (trace t) = compensations (trace s).
Proof.
  induction 1 as [pending i s|step rest i s s' pending' j t Hb Hr IH].
  - exists []. by rewrite app_nil_r.
  - destruct IH as (d & Hc & Hsame & Hp & Ht).
    unfold loop_body in Hb.
    destruct (execute step (results (context s)) (world s)) as [[r|e] w]; [|done].
    injection Hb as <-. cbn [context completed_steps complete trace] in Hc, Ht.
    exists (set_result r step :: d). split; [by rewrite Hc, <- app_assoc|].
    cbn [length take drop]. split; [|split; [done|]].
    + constructor; [|done]. by repeat split.
    + rewrite Ht. unfold compensations. rewrite !omap_app. cbn.
      by rewrite !app_nil_r.
Qed.

(** X30.  [execute] does not start from an empty [completed_steps]: on a
    context that has completed steps before, the steps of the new run are
    appended to them, whether the run returns or one of its steps raises;
    in that case the caller gets the [TypeError] of the logger, and neither
    the earlier steps nor the new ones are compensated. *)
Theorem execute_again_keeps_earlier_steps (s : @Run W Any) :
  match execute_saga s with
  | (Return c, s') =>
      c = context s' /\
      exists done_,
        completed_steps c = completed_steps (context s) ++ done_ /\
        Forall2 same_step done_ (steps (context s))
  | (Raise err, s') =>
      err = LoggerTypeError "saga_id" /\
      exists done_,
        completed_steps (context s') = completed_steps (context s) ++ done_ /\
        (length done_ < length (steps (context s)))%nat /\
        Forall2 same_step done_ (take (length done_) (steps (context s))) /\
        compensations (trace s') = compensations (trace s)
  end.
Proof.
  destruct (SagaFacts.for_steps_cases (steps (context s)) 0 s)
    as [(t & Hf & Hr)|(e & f & step & rest & k & s_k & Hf & Hr & Hb)].
  - unfold execute_saga. rewrite Hf. split; [done|].
    destruct (reaches_appends _ _ _ _ _ _ Hr) as (d & Hc & Hsame & Hp & _).
    exists d. split; [done|].
    assert (Hlen : length d = length (steps (context s))).
    { pose proof (Forall2_length _ _ _ Hsame) as Hl. rewrite length_take in Hl.
      symmetry in Hp. apply (f_equal length) in Hp.
      rewrite length_drop in Hp. cbn in Hp. lia. }
    rewrite Hlen, firstn_all in Hsame. done.
  - assert (Hx : exists w, execute step (results (context s_k)) (world s_k)
                           = (Raise e, w)).
    { unfold loop_body in Hb.
      destruct (execute step (results (context s_k)) (world s_k)) as [[r|e'] w];
        [done|]. injection Hb as -> _. by exists w. }
    destruct Hx as [w Hx].
    rewrite (SagaFacts.raise_is_not_rolled_back s s_k step rest k e w Hr Hx).
    split; [done|].
    destruct (reaches_appends _ _ _ _ _ _ Hr) as (d & Hc & Hsame & Hp & Ht).
    exists d. cbn [context trace]. split; [done|]. split.
    { apply (f_equal length) in Hp. rewrite length_drop in Hp. cbn in Hp. lia. }
    split; [done|].
    rewrite <- Ht. unfold compensations. rewrite !omap_app. cbn.
    by rewrite !app_nil_r.
Qed.

End Orchestrator.

End SagaReuseFacts.
